(** * VeriWipe: a shallow embedding of the wipe engine, the method selector,
    the tamper-proof log and the certificate engine.

    Sources embedded:
    - src/veriwipe/src/ai_engine/ai_wipe_engine.py        ([DeviceType], [WipeMethod],
      [DeviceInfo], [select_optimal_wipe_method], [diagnose_and_resolve_errors])
    - src/veriwipe/src/wipe_core/wipe_engine.py            ([WipeCore.execute_wipe] and
      the phases it calls)
    - src/veriwipe/src/certificate_engine/certificate_generator.py
      ([TamperProofLogger], [CryptographicSigner], [CertificateGenerator])

    Modelling conventions.
    - Python [str] is [string]; characters are 8-bit code points (the
      certificates and logs of the program are ASCII in practice).
    - Python numbers are [PyNum]: [PInt] for [int] and [PFloat] for [float];
      float values are modelled exactly in [Q].  What matters for the claims
      is the int/float distinction and order bounds, both of which IEEE
      rounding preserves.
    - Library primitives the program calls but does not implement (SHA-256,
      ECDSA, base64, the trained random forest, [str.__hash__], the clock,
      [uuid4], external tools) are parameters of the definitions that use
      them, or fields of an explicit environment record. *)

From Stdlib Require Import String Ascii List ZArith QArith Qround Lia Lqa Bool.
Set Warnings "-register-all".
Import ListNotations.
Open Scope string_scope.

(* ================================================================== *)
(** ** Part I: definitions *)
(* ================================================================== *)

(* ------------------------------------------------------------------ *)
(** *** Python numbers *)

Inductive PyNum : Type :=
| PInt (z : Z)
| PFloat (q : Q).

(** The numeric value, as a rational. *)
Definition py_val (x : PyNum) : Q :=
  match x with PInt z => inject_Z z | PFloat q => q end.

(** [int(x)]: truncation toward zero. *)
Definition py_int (x : PyNum) : Z :=
  match x with
  | PInt z => z
  | PFloat q => Z.quot (Qnum q) (Zpos (Qden q))
  end.

(** [a * b] with int/float promotion. *)
Definition py_mul (a b : PyNum) : PyNum :=
  match a, b with
  | PInt x, PInt y => PInt (x * y)
  | _, _ => PFloat (py_val a * py_val b)
  end.

(** [a // b]: [None] is the [ZeroDivisionError]. *)
Definition py_floordiv (a b : PyNum) : option PyNum :=
  if Qeq_bool (py_val b) 0 then None
  else match a, b with
       | PInt x, PInt y => Some (PInt (Z.div x y))
       | _, _ => Some (PFloat (inject_Z (Qfloor (py_val a / py_val b))))
       end.

(* ------------------------------------------------------------------ *)
(** *** ai_wipe_engine.py: enums and [DeviceInfo] *)

Inductive DeviceType : Type :=
| HDD | SSD_SATA | SSD_NVME | EMMC | USB | UNKNOWN.

Definition DeviceType_value (t : DeviceType) : string :=
  match t with
  | HDD => "hdd" | SSD_SATA => "ssd_sata" | SSD_NVME => "ssd_nvme"
  | EMMC => "emmc" | USB => "usb" | UNKNOWN => "unknown"
  end.

Inductive WipeMethod : Type :=
| ATA_SECURE_ERASE
| NVME_SECURE_ERASE
| NVME_CRYPTO_ERASE
| MULTIPASS_OVERWRITE
| SINGLE_PASS_RANDOM
| CRYPTO_ERASE
| FACTORY_RESET.

Definition WipeMethod_value (m : WipeMethod) : string :=
  match m with
  | ATA_SECURE_ERASE => "ata_secure_erase"
  | NVME_SECURE_ERASE => "nvme_secure_erase"
  | NVME_CRYPTO_ERASE => "nvme_crypto_erase"
  | MULTIPASS_OVERWRITE => "multipass_overwrite"
  | SINGLE_PASS_RANDOM => "single_pass_random"
  | CRYPTO_ERASE => "crypto_erase"
  | FACTORY_RESET => "factory_reset"
  end.

(** [list(WipeMethod)], in declaration order. *)
Definition WipeMethod_list : list WipeMethod :=
  [ATA_SECURE_ERASE; NVME_SECURE_ERASE; NVME_CRYPTO_ERASE; MULTIPASS_OVERWRITE;
   SINGLE_PASS_RANDOM; CRYPTO_ERASE; FACTORY_RESET].

Record DeviceInfo : Type := {
  device_path : string;
  device_type : DeviceType;
  model : string;
  serial : string;
  size_gb : PyNum;
  interface : string;
  encryption_status : string;   (* "LUKS", "BitLocker", "None" or "Unknown" *)
  hpa_dco_present : bool;
  secure_erase_supported : bool
  (* [features: Dict[str, any]] is read by none of the embedded code *)
}.

(* ------------------------------------------------------------------ *)
(** *** [AIWipeEngine.select_optimal_wipe_method] *)

(** The feature vector built at lines 312-319.  [str_hash] is Python's
    [str.__hash__], salted per process ([PYTHONHASHSEED]); [%] is Python's
    modulo, which has the sign of the divisor, as [Z.modulo] does. *)
Definition method_features (str_hash : string -> Z) (d : DeviceInfo) : list PyNum :=
  [ PInt (Z.modulo (str_hash (DeviceType_value (device_type d))) 10);
    size_gb d;
    PFloat (if negb (String.eqb (encryption_status d) "None") then 1 else 0);
    PFloat (if secure_erase_supported d then 1 else 0);
    PFloat (if hpa_dco_present d then 1 else 0);
    PInt (Z.modulo (str_hash (interface d)) 10) ].

(** A fitted classifier's [predict] on one sample: the class index, or
    [None] when [predict] raises. *)
Definition Predictor : Type := list PyNum -> option Z.

(** [_rule_based_method_selection] (lines 335-361). *)
Definition rule_based_method_selection (d : DeviceInfo) : WipeMethod :=
  if String.eqb (encryption_status d) "LUKS" || String.eqb (encryption_status d) "BitLocker"
  then CRYPTO_ERASE
  else match device_type d with
       | SSD_NVME => if secure_erase_supported d then NVME_SECURE_ERASE else NVME_CRYPTO_ERASE
       | SSD_SATA | EMMC => if secure_erase_supported d then ATA_SECURE_ERASE else SINGLE_PASS_RANDOM
       | HDD => if secure_erase_supported d then ATA_SECURE_ERASE else MULTIPASS_OVERWRITE
       | _ => SINGLE_PASS_RANDOM
       end.

(** [select_optimal_wipe_method] (lines 309-333).  [method_selector] is the
    engine's [self.method_selector]: [None] when no model is set, otherwise
    the fitted forest (loaded from disk, or fitted by
    [initialize_fallback_models] on unseeded [np.random] data). *)
Definition select_optimal_wipe_method (method_selector : option Predictor)
    (str_hash : string -> Z) (d : DeviceInfo) : WipeMethod :=
  match method_selector with
  | Some predict =>
      match predict (method_features str_hash d) with
      | Some p =>
          if (0 <=? p)%Z && (p <? Z.of_nat (length WipeMethod_list))%Z
          then nth (Z.to_nat p) WipeMethod_list SINGLE_PASS_RANDOM
          else rule_based_method_selection d
      | None => rule_based_method_selection d
      end
  | None => rule_based_method_selection d
  end.

(** The selector ladder of spec section 4.2, written from the spec's words,
    for comparison with the code. *)
Definition spec_selector_ladder (d : DeviceInfo) : WipeMethod :=
  if String.eqb (encryption_status d) "LUKS" || String.eqb (encryption_status d) "BitLocker"
  then CRYPTO_ERASE
  else match device_type d with
       | SSD_NVME => if secure_erase_supported d then NVME_SECURE_ERASE else NVME_CRYPTO_ERASE
       | SSD_SATA => if secure_erase_supported d then ATA_SECURE_ERASE else SINGLE_PASS_RANDOM
       | EMMC => if secure_erase_supported d then ATA_SECURE_ERASE else SINGLE_PASS_RANDOM
       | HDD => if secure_erase_supported d then ATA_SECURE_ERASE else MULTIPASS_OVERWRITE
       | USB => SINGLE_PASS_RANDOM
       | UNKNOWN => SINGLE_PASS_RANDOM
       end.

(* ------------------------------------------------------------------ *)
(** *** certificate_generator.py: [LogEntry] and [TamperProofLogger] *)

Module Log.

(** [LogEntry] (lines 30-46).  [timestamp] is the float [time.time()],
    kept as the text [f"{timestamp}"] the hash is computed over (float
    [repr] is injective on the floats the clock returns). *)
Record LogEntry : Type := {
  timestamp : string;
  entry_id : string;
  message : string;
  level : string;
  previous_hash : string;
  entry_hash : string
}.

Section Chain.

(** [hashlib.sha256(data.encode()).hexdigest()]. *)
Variable sha256_hex : string -> string.

(** [LogEntry.calculate_hash]. *)
Definition calculate_hash (e : LogEntry) : string :=
  sha256_hex (timestamp e ++ entry_id e ++ message e ++ level e ++ previous_hash e).

(** [LogEntry(...)] without an [entry_hash]: [__post_init__] computes it. *)
Definition new_entry (ts eid msg lvl prev : string) : LogEntry :=
  let e := {| timestamp := ts; entry_id := eid; message := msg; level := lvl;
              previous_hash := prev; entry_hash := EmptyString |} in
  {| timestamp := ts; entry_id := eid; message := msg; level := lvl;
     previous_hash := prev; entry_hash := calculate_hash e |}.

(** [self.genesis_hash]: 64 zero digits. *)
Definition genesis_hash : string :=
  "0000000000000000000000000000000000000000000000000000000000000000".

(** [self.log_chain[-1].entry_hash if self.log_chain else self.genesis_hash]. *)
Definition tail_hash (chain : list LogEntry) : string :=
  match rev chain with
  | e :: _ => entry_hash e
  | [] => genesis_hash
  end.

(** [add_entry(message, level)]: [ts] is [time.time()] and [eid] is
    [str(uuid.uuid4())], drawn by the call. *)
Definition add_entry (chain : list LogEntry) (ts eid msg lvl : string) : list LogEntry :=
  chain ++ [new_entry ts eid msg lvl (tail_hash chain)].

(** One [add_entry] call: its clock reading, fresh id, message and level. *)
Record Append : Type := { a_ts : string; a_eid : string; a_msg : string; a_lvl : string }.

Definition add_entries (chain : list LogEntry) (calls : list Append) : list LogEntry :=
  fold_left (fun c a => add_entry c (a_ts a) (a_eid a) (a_msg a) (a_lvl a)) calls chain.

(** The loop of [verify_chain_integrity], from [expected_previous]. *)
Fixpoint verify_from (expected_previous : string) (chain : list LogEntry) : bool :=
  match chain with
  | [] => true
  | e :: rest =>
      if negb (String.eqb (previous_hash e) expected_previous) then false
      else if negb (String.eqb (entry_hash e) (calculate_hash e)) then false
      else verify_from (entry_hash e) rest
  end.

(** [verify_chain_integrity] (lines 98-115). *)
Definition verify_chain_integrity (chain : list LogEntry) : bool :=
  match chain with
  | [] => true
  | _ => verify_from genesis_hash chain
  end.

End Chain.

(** Replacing the byte at position [j] of a string by [b]. *)
Fixpoint set_byte (s : string) (j : nat) (b : ascii) : string :=
  match s, j with
  | EmptyString, _ => EmptyString
  | String _ r, O => String b r
  | String c r, S j' => String c (set_byte r j' b)
  end.

(** The fields of an entry a tamperer may edit. *)
Inductive Field : Type := FTimestamp | FMessage | FLevel | FPreviousHash.

Definition Field_eq_dec (f g : Field) : {f = g} + {f <> g}.
Proof. decide equality. Defined.

Definition field (f : Field) (e : LogEntry) : string :=
  match f with
  | FTimestamp => timestamp e
  | FMessage => message e
  | FLevel => level e
  | FPreviousHash => previous_hash e
  end.

(** The entry with byte [j] of field [f] replaced by [b]; [entry_hash]
    keeps its stored value. *)
Definition mutate_entry (f : Field) (j : nat) (b : ascii) (e : LogEntry) : LogEntry :=
  match f with
  | FTimestamp => {| timestamp := set_byte (timestamp e) j b; entry_id := entry_id e;
                     message := message e; level := level e;
                     previous_hash := previous_hash e; entry_hash := entry_hash e |}
  | FMessage => {| timestamp := timestamp e; entry_id := entry_id e;
                   message := set_byte (message e) j b; level := level e;
                   previous_hash := previous_hash e; entry_hash := entry_hash e |}
  | FLevel => {| timestamp := timestamp e; entry_id := entry_id e;
                 message := message e; level := set_byte (level e) j b;
                 previous_hash := previous_hash e; entry_hash := entry_hash e |}
  | FPreviousHash => {| timestamp := timestamp e; entry_id := entry_id e;
                        message := message e; level := level e;
                        previous_hash := set_byte (previous_hash e) j b;
                        entry_hash := entry_hash e |}
  end.

(** The chain with entry [i] mutated. *)
Fixpoint mutate_chain (chain : list LogEntry) (i : nat) (f : Field) (j : nat) (b : ascii)
  : list LogEntry :=
  match chain, i with
  | [], _ => []
  | e :: rest, O => mutate_entry f j b e :: rest
  | e :: rest, S i' => e :: mutate_chain rest i' f j b
  end.

End Log.

(* ------------------------------------------------------------------ *)
(** *** Python's [json] module as the certificate engine uses it *)

Module Json.

(** A JSON value as [json.load] returns it.  A number is kept as the
    token Python writes for it ([int.__repr__], [float.__repr__], or
    [NaN]/[Infinity]/[-Infinity]); a dict is its list of items. *)
Inductive json : Type :=
| JNull
| JBool (b : bool)
| JNum (tok : string)
| JStr (s : string)
| JArr (l : list json)
| JObj (l : list (string * json)).

Definition quote : ascii := ascii_of_nat 34.
Definition backslash : ascii := ascii_of_nat 92.

Definition hex_digit (n : nat) : ascii :=
  if Nat.ltb n 10 then ascii_of_nat (48 + n)%nat else ascii_of_nat (87 + n)%nat.

(** One character as [encode_basestring_ascii] writes it: a backslash
    before the double quote and before the backslash, the five short
    escapes b f n r t, a [u00XX] escape (lower-case hex) outside the
    printable range from space to tilde, the character itself otherwise. *)
Definition escape_char (c : ascii) : string :=
  let n := nat_of_ascii c in
  if Nat.eqb n 34 then String backslash (String quote EmptyString)
  else if Nat.eqb n 92 then String backslash (String backslash EmptyString)
  else if Nat.eqb n 8 then String backslash (String "b" EmptyString)
  else if Nat.eqb n 12 then String backslash (String "f" EmptyString)
  else if Nat.eqb n 10 then String backslash (String "n" EmptyString)
  else if Nat.eqb n 13 then String backslash (String "r" EmptyString)
  else if Nat.eqb n 9 then String backslash (String "t" EmptyString)
  else if Nat.ltb n 32 || Nat.ltb 126 n then
    String backslash (String "u" (String "0" (String "0"
      (String (hex_digit (n / 16)%nat) (String (hex_digit (n mod 16)%nat) EmptyString)))))
  else String c EmptyString.

Fixpoint escape_str (s : string) : string :=
  match s with
  | EmptyString => EmptyString
  | String c r => escape_char c ++ escape_str r
  end.

Definition ser_str (s : string) : string :=
  String quote (escape_str s ++ String quote EmptyString).

(** Compact serialization, [separators=(',', ':')], items in list order. *)
Fixpoint ser (v : json) : string :=
  match v with
  | JNull => "null"
  | JBool true => "true"
  | JBool false => "false"
  | JNum t => t
  | JStr s => ser_str s
  | JArr [] => "[]"
  | JArr (x :: xs) =>
      String "[" (ser x ++
        (fix go (l : list json) : string :=
           match l with
           | [] => "]"
           | y :: ys => String "," (ser y ++ go ys)
           end) xs)
  | JObj [] => "{}"
  | JObj ((k, x) :: xs) =>
      String "{" (ser_str k ++ String ":" (ser x ++
        (fix go (l : list (string * json)) : string :=
           match l with
           | [] => "}"
           | (k', y) :: ys => String "," (ser_str k' ++ String ":" (ser y ++ go ys))
           end) xs))
  end.

Definition ser_arr_tail (l : list json) : string :=
  (fix go (l : list json) : string :=
     match l with
     | [] => "]"
     | y :: ys => String "," (ser y ++ go ys)
     end) l.

Definition ser_obj_tail (l : list (string * json)) : string :=
  (fix go (l : list (string * json)) : string :=
     match l with
     | [] => "}"
     | (k', y) :: ys => String "," (ser_str k' ++ String ":" (ser y ++ go ys))
     end) l.

(** [sorted(dct.items())] on a dict: keys are unique, so items compare by
    key, in code-point order. *)
Fixpoint insert_item (kv : string * json) (l : list (string * json)) : list (string * json) :=
  match l with
  | [] => [kv]
  | kv' :: l' => if String.ltb (fst kv) (fst kv') then kv :: l else kv' :: insert_item kv l'
  end.

Fixpoint sort_items (l : list (string * json)) : list (string * json) :=
  match l with
  | [] => []
  | kv :: l' => insert_item kv (sort_items l')
  end.

(** [sort_keys=True], applied at every level. *)
Fixpoint sort_keys (v : json) : json :=
  match v with
  | JArr l => JArr (map sort_keys l)
  | JObj l => JObj (sort_items (map (fun kv => (fst kv, sort_keys (snd kv))) l))
  | _ => v
  end.

(** [json.dumps(v, sort_keys=True, separators=(',', ':'))]. *)
Definition dumps (v : json) : string := ser (sort_keys v).

(** [dict.pop(k, default)] on a dict: the value and the dict without [k];
    [None] when [v] is not a dict (the [AttributeError] of [.pop]). *)
Definition dict_pop (k : string) (default : json) (v : json) : option (json * json) :=
  match v with
  | JObj l =>
      Some (match find (fun kv => String.eqb (fst kv) k) l with
            | Some kv => snd kv
            | None => default
            end,
            JObj (filter (fun kv => negb (String.eqb (fst kv) k)) l))
  | _ => None
  end.

(** Number tokens Python writes: a digit, [-], [N] or [I] first, then
    digits, signs, [.], exponents and the letters of [NaN]/[Infinity]. *)
Definition is_num_char (c : ascii) : bool :=
  existsb (Ascii.eqb c) (list_ascii_of_string "0123456789+-.eEINaifnty").

Definition is_num_start (c : ascii) : bool :=
  existsb (Ascii.eqb c) (list_ascii_of_string "0123456789-NI").

Definition num_token_ok (t : string) : bool :=
  match t with
  | EmptyString => false
  | String c _ => is_num_start c && forallb is_num_char (list_ascii_of_string t)
  end.

Fixpoint json_wf (v : json) : bool :=
  match v with
  | JNum t => num_token_ok t
  | JArr l => forallb json_wf l
  | JObj l => forallb (fun kv => json_wf (snd kv)) l
  | _ => true
  end.

(** A decoder for the compact form: the inverse used to show that [ser]
    loses nothing. *)
Definition hex_val (c : ascii) : option nat :=
  let n := nat_of_ascii c in
  if Nat.leb 48 n && Nat.leb n 57 then Some (n - 48)%nat
  else if Nat.leb 97 n && Nat.leb n 102 then Some (n - 87)%nat
  else if Nat.leb 65 n && Nat.leb n 70 then Some (n - 55)%nat
  else None.

Definition simple_escape (e : ascii) : option ascii :=
  let n := nat_of_ascii e in
  if Nat.eqb n 34 then Some quote
  else if Nat.eqb n 92 then Some backslash
  else if Nat.eqb n 47 then Some (ascii_of_nat 47)
  else if Nat.eqb n 98 then Some (ascii_of_nat 8)
  else if Nat.eqb n 102 then Some (ascii_of_nat 12)
  else if Nat.eqb n 110 then Some (ascii_of_nat 10)
  else if Nat.eqb n 114 then Some (ascii_of_nat 13)
  else if Nat.eqb n 116 then Some (ascii_of_nat 9)
  else None.

Definition cons_res (c : ascii) (r : option (string * string)) : option (string * string) :=
  match r with
  | Some (s, rest) => Some (String c s, rest)
  | None => None
  end.

Definition hex4 (h1 h2 h3 h4 : ascii) : option nat :=
  match hex_val h1, hex_val h2, hex_val h3, hex_val h4 with
  | Some a, Some b, Some c, Some d => Some (((a * 16 + b) * 16 + c) * 16 + d)%nat
  | _, _, _, _ => None
  end.

(** The body of a string literal after its opening quote. *)
Fixpoint parse_string (s : string) : option (string * string) :=
  match s with
  | EmptyString => None
  | String c r =>
      if Ascii.eqb c quote then Some (EmptyString, r)
      else if Ascii.eqb c backslash then
        match r with
        | EmptyString => None
        | String e r1 =>
            if Ascii.eqb e "u" then
              match r1 with
              | String h1 (String h2 (String h3 (String h4 r2))) =>
                  match hex4 h1 h2 h3 h4 with
                  | Some n => if Nat.ltb n 256 then cons_res (ascii_of_nat n) (parse_string r2) else None
                  | None => None
                  end
              | _ => None
              end
            else match simple_escape e with
                 | Some c' => cons_res c' (parse_string r1)
                 | None => None
                 end
        end
      else cons_res c (parse_string r)
  end.

Fixpoint span_num (s : string) : string * string :=
  match s with
  | EmptyString => (EmptyString, EmptyString)
  | String c r =>
      if is_num_char c then let (a, b) := span_num r in (String c a, b)
      else (EmptyString, s)
  end.

Fixpoint strip_prefix (p s : string) : option string :=
  match p with
  | EmptyString => Some s
  | String c p' =>
      match s with
      | String c' s' => if Ascii.eqb c c' then strip_prefix p' s' else None
      | EmptyString => None
      end
  end.

Fixpoint parse_value (n : nat) (s : string) {struct n} : option (json * string) :=
  match n with
  | O => None
  | S n' =>
      match s with
      | EmptyString => None
      | String c r =>
          if Ascii.eqb c "n" then
            match strip_prefix "ull" r with Some r' => Some (JNull, r') | None => None end
          else if Ascii.eqb c "t" then
            match strip_prefix "rue" r with Some r' => Some (JBool true, r') | None => None end
          else if Ascii.eqb c "f" then
            match strip_prefix "alse" r with Some r' => Some (JBool false, r') | None => None end
          else if Ascii.eqb c quote then
            match parse_string r with Some (str, r') => Some (JStr str, r') | None => None end
          else if Ascii.eqb c "[" then
            match r with
            | String c2 r' =>
                if Ascii.eqb c2 "]" then Some (JArr [], r')
                else
                  match parse_value n' r with
                  | Some (x, r1) =>
                      match parse_arr_tail n' r1 with
                      | Some (xs, r2) => Some (JArr (x :: xs), r2)
                      | None => None
                      end
                  | None => None
                  end
            | EmptyString => None
            end
          else if Ascii.eqb c "{" then
            match r with
            | String c2 r' =>
                if Ascii.eqb c2 "}" then Some (JObj [], r')
                else
                  match parse_member n' r with
                  | Some (kv, r1) =>
                      match parse_obj_tail n' r1 with
                      | Some (kvs, r2) => Some (JObj (kv :: kvs), r2)
                      | None => None
                      end
                  | None => None
                  end
            | EmptyString => None
            end
          else if is_num_start c then
            let (tok, rest) := span_num s in Some (JNum tok, rest)
          else None
      end
  end
with parse_arr_tail (n : nat) (s : string) {struct n} : option (list json * string) :=
  match n with
  | O => None
  | S n' =>
      match s with
      | String c r =>
          if Ascii.eqb c "]" then Some ([], r)
          else if Ascii.eqb c "," then
            match parse_value n' r with
            | Some (x, r1) =>
                match parse_arr_tail n' r1 with
                | Some (xs, r2) => Some (x :: xs, r2)
                | None => None
                end
            | None => None
            end
          else None
      | EmptyString => None
      end
  end
with parse_member (n : nat) (s : string) {struct n} : option ((string * json) * string) :=
  match n with
  | O => None
  | S n' =>
      match s with
      | String c r =>
          if Ascii.eqb c quote then
            match parse_string r with
            | Some (k, String c1 r2) =>
                if Ascii.eqb c1 ":" then
                  match parse_value n' r2 with
                  | Some (v, r3) => Some ((k, v), r3)
                  | None => None
                  end
                else None
            | _ => None
            end
          else None
      | EmptyString => None
      end
  end
with parse_obj_tail (n : nat) (s : string) {struct n}
  : option (list (string * json) * string) :=
  match n with
  | O => None
  | S n' =>
      match s with
      | String c r =>
          if Ascii.eqb c "}" then Some ([], r)
          else if Ascii.eqb c "," then
            match parse_member n' r with
            | Some (kv, r1) =>
                match parse_obj_tail n' r1 with
                | Some (kvs, r2) => Some (kv :: kvs, r2)
                | None => None
                end
            | None => None
            end
          else None
      | EmptyString => None
      end
  end.

Fixpoint jsize (v : json) : nat :=
  match v with
  | JArr l =>
      (3 + (fix go (l : list json) : nat :=
             match l with [] => 0%nat | y :: ys => (3 + jsize y + go ys)%nat end) l)%nat
  | JObj l =>
      (3 + (fix go (l : list (string * json)) : nat :=
             match l with [] => 0%nat | (_, y) :: ys => (3 + jsize y + go ys)%nat end) l)%nat
  | _ => 1%nat
  end.

Definition arr_size (l : list json) : nat :=
  (fix go (l : list json) : nat :=
     match l with [] => 0%nat | y :: ys => (3 + jsize y + go ys)%nat end) l.

Definition obj_size (l : list (string * json)) : nat :=
  (fix go (l : list (string * json)) : nat :=
     match l with [] => 0%nat | (_, y) :: ys => (3 + jsize y + go ys)%nat end) l.

(** What may follow a value inside a document: nothing, [,], [\]] or [}]. *)
Definition stop (s : string) : bool :=
  match s with
  | EmptyString => true
  | String c _ => Ascii.eqb c "," || Ascii.eqb c "]" || Ascii.eqb c "}"
  end.

(** Induction over [json] through its lists. *)
Section JsonInd.
Variable P : json -> Prop.
Hypothesis HNull : P JNull.
Hypothesis HBool : forall b, P (JBool b).
Hypothesis HNum : forall t, P (JNum t).
Hypothesis HStr : forall s, P (JStr s).
Hypothesis HArr : forall l, Forall P l -> P (JArr l).
Hypothesis HObj : forall l, Forall (fun kv => P (snd kv)) l -> P (JObj l).

Fixpoint json_rect' (v : json) : P v :=
  match v with
  | JNull => HNull
  | JBool b => HBool b
  | JNum t => HNum t
  | JStr s => HStr s
  | JArr l =>
      HArr l ((fix go (l : list json) : Forall P l :=
                 match l with
                 | [] => Forall_nil _
                 | y :: ys => Forall_cons y (json_rect' y) (go ys)
                 end) l)
  | JObj l =>
      HObj l ((fix go (l : list (string * json)) : Forall (fun kv => P (snd kv)) l :=
                 match l with
                 | [] => Forall_nil _
                 | (k, y) :: ys => Forall_cons (P := fun kv => P (snd kv)) (k, y) (json_rect' y) (go ys)
                 end) l)
  end.
End JsonInd.

End Json.

(* ------------------------------------------------------------------ *)
(** *** wipe_engine.py: [WipeStatus] and [WipeOperation] *)

Module WipeCore.

Inductive WipeStatus : Type :=
| NOT_STARTED | IN_PROGRESS | COMPLETED | FAILED | CANCELLED.

Definition WipeStatus_value (s : WipeStatus) : string :=
  match s with
  | NOT_STARTED => "not_started" | IN_PROGRESS => "in_progress"
  | COMPLETED => "completed" | FAILED => "failed" | CANCELLED => "cancelled"
  end.

(** [WipeOperation] (lines 26-43); times and [progress] are floats. *)
Record WipeOperation : Type := {
  device_info : DeviceInfo;
  method : WipeMethod;
  start_time : option Q;
  end_time : option Q;
  status : WipeStatus;
  progress : Q;
  error_message : option string;
  operation_log : list string;
  verification_hashes : list (string * string)
}.

(* ------------------------------------------------------------------ *)
(** *** wipe_engine.py: the executor *)

(** [operation.device_info] etc. written back: one setter per field. *)
Definition set_start_time (t : option Q) (o : WipeOperation) : WipeOperation :=
  {| device_info := device_info o; method := method o; start_time := t;
     end_time := end_time o; status := status o; progress := progress o;
     error_message := error_message o; operation_log := operation_log o;
     verification_hashes := verification_hashes o |}.

Definition set_end_time (t : option Q) (o : WipeOperation) : WipeOperation :=
  {| device_info := device_info o; method := method o; start_time := start_time o;
     end_time := t; status := status o; progress := progress o;
     error_message := error_message o; operation_log := operation_log o;
     verification_hashes := verification_hashes o |}.

Definition set_status (s : WipeStatus) (o : WipeOperation) : WipeOperation :=
  {| device_info := device_info o; method := method o; start_time := start_time o;
     end_time := end_time o; status := s; progress := progress o;
     error_message := error_message o; operation_log := operation_log o;
     verification_hashes := verification_hashes o |}.

Definition set_method (m : WipeMethod) (o : WipeOperation) : WipeOperation :=
  {| device_info := device_info o; method := m; start_time := start_time o;
     end_time := end_time o; status := status o; progress := progress o;
     error_message := error_message o; operation_log := operation_log o;
     verification_hashes := verification_hashes o |}.

Definition set_progress (p : Q) (o : WipeOperation) : WipeOperation :=
  {| device_info := device_info o; method := method o; start_time := start_time o;
     end_time := end_time o; status := status o; progress := p;
     error_message := error_message o; operation_log := operation_log o;
     verification_hashes := verification_hashes o |}.

Definition set_error_message (e : option string) (o : WipeOperation) : WipeOperation :=
  {| device_info := device_info o; method := method o; start_time := start_time o;
     end_time := end_time o; status := status o; progress := progress o;
     error_message := e; operation_log := operation_log o;
     verification_hashes := verification_hashes o |}.

Definition append_log (line : string) (o : WipeOperation) : WipeOperation :=
  {| device_info := device_info o; method := method o; start_time := start_time o;
     end_time := end_time o; status := status o; progress := progress o;
     error_message := error_message o; operation_log := operation_log o ++ [line];
     verification_hashes := verification_hashes o |}.

(** [d[k] = v] on a dict kept as its item list. *)
Fixpoint dict_set (k v : string) (l : list (string * string)) : list (string * string) :=
  match l with
  | [] => [(k, v)]
  | (k', v') :: r => if String.eqb k k' then (k, v) :: r else (k', v') :: dict_set k v r
  end.

Definition set_verification_hash (k v : string) (o : WipeOperation) : WipeOperation :=
  {| device_info := device_info o; method := method o; start_time := start_time o;
     end_time := end_time o; status := status o; progress := progress o;
     error_message := error_message o; operation_log := operation_log o;
     verification_hashes := dict_set k v (verification_hashes o) |}.

(** Python exceptions: [subprocess.TimeoutExpired] and every other one,
    each with the text [str(e)]. *)
Inductive PyExc : Type :=
| TimeoutExpired (msg : string)
| OtherError (msg : string).

Definition exc_str (e : PyExc) : string :=
  match e with TimeoutExpired m => m | OtherError m => m end.

(** The external commands [WipeCore] runs. *)
Inductive Cmd : Type :=
| HdparmSetPass        (* hdparm --user-master u --security-set-pass p DEV, timeout 30 *)
| HdparmErase          (* hdparm --user-master u --security-erase p DEV, Popen *)
| NvmeListNs           (* nvme list-ns DEV, timeout 30 *)
| NvmeFormatSecure     (* nvme format DEV --namespace-id 1 --secure-erase 1, Popen *)
| NvmeFormatCrypto     (* nvme format DEV --namespace-id 1 --secure-erase 2, timeout 300 *)
| DdRandom             (* dd if=/dev/urandom of=DEV bs=1M status=progress, Popen *)
| CryptsetupLuksErase. (* cryptsetup luksErase DEV, timeout 60 *)

(** How a command ends: its return code and stderr, the [timeout] of
    [subprocess.run] expiring, or an exception from starting it (for
    instance [FileNotFoundError] when the tool is missing). *)
Inductive RunResult : Type :=
| Exit (returncode : Z) (stderr : string)
| TimedOut (msg : string)
| Raised (msg : string).

(** What the host answers.  [polls c] are the values of
    [time.time() - start_time] at the iterations of the [process.poll()]
    loop of a [Popen]ed command; [dd_monitor_rounds] the iterations of
    [_monitor_dd_progress]; [device_size] what [_get_device_size] returns
    (0 when the device cannot be opened); [read_sector o] the bytes
    [f.read(512)] returns after [f.seek(o)], [None] when [open] raises;
    [pre_sample]/[post_sample] the SHA-256 of the first MiB, or the text
    of the exception reading it raised.  [pre_check_raises] is an
    exception escaping [_pre_wipe_checks]: none of the calls it makes lets
    one through, so it stands for the exceptions the model does not
    produce otherwise (a [MemoryError], an error in [logging]). *)
Record Env : Type := {
  clock_start : Q;
  clock_end : Q;
  path_exists : bool;
  is_mounted : bool;
  unmount_ok : bool;
  hpa_removed : bool;
  pre_check_raises : option PyExc;
  pre_sample : string + string;
  post_sample : string + string;
  run : Cmd -> RunResult;
  polls : Cmd -> list Q;
  dd_monitor_rounds : nat;
  device_size : Z;
  overwrite_ok : bool;
  read_sector : Z -> option (list Z)
}.

(** The state the executor threads: the operation, the values passed to
    the progress callbacks in order, and the [sector] arguments of the
    [_verify_sector_wiped] calls in order. *)
Record St : Type := mkSt { op : WipeOperation; notes : list Q; sector_checks : list PyNum }.

Inductive Res (A : Type) : Type :=
| Ok (a : A)
| Exn (e : PyExc).
Arguments Ok {A} a.
Arguments Exn {A} e.

Definition M (A : Type) : Type := St -> Res A * St.

Definition ret {A} (a : A) : M A := fun s => (Ok a, s).

Definition bind {A B} (m : M A) (k : A -> M B) : M B :=
  fun s => match m s with
           | (Ok a, s') => k a s'
           | (Exn e, s') => (Exn e, s')
           end.

Definition raise {A} (e : PyExc) : M A := fun s => (Exn e, s).

(** [try: m except Exception as e: h(e)]. *)
Definition try_except {A} (m : M A) (h : PyExc -> M A) : M A :=
  fun s => match m s with
           | (Ok a, s') => (Ok a, s')
           | (Exn e, s') => h e s'
           end.

Definition modify_op (f : WipeOperation -> WipeOperation) : M unit :=
  fun s => (Ok tt, mkSt (f (op s)) (notes s) (sector_checks s)).

Definition get_op : M WipeOperation := fun s => (Ok (op s), s).

Notation "x <- m ;; k" := (bind m (fun x => k))
  (at level 61, m at next level, right associativity).
Notation "m ;; k" := (bind m (fun _ => k)) (at level 61, right associativity).

(** [operation.operation_log.append(line)]. *)
Definition log (line : string) : M unit := modify_op (append_log line).

(** [_notify_progress]: every callback sees [progress]; exceptions of
    callbacks are caught there. *)
Definition notify (p : Q) : M unit :=
  fun s => (Ok tt, mkSt (op s) (notes s ++ [p]) (sector_checks s)).

(** Python's [min(a, b)] and [a < b] on floats. *)
Definition Qltb (a b : Q) : bool := negb (Qle_bool b a).
Definition py_min (a b : Q) : Q := if Qltb b a then b else a.

(** The [process.poll()] loop of the ATA and NVMe erases: progress
    [min(30 + (elapsed / estimated_duration) * 60, 90)] at each round;
    dividing by a zero estimate raises [ZeroDivisionError]. *)
Fixpoint poll_progress (estimated_duration : Q) (elapsed : list Q) : M unit :=
  match elapsed with
  | [] => ret tt
  | e :: rest =>
      if Qeq_bool estimated_duration 0 then raise (OtherError "float division by zero")
      else notify (py_min (30 + (e / estimated_duration) * 60) 90);;
           poll_progress estimated_duration rest
  end.

(** [subprocess.run] / [Popen] + [communicate] of a command: its return
    code and stderr, or the exception. *)
Definition run_cmd (env : Env) (c : Cmd) : M (Z * string) :=
  match run env c with
  | Exit code err => ret (code, err)
  | TimedOut m => raise (TimeoutExpired m)
  | Raised m => raise (OtherError m)
  end.

Definition Zneqb (a b : Z) : bool := negb (Z.eqb a b).

Section Executor.
Variable env : Env.

Definition dev_path : M string := o <- get_op;; ret (device_path (device_info o)).

(** [_ata_secure_erase] (lines 186-234). *)
Definition ata_secure_erase : M bool :=
  log "Starting ATA Secure Erase";;
  try_except
    (r <- run_cmd env HdparmSetPass;;
     if Zneqb (fst r) 0 then
       log ("Failed to set security password: " ++ snd r);; ret false
     else
       notify 30;;
       o <- get_op;;
       r2 <- run_cmd env HdparmErase;;
       poll_progress (py_val (py_mul (size_gb (device_info o)) (PInt 2))) (polls env HdparmErase);;
       if Z.eqb (fst r2) 0 then
         log "ATA Secure Erase completed successfully";; notify 90;; ret true
       else
         log ("ATA Secure Erase failed: " ++ snd r2);; ret false)
    (fun e => match e with
              | TimeoutExpired _ => log "ATA Secure Erase timed out";; ret false
              | OtherError m => log ("ATA Secure Erase error: " ++ m);; ret false
              end).

(** [_nvme_secure_erase] (lines 236-279). *)
Definition nvme_secure_erase : M bool :=
  log "Starting NVMe Secure Erase";;
  try_except
    (r <- run_cmd env NvmeListNs;;
     if Zneqb (fst r) 0 then
       log "Failed to list NVMe namespaces";; ret false
     else
       notify 30;;
       o <- get_op;;
       r2 <- run_cmd env NvmeFormatSecure;;
       poll_progress (py_val (py_mul (size_gb (device_info o)) (PFloat (1 # 2))))
         (polls env NvmeFormatSecure);;
       if Z.eqb (fst r2) 0 then
         log "NVMe Secure Erase completed successfully";; notify 90;; ret true
       else
         log ("NVMe Secure Erase failed: " ++ snd r2);; ret false)
    (fun e => log ("NVMe Secure Erase error: " ++ exc_str e);; ret false).

(** [_nvme_crypto_erase] (lines 281-303). *)
Definition nvme_crypto_erase : M bool :=
  log "Starting NVMe Crypto Erase";;
  try_except
    (r <- run_cmd env NvmeFormatCrypto;;
     if Z.eqb (fst r) 0 then
       log "NVMe Crypto Erase completed successfully";; notify 90;; ret true
     else
       log ("NVMe Crypto Erase failed: " ++ snd r);; ret false)
    (fun e => log ("NVMe Crypto Erase error: " ++ exc_str e);; ret false).

Definition chunk_size : Z := 1048576.

(** The progress values of [_overwrite_device]'s loop: after chunk [k]
    the running total [written] is [min(k * chunk_size, device_size)], and
    the loop runs [ceil(device_size / chunk_size)] times. *)
Definition overwrite_progress (progress_base : Q) (size : Z) : list Q :=
  map (fun k => progress_base + (inject_Z (Z.min (Z.of_nat k * chunk_size) size) / inject_Z size) * 20)
      (seq 1 (Z.to_nat ((size + chunk_size - 1) / chunk_size))).

Fixpoint notify_all (ps : list Q) : M unit :=
  match ps with
  | [] => ret tt
  | p :: rest => notify p;; notify_all rest
  end.

(** [_overwrite_device] (lines 517-537); [overwrite_ok] is false when
    [open(device_path, 'wb')] raises (a write error part way through is
    not modelled). *)
Definition overwrite_device (size : Z) (progress_base : Q) : M bool :=
  if overwrite_ok env then notify_all (overwrite_progress progress_base size);; ret true
  else log "Pattern overwrite failed: [Errno 13] Permission denied";; ret false.

(** The three passes of [_multipass_overwrite] (lines 305-333). *)
Fixpoint passes (pass_num : nat) (n : nat) (size : Z) : M bool :=
  match n with
  | O => ret true
  | S n' =>
      let progress_base := 30 + inject_Z (Z.of_nat pass_num - 1) * 20 in
      log ("Starting pass " ++ String (ascii_of_nat (48 + pass_num)) "/3");;
      ok <- overwrite_device size progress_base;;
      if ok then notify (progress_base + 20);; passes (S pass_num) n' size
      else ret false
  end.

Definition multipass_overwrite : M bool :=
  log "Starting multi-pass overwrite (3 passes)";;
  try_except
    (if Z.eqb (device_size env) 0 then
       log "Could not determine device size";; ret false
     else
       ok <- passes 1 3 (device_size env);;
       if ok then log "Multi-pass overwrite completed successfully";; ret true
       else ret false)
    (fun e => log ("Multi-pass overwrite error: " ++ exc_str e);; ret false).

(** [_monitor_dd_progress] (lines 539-552): each round adds 2 to the
    stored [operation.progress] while it is below 80 and reports it. *)
Fixpoint monitor_dd_progress (rounds : nat) : M unit :=
  match rounds with
  | O => ret tt
  | S r =>
      o <- get_op;;
      (if Qltb (progress o) 80 then
         modify_op (set_progress (progress o + 2));; notify (progress o + 2)
       else ret tt);;
      monitor_dd_progress r
  end.

(** [_single_pass_random] (lines 335-364); the monitor thread is joined
    before the return code is read. *)
Definition single_pass_random : M bool :=
  log "Starting single-pass random overwrite";;
  try_except
    (r <- run_cmd env DdRandom;;
     monitor_dd_progress (dd_monitor_rounds env);;
     if Z.eqb (fst r) 0 then
       log "Single-pass random overwrite completed successfully";; notify 90;; ret true
     else
       log ("Single-pass overwrite failed: " ++ snd r);; ret false)
    (fun e => log ("Single-pass overwrite error: " ++ exc_str e);; ret false).

(** [_crypto_erase] (lines 366-398). *)
Definition crypto_erase : M bool :=
  o <- get_op;;
  let encryption_type := encryption_status (device_info o) in
  log ("Starting crypto erase for " ++ encryption_type);;
  try_except
    (if String.eqb encryption_type "LUKS" then
       r <- run_cmd env CryptsetupLuksErase;;
       if Z.eqb (fst r) 0 then
         log "LUKS header destroyed successfully";; notify 90;; ret true
       else
         log ("LUKS erase failed: " ++ snd r);; ret false
     else if String.eqb encryption_type "BitLocker" then
       log "BitLocker crypto erase not implemented in Linux environment";; ret false
     else
       log "No encryption detected, falling back to overwrite";; single_pass_random)
    (fun e => log ("Crypto erase error: " ++ exc_str e);; ret false).

Definition WipeMethod_name (m : WipeMethod) : string :=
  match m with
  | ATA_SECURE_ERASE => "ATA_SECURE_ERASE"
  | NVME_SECURE_ERASE => "NVME_SECURE_ERASE"
  | NVME_CRYPTO_ERASE => "NVME_CRYPTO_ERASE"
  | MULTIPASS_OVERWRITE => "MULTIPASS_OVERWRITE"
  | SINGLE_PASS_RANDOM => "SINGLE_PASS_RANDOM"
  | CRYPTO_ERASE => "CRYPTO_ERASE"
  | FACTORY_RESET => "FACTORY_RESET"
  end.

(** [_execute_wipe_method] (lines 155-184). *)
Definition execute_wipe_method : M bool :=
  o <- get_op;;
  let m := method o in
  log ("Executing wipe method: " ++ WipeMethod_value m);;
  try_except
    (match m with
     | ATA_SECURE_ERASE => ata_secure_erase
     | NVME_SECURE_ERASE => nvme_secure_erase
     | NVME_CRYPTO_ERASE => nvme_crypto_erase
     | MULTIPASS_OVERWRITE => multipass_overwrite
     | SINGLE_PASS_RANDOM => single_pass_random
     | CRYPTO_ERASE => crypto_erase
     | FACTORY_RESET =>
         modify_op (set_error_message (Some ("Unsupported wipe method: WipeMethod." ++ WipeMethod_name m)));;
         ret false
     end)
    (fun e =>
       modify_op (set_error_message (Some ("Error executing " ++ WipeMethod_value m ++ ": " ++ exc_str e)));;
       ret false).

(** [_pre_wipe_checks] (lines 130-153), with [_take_pre_wipe_sample]. *)
Definition pre_wipe_checks : M bool :=
  path <- dev_path;;
  log "Starting pre-wipe checks";;
  match pre_check_raises env with
  | Some e => raise e
  | None =>
      if negb (path_exists env) then
        modify_op (set_error_message (Some ("Device " ++ path ++ " does not exist")));; ret false
      else
        ok <- (if is_mounted env then
                 log ("Device " ++ path ++ " is mounted, attempting to unmount");;
                 if unmount_ok env then ret true
                 else modify_op (set_error_message (Some ("Failed to unmount " ++ path)));; ret false
               else ret true);;
        if negb ok then ret false
        else
          o <- get_op;;
          (if hpa_dco_present (device_info o) then
             log "Removing HPA/DCO";;
             (if hpa_removed env then ret tt else log "Warning: Could not remove HPA/DCO")
           else ret tt);;
          (match pre_sample env with
           | inr h => modify_op (set_verification_hash "pre_wipe_sample" h)
           | inl err => log ("Could not take pre-wipe sample: " ++ err)
           end);;
          log "Pre-wipe checks completed";;
          notify 10;;
          ret true
  end.

(** [_verify_sector_wiped] (lines 505-515): [f.seek(sector * 512)] raises
    [TypeError] for a float, and every exception gives [False]. *)
Definition verify_sector_wiped (sector : PyNum) : M bool :=
  fun s =>
    let s' := mkSt (op s) (notes s) (sector_checks s ++ [sector]) in
    match sector with
    | PFloat _ => (Ok false, s')
    | PInt z =>
        match read_sector env (z * 512) with
        | Some data => (Ok (Nat.leb (length (nodup Z.eq_dec data)) 2), s')
        | None => (Ok false, s')
        end
    end.

(** The sampling loop of [_post_wipe_verification]: [true] when it ran
    to the end, [false] at the first failing sector ([break]). *)
Fixpoint sample_loop (size_gb : PyNum) (sample_count : Z) (i : nat) (n : nat) : M bool :=
  match n with
  | O => ret true
  | S n' =>
      match py_floordiv (py_mul (py_mul (py_mul size_gb (PInt 1024)) (PInt 1024)) (PInt 1024)) (PInt 512) with
      | None => raise (OtherError "division by zero")
      | Some q =>
          match py_floordiv q (PInt sample_count) with
          | None => raise (OtherError "division by zero")
          | Some stride =>
              ok <- verify_sector_wiped (py_mul (PInt (Z.of_nat i)) stride);;
              if negb ok then ret false
              else
                (if Nat.eqb (Nat.modulo i 10) 0 then
                   notify (90 + (inject_Z (Z.of_nat i) / inject_Z sample_count) * 10)
                 else ret tt);;
                sample_loop size_gb sample_count (S i) n'
          end
      end
  end.

(** [_post_wipe_verification] (lines 400-431), with
    [_take_post_wipe_sample]. *)
Definition post_wipe_verification : M bool :=
  log "Starting post-wipe verification";;
  try_except
    (o <- get_op;;
     let size := size_gb (device_info o) in
     let sample_count := Z.min 100 (py_int size) in
     passed <- sample_loop size sample_count 0 (Z.to_nat sample_count);;
     if passed then
       log "Post-wipe verification passed";;
       (match post_sample env with
        | inr h => modify_op (set_verification_hash "post_wipe_sample" h)
        | inl err => log ("Could not take post-wipe sample: " ++ err)
        end);;
       ret true
     else
       log "Post-wipe verification failed - data remnants detected";; ret false)
    (fun e => log ("Post-wipe verification error: " ++ exc_str e);; ret false).

End Executor.

(** *** ai_wipe_engine.py: [diagnose_and_resolve_errors] (lines 363-404) *)

(** [str.lower()] on ASCII text. *)
Definition lower_char (c : ascii) : ascii :=
  let n := nat_of_ascii c in
  if Nat.leb 65 n && Nat.leb n 90 then ascii_of_nat (n + 32) else c.

Fixpoint lower (s : string) : string :=
  match s with
  | EmptyString => EmptyString
  | String c r => String (lower_char c) (lower r)
  end.

(** [pat in s]. *)
Fixpoint contains (pat s : string) : bool :=
  String.prefix pat s ||
  match s with
  | EmptyString => false
  | String _ r => contains pat r
  end.

Record Resolution : Type := {
  diagnosis : string;
  suggested_actions : list string;
  alternative_method : option WipeMethod;
  confidence : Q
}.

Definition diagnose_and_resolve_errors (error_message : string) : Resolution :=
  let error_lower := lower error_message in
  if contains "permission denied" error_lower then
    {| diagnosis := "Insufficient permissions";
       suggested_actions := ["Run as root/administrator"; "Check device permissions"];
       alternative_method := None; confidence := 9 # 10 |}
  else if contains "device busy" error_lower || contains "resource busy" error_lower then
    {| diagnosis := "Device is mounted or in use";
       suggested_actions := ["Unmount device"; "Stop processes using device"; "Kill fuser processes"];
       alternative_method := None; confidence := 95 # 100 |}
  else if contains "not supported" error_lower then
    {| diagnosis := "Operation not supported by device";
       suggested_actions := ["Try alternative wipe method"];
       alternative_method := Some SINGLE_PASS_RANDOM; confidence := 8 # 10 |}
  else if contains "timeout" error_lower then
    {| diagnosis := "Operation timeout";
       suggested_actions := ["Increase timeout"; "Check device health"; "Try slower method"];
       alternative_method := None; confidence := 7 # 10 |}
  else
    {| diagnosis := "Unknown error";
       suggested_actions := ["Check system logs"; "Retry operation"];
       alternative_method := None; confidence := 1 # 2 |}.

(** [str(list_of_str)] for strings with no quote or backslash. *)
Definition py_str_list_repr (l : list string) : string :=
  let fix items (l : list string) : string :=
    match l with
    | [] => EmptyString
    | [x] => "'" ++ x ++ "'"
    | x :: r => "'" ++ x ++ "', " ++ items r
    end in
  "[" ++ items l ++ "]".

Section ExecuteWipe.
Variable env : Env.

(** [execute_wipe] (lines 74-128), for the operation registered under
    [device_path]; [clock_start] and [clock_end] are the two
    [time.time()] readings. *)
Definition execute_wipe : M bool :=
  modify_op (set_start_time (Some (clock_start env)));;
  modify_op (set_status IN_PROGRESS);;
  try_except
    (ok <- pre_wipe_checks env;;
     if negb ok then modify_op (set_status FAILED);; ret false
     else
       success <- execute_wipe_method env;;
       if success then
         passed <- post_wipe_verification env;;
         if passed then
           modify_op (set_status COMPLETED);;
           modify_op (set_end_time (Some (clock_end env)));;
           modify_op (set_progress 100);;
           notify 100;;
           ret true
         else
           modify_op (set_status FAILED);;
           modify_op (set_error_message (Some "Post-wipe verification failed"));;
           ret false
       else
         modify_op (set_status FAILED);; ret false)
    (fun e =>
       modify_op (set_status FAILED);;
       modify_op (set_error_message (Some (exc_str e)));;
       let resolution := diagnose_and_resolve_errors (exc_str e) in
       log ("Error diagnosis: " ++ diagnosis resolution);;
       log ("Suggested actions: " ++ py_str_list_repr (suggested_actions resolution));;
       match alternative_method resolution with
       | Some alt =>
           if Qltb (7 # 10) (confidence resolution) then
             log ("Trying alternative method: WipeMethod." ++ WipeMethod_name alt);;
             modify_op (set_method alt);;
             execute_wipe_method env
           else ret false
       | None => ret false
       end).

End ExecuteWipe.

(** A run of [execute_wipe] on a freshly observed operation. *)
Definition run_execute_wipe (env : Env) (o : WipeOperation) : Res bool * St :=
  execute_wipe env (mkSt o [] []).

End WipeCore.

(* ------------------------------------------------------------------ *)
(** *** certificate_generator.py: [CertificateData] and its signature *)

Module Cert.
Import Json.

(** [CertificateData] (lines 48-59); the nested dicts and lists are the
    JSON values [asdict] produces for them. *)
Record CertificateData : Type := {
  certificate_id : string;
  timestamp : string;
  device_info : json;
  wipe_operation : json;
  verification_hashes : json;
  operation_log : json;
  tool_info : json;
  compliance_info : json;
  signature : string;
  blockchain_anchor : option string
}.

Definition opt_str (o : option string) : json :=
  match o with Some s => JStr s | None => JNull end.

(** [dataclasses.asdict]: the fields in declaration order.  The JSON file
    [_generate_json_certificate] writes is [json.dump] of this dict, and
    [json.load] of that file gives the dict back. *)
Definition asdict (c : CertificateData) : json :=
  JObj [("certificate_id", JStr (certificate_id c));
        ("timestamp", JStr (timestamp c));
        ("device_info", device_info c);
        ("wipe_operation", wipe_operation c);
        ("verification_hashes", verification_hashes c);
        ("operation_log", operation_log c);
        ("tool_info", tool_info c);
        ("compliance_info", compliance_info c);
        ("signature", JStr (signature c));
        ("blockchain_anchor", opt_str (blockchain_anchor c))].

(** The signed fields: every field but [signature] and [blockchain_anchor]. *)
Definition signed_items (c : CertificateData) : list (string * json) :=
  [("certificate_id", JStr (certificate_id c));
   ("timestamp", JStr (timestamp c));
   ("device_info", device_info c);
   ("wipe_operation", wipe_operation c);
   ("verification_hashes", verification_hashes c);
   ("operation_log", operation_log c);
   ("tool_info", tool_info c);
   ("compliance_info", compliance_info c)].

(** [certificate_data.signature = ...]. *)
Definition set_signature (c : CertificateData) (s : string) : CertificateData :=
  {| certificate_id := certificate_id c; timestamp := timestamp c;
     device_info := device_info c; wipe_operation := wipe_operation c;
     verification_hashes := verification_hashes c; operation_log := operation_log c;
     tool_info := tool_info c; compliance_info := compliance_info c;
     signature := s; blockchain_anchor := blockchain_anchor c |}.

(** Lines 329-333 of [_sign_certificate]: the canonical JSON it signs.
    [None] is the [AttributeError] of [.pop] on a value that is not a dict. *)
Definition canonical_json (c : CertificateData) : option string :=
  match dict_pop "signature" JNull (asdict c) with
  | Some (_, d1) =>
      match dict_pop "blockchain_anchor" JNull d1 with
      | Some (_, d2) => Some (dumps d2)
      | None => None
      end
  | None => None
  end.

Section Signer.

(** The ECDSA key pair, signatures as bytes, and base64.  [ecdsa_sign]
    takes the per-signature nonce ECDSA draws; [data.encode()] is folded
    into [ecdsa_sign] and [ecdsa_verify]. *)
Variables (PrivKey PubKey Sig : Type).
Variable public_key : PrivKey -> PubKey.
Variable ecdsa_sign : PrivKey -> nat -> string -> Sig.
Variable ecdsa_verify : PubKey -> string -> Sig -> bool.
Variable b64encode : Sig -> string.
Variable b64decode : string -> option Sig.

(** [CryptographicSigner.sign_data] (lines 190-200). *)
Definition sign_data (k : PrivKey) (nonce : nat) (data : string) : string :=
  b64encode (ecdsa_sign k nonce data).

(** [CryptographicSigner.verify_signature] (lines 202-218).  A signature
    that is not a string makes [b64decode] raise, and every exception
    yields [False]; [None] from [b64decode] is its [binascii.Error]. *)
Definition verify_signature (pk : PubKey) (data : string) (signature : json) : bool :=
  match signature with
  | JStr s =>
      match b64decode s with
      | Some b => ecdsa_verify pk data b
      | None => false
      end
  | _ => false
  end.

(** [_sign_certificate] (lines 326-334). *)
Definition sign_certificate (k : PrivKey) (nonce : nat) (c : CertificateData) : option string :=
  match canonical_json c with
  | Some m => Some (sign_data k nonce m)
  | None => None
  end.

(** The [valid] entry [verify_certificate] (lines 492-520) returns for
    the value [json.load] read from the certificate file. *)
Definition verify_certificate (pk : PubKey) (cert_data : json) : bool :=
  match dict_pop "signature" (JStr EmptyString) cert_data with
  | Some (signature, d1) =>
      match dict_pop "blockchain_anchor" JNull d1 with
      | Some (_, d2) => verify_signature pk (dumps d2) signature
      | None => false
      end
  | None => false
  end.

End Signer.

Arguments sign_data {PrivKey Sig} ecdsa_sign b64encode k nonce data.
Arguments verify_signature {PubKey Sig} ecdsa_verify b64decode pk data signature.
Arguments sign_certificate {PrivKey Sig} ecdsa_sign b64encode k nonce c.
Arguments verify_certificate {PubKey Sig} ecdsa_verify b64decode pk cert_data.

Section Prepare.

(** [hashlib.sha256(s.encode()).hexdigest()] and the text [json] writes
    for a number ([int.__repr__] or [float.__repr__]). *)
Variable sha256_hex : string -> string.
Variable py_repr : PyNum -> string.

Definition num (x : PyNum) : json := JNum (py_repr x).

Definition opt_float (o : option Q) : json :=
  match o with Some q => num (PFloat q) | None => JNull end.

(** Truthiness of an optional float: [None] and [0.0] are false. *)
Definition truthy (o : option Q) : bool :=
  match o with Some q => negb (Qeq_bool q 0) | None => false end.

(** [_get_nist_classification]: every [WipeMethod] value is in its table. *)
Definition get_nist_classification (m : WipeMethod) : string :=
  match m with
  | SINGLE_PASS_RANDOM | FACTORY_RESET => "Clear"
  | _ => "Purge"
  end.

(** [_prepare_certificate_data] (lines 260-324).  [cert_id] is
    [str(uuid.uuid4())], [now] is [datetime.now(timezone.utc).isoformat()],
    [fingerprint] is [self.signer.get_public_key_fingerprint()] and
    [log_chain] is [self.logger.log_chain], all read by the call. *)
Definition prepare_certificate_data (cert_id now fingerprint : string)
    (op : WipeCore.WipeOperation) (log_chain : list Log.LogEntry) : CertificateData :=
  let di := WipeCore.device_info op in
  let device_info :=
    JObj [("device_path_hash", JStr (substring 0 16 (sha256_hex (device_path di))));
          ("device_type", JStr (DeviceType_value (device_type di)));
          ("model", JStr (model di));
          ("serial_hash", JStr (substring 0 16 (sha256_hex (serial di))));
          ("size_gb", num (size_gb di));
          ("interface", JStr (interface di));
          ("encryption_status", JStr (encryption_status di));
          ("hpa_dco_present", JBool (hpa_dco_present di));
          ("secure_erase_supported", JBool (secure_erase_supported di))] in
  let wipe_op_data :=
    JObj [("method", JStr (WipeMethod_value (WipeCore.method op)));
          ("status", JStr (WipeCore.WipeStatus_value (WipeCore.status op)));
          ("start_time", opt_float (WipeCore.start_time op));
          ("end_time", opt_float (WipeCore.end_time op));
          ("duration_seconds",
             match WipeCore.start_time op, WipeCore.end_time op with
             | Some s, Some e =>
                 if truthy (Some e) && truthy (Some s) then num (PFloat (e - s)) else JNull
             | _, _ => JNull
             end);
          ("progress", num (PFloat (WipeCore.progress op)));
          ("error_message", opt_str (WipeCore.error_message op))] in
  let operation_log :=
    JArr (map (fun e =>
                 JObj [("timestamp", JNum (Log.timestamp e));
                       ("entry_id", JStr (Log.entry_id e));
                       ("message", JStr (Log.message e));
                       ("level", JStr (Log.level e));
                       ("entry_hash", JStr (Log.entry_hash e))]) log_chain) in
  let tool_info :=
    JObj [("name", JStr "VeriWipe"); ("version", JStr "1.0.0");
          ("build_hash", JStr "development"); ("signer_fingerprint", JStr fingerprint)] in
  let compliance_info :=
    JObj [("standards", JArr [JStr "NIST SP 800-88"]);
          ("method_classification", JStr (get_nist_classification (WipeCore.method op)));
          ("verification_level",
             JStr (match WipeCore.verification_hashes op with [] => "None" | _ => "Basic" end))] in
  {| certificate_id := cert_id;
     timestamp := now;
     device_info := device_info;
     wipe_operation := wipe_op_data;
     verification_hashes :=
       JObj (map (fun kv => (fst kv, JStr (snd kv))) (WipeCore.verification_hashes op));
     operation_log := operation_log;
     tool_info := tool_info;
     compliance_info := compliance_info;
     signature := EmptyString;
     blockchain_anchor := None |}.

End Prepare.

End Cert.

(* ------------------------------------------------------------------ *)
(** *** ai_wipe_engine.py: device detection *)

Module Detect.
Import Json WipeCore.

(** [str.upper()] on the ASCII letters.  No other code point below 256
    upper-cases to text holding [K], [M], [G], [T], a digit or a dot,
    which is all [_parse_size_to_gb] reads afterwards. *)
Definition upper_char (c : ascii) : ascii :=
  let n := nat_of_ascii c in
  if Nat.leb 97 n && Nat.leb n 122 then ascii_of_nat (n - 32) else c.

Fixpoint upper (s : string) : string :=
  match s with
  | EmptyString => EmptyString
  | String c r => String (upper_char c) (upper r)
  end.

Definition newline : ascii := ascii_of_nat 10.

(** [\d] of Python's [re] below code point 256: the ASCII digits. *)
Definition is_digit (c : ascii) : bool :=
  let n := nat_of_ascii c in Nat.leb 48 n && Nat.leb n 57.

(** [\s] of Python's [re] (and [str.isspace]) below code point 256. *)
Definition is_space (c : ascii) : bool :=
  let n := nat_of_ascii c in
  (Nat.leb 9 n && Nat.leb n 13) || (Nat.leb 28 n && Nat.leb n 32) ||
  Nat.eqb n 133 || Nat.eqb n 160.

(** The longest prefix of digits, and the rest. *)
Fixpoint span_digits (s : string) : string * string :=
  match s with
  | EmptyString => (EmptyString, EmptyString)
  | String c r =>
      if is_digit c then let (d, rest) := span_digits r in (String c d, rest)
      else (EmptyString, s)
  end.

Fixpoint skip_spaces (s : string) : string :=
  match s with
  | EmptyString => EmptyString
  | String c r => if is_space c then skip_spaces r else s
  end.

(** The value of a run of decimal digits. *)
Fixpoint digits_value_acc (acc : Z) (s : string) : Z :=
  match s with
  | EmptyString => acc
  | String c r => digits_value_acc (acc * 10 + (Z.of_nat (nat_of_ascii c) - 48)) r
  end.

Definition digits_value (s : string) : Z := digits_value_acc 0 s.

(** [re.search(p, s)]: the first position at which [at_] matches. *)
Fixpoint search {A} (at_ : string -> option A) (s : string) : option A :=
  match at_ s with
  | Some x => Some x
  | None => match s with EmptyString => None | String _ r => search at_ r end
  end.

(** [(\d+)\s*rpm] at one position, giving group 1.  Backtracking never
    shortens [\d+] or [\s*]: after a shorter run comes a digit or a
    space, neither of which starts what follows. *)
Definition rpm_at (s : string) : option string :=
  let (d, rest) := span_digits s in
  match d with
  | EmptyString => None
  | _ => if String.prefix "rpm" (skip_spaces rest) then Some d else None
  end.

(** A literal pattern in which [None] is [.]: any character but a newline. *)
Fixpoint match_lit (p : list (option ascii)) (s : string) : option string :=
  match p with
  | [] => Some s
  | x :: p' =>
      match s with
      | EmptyString => None
      | String c r =>
          match x with
          | Some a => if Ascii.eqb a c then match_lit p' r else None
          | None => if Ascii.eqb c newline then None else match_lit p' r
          end
      end
  end.

Definition lit (s : string) : list (option ascii) := map Some (list_ascii_of_string s).

(** [.*?(\d+)]: the lazy [.*?] stops at the first digit not preceded by a
    newline, and the greedy [\d+] takes the whole run from there. *)
Fixpoint lazy_digits (s : string) : option string :=
  match s with
  | EmptyString => None
  | String c r =>
      if is_digit c then Some (fst (span_digits s))
      else if Ascii.eqb c newline then None
      else lazy_digits r
  end.

Definition power_on_hours_pat : list (option ascii) :=
  (lit "power" ++ [None] ++ lit "on" ++ [None] ++ lit "hours")%list.

Definition pattern_digits_at (p : list (option ascii)) (s : string) : option string :=
  match match_lit p s with Some r => lazy_digits r | None => None end.

(** The dict [_get_device_features] returns: a key is absent when the
    command that fills it was not run or raised. *)
Record Features : Type := {
  smart_data : option string;
  hdparm_info : option string;
  nvme_info : option string
}.

Definition no_features : Features :=
  {| smart_data := None; hdparm_info := None; nvme_info := None |}.

(** [features.get(k, '')]. *)
Definition get_or_empty (o : option string) : string :=
  match o with Some s => s | None => EmptyString end.

(** [float(m.group(1)) if m else default]. *)
Definition group_or (m : option string) (default : Q) : Q :=
  match m with Some d => inject_Z (digits_value d) | None => default end.

(** [_extract_feature_vector] (lines 213-253).  The five [append]s make
    the padding loop and the [[:5]] slice no-ops. *)
Definition extract_feature_vector (features : Features) : list PyNum :=
  let smart_lower := lower (get_or_empty (smart_data features)) in
  let hdparm_info := get_or_empty (hdparm_info features) in
  let rotation_speed := group_or (search rpm_at smart_lower) 0 in
  let trim_support := if contains "trim" (lower hdparm_info) then 1 else 0 in
  let interface_speed :=
    if contains "sata 6" smart_lower then 6
    else if contains "sata 3" smart_lower then 3
    else if contains "nvme" smart_lower then 32
    else 0 in
  let power_hours := group_or (search (pattern_digits_at power_on_hours_pat) smart_lower) 0 in
  let temperature := group_or (search (pattern_digits_at (lit "temperature")) smart_lower) 25 in
  map PFloat [rotation_speed; trim_support; interface_speed; power_hours; temperature].

(** [list(DeviceType)], in declaration order. *)
Definition DeviceType_list : list DeviceType := [HDD; SSD_SATA; SSD_NVME; EMMC; USB; UNKNOWN].

(** [_rule_based_device_classification] (lines 194-211). *)
Definition rule_based_device_classification (features : Features) : DeviceType :=
  let smart := lower (get_or_empty (smart_data features)) in
  let hdparm := lower (get_or_empty (hdparm_info features)) in
  let nvme := lower (get_or_empty (nvme_info features)) in
  if negb (String.eqb nvme EmptyString) || contains "nvme" smart then SSD_NVME
  else if contains "solid state" smart || contains "ssd" hdparm then SSD_SATA
  else if contains "emmc" smart || contains "mmc" hdparm then EMMC
  else if contains "usb" smart then USB
  else if contains "rotating" smart || contains "disk" hdparm then HDD
  else UNKNOWN.

(** [_classify_device_type] (lines 177-192); [device_classifier] is the
    engine's [self.device_classifier], as for the method selector. *)
Definition classify_device_type (device_classifier : option Predictor) (features : Features)
  : DeviceType :=
  let feature_vector := extract_feature_vector features in
  match device_classifier with
  | Some predict =>
      if Nat.leb 5 (length feature_vector) then
        match predict feature_vector with
        | Some p =>
            if (0 <=? p)%Z && (p <? Z.of_nat (length DeviceType_list))%Z
            then nth (Z.to_nat p) DeviceType_list UNKNOWN
            else rule_based_device_classification features
        | None => rule_based_device_classification features
        end
      else rule_based_device_classification features
  | None => rule_based_device_classification features
  end.

(** How one [subprocess.run] without [check] ends: its return code and
    stdout, or an exception (the tool is missing, for instance). *)
Inductive ToolRun : Type :=
| Ran (returncode : Z) (stdout : string)
| NotRun (msg : string).

(** What the host answers during detection.  [lsblk_json] is
    [json.loads] of the output of [lsblk -J ...], [None] when the command
    fails ([check=True]) or its output is not JSON; the other fields are the
    commands run on a device path.  A command run twice on the same path
    answers the same. *)
Record Host : Type := {
  lsblk_json : option json;
  smartctl_a : string -> ToolRun;
  hdparm_I : string -> ToolRun;
  nvme_id_ctrl : string -> ToolRun;
  cryptsetup_isLuks : string -> ToolRun;
  mount_table : ToolRun;
  hdparm_N : string -> ToolRun
}.

Section Probes.
Variable host : Host.

(** [_get_device_features] (lines 151-175): an exception ends the [try]
    with the keys set so far. *)
Definition get_device_features (device_path : string) : Features :=
  match smartctl_a host device_path with
  | NotRun _ => no_features
  | Ran _ smart =>
      match hdparm_I host device_path with
      | NotRun _ => {| smart_data := Some smart; hdparm_info := None; nvme_info := None |}
      | Ran _ hd =>
          if contains "nvme" device_path then
            match nvme_id_ctrl host device_path with
            | NotRun _ => {| smart_data := Some smart; hdparm_info := Some hd; nvme_info := None |}
            | Ran _ nv => {| smart_data := Some smart; hdparm_info := Some hd; nvme_info := Some nv |}
            end
          else {| smart_data := Some smart; hdparm_info := Some hd; nvme_info := None |}
      end
  end.

(** [_check_encryption] (lines 267-283). *)
Definition check_encryption (device_path : string) : string :=
  match cryptsetup_isLuks host device_path with
  | NotRun _ => "Unknown"
  | Ran rc _ =>
      if Z.eqb rc 0 then "LUKS"
      else
        match mount_table host with
        | NotRun _ => "Unknown"
        | Ran _ out =>
            if contains device_path out && contains "bitlocker" (lower out) then "BitLocker"
            else "None"
        end
  end.

(** [_check_hpa_dco] (lines 285-293). *)
Definition check_hpa_dco (device_path : string) : bool :=
  match hdparm_N host device_path with
  | NotRun _ => false
  | Ran _ out =>
      let output := lower out in
      contains "hpa" output || contains "dco" output || contains "protected" output
  end.

(** [_check_secure_erase_support] (lines 295-307). *)
Definition check_secure_erase_support (device_path : string) (t : DeviceType) : bool :=
  match t with
  | SSD_NVME =>
      match nvme_id_ctrl host device_path with
      | NotRun _ => false
      | Ran _ out => contains "format" (lower out)
      end
  | _ =>
      match hdparm_I host device_path with
      | NotRun _ => false
      | Ran _ out => contains "erase_unit_max" (lower out)
      end
  end.

End Probes.

(** [re.findall(r'[\d.]+', s)[0]]: the first maximal run of digits and dots. *)
Definition is_num_dot (c : ascii) : bool := is_digit c || Ascii.eqb c ".".

Fixpoint span_num_dot (s : string) : string * string :=
  match s with
  | EmptyString => (EmptyString, EmptyString)
  | String c r =>
      if is_num_dot c then let (d, rest) := span_num_dot r in (String c d, rest)
      else (EmptyString, s)
  end.

Fixpoint first_num_run (s : string) : option string :=
  match s with
  | EmptyString => None
  | String c r => if is_num_dot c then Some (fst (span_num_dot s)) else first_num_run r
  end.

(** [float(t)] for such a run: digits, at most one dot, at least one
    digit; [None] is the [ValueError]. *)
Definition float_of_run (t : string) : option Q :=
  let (a, rest) := span_digits t in
  match rest with
  | EmptyString =>
      match a with EmptyString => None | _ => Some (inject_Z (digits_value a)) end
  | String c r =>
      if Ascii.eqb c "." then
        let (b, rest2) := span_digits r in
        match rest2, a, b with
        | String _ _, _, _ => None
        | EmptyString, EmptyString, EmptyString => None
        | EmptyString, _, _ =>
            Some (inject_Z (digits_value a) +
                  inject_Z (digits_value b) / inject_Z (10 ^ Z.of_nat (String.length b)))
        end
      else None
  end.

(** [multipliers.items()], in insertion order. *)
Definition multipliers : list (string * Q) :=
  [("K", 1 # 1000000); ("M", 1 # 1000); ("G", 1); ("T", 1000)].

(** [_parse_size_to_gb] (lines 255-265) on a string; [None] is the
    [ValueError] of [float]. *)
Definition parse_size_to_gb (size_str : string) : option Q :=
  let s := upper size_str in
  (fix go (l : list (string * Q)) : option Q :=
     match l with
     | [] => Some 0
     | (unit, multiplier) :: rest =>
         if contains unit s then
           match first_num_run s with
           | Some number =>
               match float_of_run number with
               | Some x => Some (x * multiplier)
               | None => None
               end
           | None => go rest
           end
         else go rest
     end) multipliers.

(** The [DeviceInfo] object [_analyze_device] builds.  The dataclass
    checks no types, so [model], [serial] and [interface] hold whatever
    the lsblk record gave ([None] for a JSON [null]); [size_gb] is always
    a float. *)
Record Detected : Type := {
  d_device_path : string;
  d_device_type : DeviceType;
  d_model : json;
  d_serial : json;
  d_size_gb : Q;
  d_interface : json;
  d_encryption_status : string;
  d_hpa_dco_present : bool;
  d_secure_erase_supported : bool;
  d_features : Features
}.

(** [d.get(k)] on a dict [json.loads] built: the last value given for [k]. *)
Definition jget (l : list (string * json)) (k : string) : option json :=
  match find (fun kv => String.eqb (fst kv) k) (rev l) with
  | Some kv => Some (snd kv)
  | None => None
  end.

Definition jget_default (l : list (string * json)) (k : string) (default : json) : json :=
  match jget l k with Some v => v | None => default end.

Section Analyze.
Variable host : Host.
Variable device_classifier : option Predictor.

(** [str()] of a list or a dict, as an f-string formats it. *)
Variable container_str : json -> string.

(** [f"{v}"] of a JSON value: [str] and [repr] agree on numbers, and
    write [nan] and [inf] for what JSON writes [NaN] and [Infinity]. *)
Definition fstr (v : json) : string :=
  match v with
  | JStr s => s
  | JNum t =>
      if String.eqb t "NaN" then "nan"
      else if String.eqb t "Infinity" then "inf"
      else if String.eqb t "-Infinity" then "-inf"
      else t
  | JNull => "None"
  | JBool true => "True"
  | JBool false => "False"
  | _ => container_str v
  end.

(** [_analyze_device] (lines 109-149) on a dict; [None] is the [None]
    its [except] returns ([KeyError] for a missing [name],
    [AttributeError] for a size that is not a string, [ValueError] from
    [float]). *)
Definition analyze_device (device_data : list (string * json)) : option Detected :=
  match jget device_data "name" with
  | None => None
  | Some name =>
      let device_path := "/dev/" ++ fstr name in
      let model := jget_default device_data "model" (JStr "Unknown") in
      let serial := jget_default device_data "serial" (JStr "Unknown") in
      let size_str := jget_default device_data "size" (JStr "0B") in
      let interface := jget_default device_data "tran" (JStr "unknown") in
      match size_str with
      | JStr s =>
          match parse_size_to_gb s with
          | None => None
          | Some size_gb =>
              let features := get_device_features host device_path in
              let device_type := classify_device_type device_classifier features in
              Some {| d_device_path := device_path;
                      d_device_type := device_type;
                      d_model := model;
                      d_serial := serial;
                      d_size_gb := size_gb;
                      d_interface := interface;
                      d_encryption_status := check_encryption host device_path;
                      d_hpa_dco_present := check_hpa_dco host device_path;
                      d_secure_erase_supported := check_secure_erase_support host device_path device_type;
                      d_features := features |}
          end
      | _ => None
      end
  end.

(** [device.get('type') == 'disk']. *)
Definition is_disk (d : list (string * json)) : bool :=
  match jget d "type" with Some (JStr t) => String.eqb t "disk" | _ => false end.

(** The loop of [detect_devices] over the [blockdevices] list.  An item
    that is not a dict makes [device.get] raise; the [except] outside the
    loop then returns the devices appended so far. *)
Fixpoint scan_devices (l : list json) : list Detected :=
  match l with
  | [] => []
  | JObj d :: rest =>
      if is_disk d then
        match analyze_device d with
        | Some x => x :: scan_devices rest
        | None => scan_devices rest
        end
      else scan_devices rest
  | _ :: _ => []
  end.

(** [detect_devices] (lines 88-107).  A [blockdevices] value that is not
    a list either raises when iterated or yields items that are not dicts
    (the keys of a dict, the characters of a string), so it gives no
    device; so does a document that is not a dict. *)
Definition detect_devices : list Detected :=
  match lsblk_json host with
  | Some (JObj top) =>
      match jget_default top "blockdevices" (JArr []) with
      | JArr l => scan_devices l
      | _ => []
      end
  | _ => []
  end.

End Analyze.

(** The detected device as the record [DeviceInfo] of this development,
    when [model], [serial] and [interface] are strings. *)
Definition to_device_info (d : Detected) : option DeviceInfo :=
  match d_model d, d_serial d, d_interface d with
  | JStr m, JStr s, JStr i =>
      Some {| device_path := d_device_path d; device_type := d_device_type d;
              model := m; serial := s; size_gb := PFloat (d_size_gb d);
              interface := i; encryption_status := d_encryption_status d;
              hpa_dco_present := d_hpa_dco_present d;
              secure_erase_supported := d_secure_erase_supported d |}
  | _, _, _ => None
  end.

End Detect.

(* ------------------------------------------------------------------ *)
(** *** wipe_engine.py: the helpers of the pre-wipe checks *)

Module Helpers.
Import WipeCore Detect.

(** [_is_device_mounted] (lines 434-440); [mount] is the run of [mount]. *)
Definition is_device_mounted (mount : ToolRun) (device_path : string) : bool :=
  match mount with
  | Ran _ out => contains device_path out
  | NotRun _ => false
  end.

(** [str.strip()]. *)
Fixpoint lstrip (s : string) : string :=
  match s with
  | EmptyString => EmptyString
  | String c r => if is_space c then lstrip r else s
  end.

Fixpoint rstrip (s : string) : string :=
  match s with
  | EmptyString => EmptyString
  | String c r =>
      let r' := rstrip r in
      match r' with
      | EmptyString => if is_space c then EmptyString else String c EmptyString
      | _ => String c r'
      end
  end.

Definition strip (s : string) : string := rstrip (lstrip s).

Definition cons_head (c : ascii) (l : list string) : list string :=
  match l with
  | x :: xs => String c x :: xs
  | [] => [String c EmptyString]
  end.

(** [s.split('\\n')]: the separator is the two characters backslash and
    [n], not a newline. *)
Fixpoint split_backslash_n (s : string) : list string :=
  match s with
  | EmptyString => [EmptyString]
  | String c r =>
      match r with
      | String c2 r2 =>
          if Ascii.eqb c Json.backslash && Ascii.eqb c2 "n" then EmptyString :: split_backslash_n r2
          else cons_head c (split_backslash_n r)
      | EmptyString => cons_head c (split_backslash_n r)
      end
  end.

(** The [umount] loop: the paths it runs [umount] on, in order, and
    [False] when one of those runs raises. *)
Fixpoint umount_all (umount : string -> ToolRun) (partitions : list string)
  : bool * list string :=
  match partitions with
  | [] => (true, [])
  | p :: rest =>
      if String.eqb (strip p) EmptyString then umount_all umount rest
      else
        let partition_path := "/dev/" ++ strip p in
        match umount partition_path with
        | NotRun _ => (false, [partition_path])
        | Ran _ _ =>
            let (ok, paths) := umount_all umount rest in (ok, partition_path :: paths)
        end
  end.

(** [_unmount_device] (lines 442-459): [lsblk] is the run of
    [lsblk -ln -o NAME device_path], [umount p] the run of [umount p]
    (its return code is not read). *)
Definition unmount_device (lsblk : ToolRun) (umount : string -> ToolRun) : bool * list string :=
  match lsblk with
  | NotRun _ => (false, [])
  | Ran _ out => umount_all umount (split_backslash_n (strip out))
  end.

End Helpers.

(* ------------------------------------------------------------------ *)
(** *** wipe_engine.py: the operations [WipeCore] keeps *)

Module Registry.
Import WipeCore.

(** [WipeOperation(device_info=d, method=m)] with its defaults. *)
Definition new_operation (d : DeviceInfo) (m : WipeMethod) : WipeOperation :=
  {| device_info := d; method := m; start_time := None; end_time := None;
     status := NOT_STARTED; progress := 0; error_message := None;
     operation_log := []; verification_hashes := [] |}.

(** [self.current_operations[k] = v]. *)
Fixpoint ops_set (k : string) (v : WipeOperation) (l : list (string * WipeOperation))
  : list (string * WipeOperation) :=
  match l with
  | [] => [(k, v)]
  | (k', v') :: r => if String.eqb k k' then (k, v) :: r else (k', v') :: ops_set k v r
  end.

Definition ops_get (k : string) (l : list (string * WipeOperation)) : option WipeOperation :=
  match find (fun kv => String.eqb (fst kv) k) l with
  | Some kv => Some (snd kv)
  | None => None
  end.

(** [prepare_wipe_operation] (lines 63-72); [select] is
    [self.ai_engine.select_optimal_wipe_method].  The registered object is
    the one whose log gets the two lines. *)
Definition prepare_wipe_operation (select : DeviceInfo -> WipeMethod)
    (ops : list (string * WipeOperation)) (d : DeviceInfo)
  : list (string * WipeOperation) * WipeOperation :=
  let m := select d in
  let o := new_operation d m in
  let o := append_log ("Operation prepared for " ++ device_path d) o in
  let o := append_log ("Selected method: " ++ WipeMethod_value m) o in
  (ops_set (device_path d) o ops, o).

(** [execute_wipe(device_path)] (lines 74-128) on the registry: the
    registered object is the one the run mutates, so the registry ends
    holding the operation as the run leaves it.  The third component is
    the values the progress callbacks saw. *)
Definition execute_wipe_at (env : Env) (ops : list (string * WipeOperation)) (path : string)
  : Res bool * list (string * WipeOperation) * list Q :=
  match ops_get path ops with
  | None => (Ok false, ops, [])
  | Some o =>
      let (r, s) := run_execute_wipe env o in
      (r, ops_set path (op s) ops, notes s)
  end.

End Registry.

(* ------------------------------------------------------------------ *)
(** *** certificate_generator.py: [TamperProofLogger.get_log_summary] *)

Module LogSummary.
Import Log.

Record Summary : Type := {
  total_entries : nat;
  first_entry_timestamp : option string;
  last_entry_timestamp : option string;
  chain_hash : string;
  integrity_verified : bool
}.

(** [get_log_summary] (lines 117-125). *)
Definition get_log_summary (sha256_hex : string -> string) (log_chain : list LogEntry) : Summary :=
  {| total_entries := length log_chain;
     first_entry_timestamp :=
       match log_chain with e :: _ => Some (timestamp e) | [] => None end;
     last_entry_timestamp :=
       match rev log_chain with e :: _ => Some (timestamp e) | [] => None end;
     chain_hash := tail_hash log_chain;
     integrity_verified := verify_chain_integrity sha256_hex log_chain |}.

End LogSummary.

(* ------------------------------------------------------------------ *)
(** *** verification/: the command-line and web certificate verifiers *)

Module Verifiers.
Import Json WipeCore Detect.

(** Truthiness of a value [json.load] returns.  Number tokens are the
    ones Python writes, so the zero numbers are [0], [0.0] and [-0.0]. *)
Definition truthy (v : json) : bool :=
  match v with
  | JNull => false
  | JBool b => b
  | JNum t => negb (String.eqb t "0" || String.eqb t "0.0" || String.eqb t "-0.0")
  | JStr s => negb (String.eqb s EmptyString)
  | JArr l => match l with [] => false | _ => true end
  | JObj l => match l with [] => false | _ => true end
  end.

(** [s.replace('Z', '+00:00')]. *)
Fixpoint replace_Z (s : string) : string :=
  match s with
  | EmptyString => EmptyString
  | String c r => if Ascii.eqb c "Z" then "+00:00" ++ replace_Z r else String c (replace_Z r)
  end.

Definition required_fields : list string :=
  ["certificate_id"; "timestamp"; "device_info"; "wipe_operation"; "tool_info"; "compliance_info"].

Definition has_key (l : list (string * json)) (k : string) : bool :=
  existsb (fun kv => String.eqb (fst kv) k) l.

(** [field in v] for each kind of value; [None] is the [TypeError] of
    [in] on a number, a bool or [None]. *)
Definition json_in (field : string) (v : json) : option bool :=
  match v with
  | JObj l => Some (has_key l field)
  | JArr l => Some (existsb (fun x => match x with JStr s => String.eqb s field | _ => false end) l)
  | JStr s => Some (contains field s)
  | _ => None
  end.

(** The [missing_fields] loop; [None] when [in] raises. *)
Fixpoint missing_fields (v : json) (fields : list string) : option (list string) :=
  match fields with
  | [] => Some []
  | f :: rest =>
      match json_in f v with
      | None => None
      | Some present =>
          match missing_fields v rest with
          | Some m => Some (if present then m else f :: m)
          | None => None
          end
      end
  end.

(** What reading the certificate file gives: the value [json.load]
    returns, a [JSONDecodeError], a [FileNotFoundError], or another
    exception. *)
Inductive CertFile : Type :=
| Loaded (v : json)
| BadJson
| FileMissing
| ReadError (msg : string).

(** The results [verify_certificate_simple] returns.  [CliError] is its
    last [except]: an [AttributeError] or [TypeError] raised on a
    document or timestamp of the wrong type, or a read error. *)
Inductive CliVerdict : Type :=
| CliValid (certificate_id timestamp device_info wipe_operation tool_info compliance_info : json)
| CliMissing (fields : list string)
| CliBadTimestamp
| CliNoSignature
| CliInvalidJson
| CliNotFound
| CliError.

Definition cli_valid (v : CliVerdict) : bool :=
  match v with CliValid _ _ _ _ _ _ => true | _ => false end.

Section Cli.

(** Whether [datetime.fromisoformat] accepts a string. *)
Variable fromisoformat_ok : string -> bool.

(** [verify_certificate_simple] (verification/cli_verifier.py, lines 24-93);
    its [public_key_path] is never read. *)
Definition verify_certificate_simple (f : CertFile) : CliVerdict :=
  match f with
  | BadJson => CliInvalidJson
  | FileMissing => CliNotFound
  | ReadError _ => CliError
  | Loaded cert_data =>
      match missing_fields cert_data required_fields with
      | None => CliError
      | Some (_ :: _ as m) => CliMissing m
      | Some [] =>
          match cert_data with
          | JObj l =>
              match jget_default l "timestamp" (JStr EmptyString) with
              | JStr t =>
                  if fromisoformat_ok (replace_Z t) then
                    if truthy (jget_default l "signature" (JStr EmptyString)) then
                      CliValid (jget_default l "certificate_id" JNull) (jget_default l "timestamp" JNull)
                        (jget_default l "device_info" (JObj [])) (jget_default l "wipe_operation" (JObj []))
                        (jget_default l "tool_info" (JObj [])) (jget_default l "compliance_info" (JObj []))
                    else CliNoSignature
                  else CliBadTimestamp
              | _ => CliError
              end
          | _ => CliError
          end
      end
  end.

End Cli.

(** Why [CertificateVerifier.verify_certificate] gives up early. *)
Inductive WebReject : Type :=
| NoSignature
| NoPublicKey
| SignatureError
| VerificationError.

Inductive WebVerdict : Type :=
| WebRejected (why : WebReject)
| WebChecked (signature_valid structure_valid : bool) (errors : list string).

(** The [valid] entry of the result. *)
Definition web_valid (v : WebVerdict) : bool :=
  match v with WebChecked s t _ => s && t | WebRejected _ => false end.

Section Web.
Variables (PubKey Sig : Type).
Variable ecdsa_verify : PubKey -> string -> Sig -> bool.
Variable b64decode : string -> option Sig.
Variable fromisoformat_ok : string -> bool.

(** [_validate_certificate_structure] (verification/web_verifier.py,
    lines 91-124) on a dict; [None] is an [AttributeError] it lets
    through (a timestamp that is not a string, a [wipe_operation] or
    [device_info] that is not a dict). *)
Definition validate_certificate_structure (l : list (string * json)) : option (list string) :=
  let e1 := flat_map (fun f => if has_key l f then [] else ["Missing required field: " ++ f])
              required_fields in
  match jget_default l "timestamp" (JStr EmptyString) with
  | JStr t =>
      let e2 := if fromisoformat_ok (replace_Z t) then [] else ["Invalid timestamp format"] in
      match jget_default l "wipe_operation" (JObj []) with
      | JObj w =>
          let e3 := match jget w "status" with
                    | Some (JStr s) =>
                        if String.eqb s "completed" || String.eqb s "failed" then []
                        else ["Invalid wipe operation status"]
                    | _ => ["Invalid wipe operation status"]
                    end in
          match jget_default l "device_info" (JObj []) with
          | JObj d =>
              let e4 := if truthy (jget_default d "device_type" JNull) then []
                        else ["Missing device type information"] in
              Some (e1 ++ e2 ++ e3 ++ e4)%list
          | _ => None
          end
      | _ => None
      end
  | _ => None
  end.

(** [CertificateVerifier.verify_certificate] (lines 39-89) on the value
    the request carries; [public_key] is [self.public_key]. *)
Definition web_verify_certificate (public_key : option PubKey) (certificate_data : json)
  : WebVerdict :=
  match certificate_data with
  | JObj l =>
      let signature := jget_default l "signature" (JStr EmptyString) in
      if negb (truthy signature) then WebRejected NoSignature
      else
        match dict_pop "signature" JNull certificate_data with
        | None => WebRejected VerificationError
        | Some (_, c1) =>
            match dict_pop "blockchain_anchor" JNull c1 with
            | None => WebRejected VerificationError
            | Some (_, cert_copy) =>
                let canonical := dumps cert_copy in
                match public_key with
                | None => WebRejected NoPublicKey
                | Some pk =>
                    match signature with
                    | JStr s =>
                        match b64decode s with
                        | None => WebRejected SignatureError
                        | Some sg =>
                            let signature_valid := ecdsa_verify pk canonical sg in
                            match validate_certificate_structure l with
                            | Some errors =>
                                WebChecked signature_valid
                                  (match errors with [] => true | _ => false end) errors
                            | None => WebRejected VerificationError
                            end
                        end
                    | _ => WebRejected SignatureError
                    end
                end
            end
        end
  | _ => WebRejected VerificationError
  end.

End Web.

Arguments web_verify_certificate {PubKey Sig} ecdsa_verify b64decode fromisoformat_ok public_key certificate_data.

End Verifiers.

(* ------------------------------------------------------------------ *)
(** *** Concrete inputs *)

Module Examples.

(** A 500 GB SATA disk without ATA secure erase, unencrypted. *)
Definition hdd_plain : DeviceInfo :=
  {| device_path := "/dev/sdb"; device_type := HDD; model := "WDC WD5000AAKX";
     serial := "WD-WCC2E1234567"; size_gb := PFloat 500; interface := "SATA";
     encryption_status := "None"; hpa_dco_present := false;
     secure_erase_supported := false |}.

(** A finished operation on it. *)
Definition op_done : WipeCore.WipeOperation :=
  {| WipeCore.device_info := hdd_plain; WipeCore.method := MULTIPASS_OVERWRITE;
     WipeCore.start_time := Some 1700000000; WipeCore.end_time := Some 1700003600;
     WipeCore.status := WipeCore.COMPLETED; WipeCore.progress := 100;
     WipeCore.error_message := None; WipeCore.operation_log := [];
     WipeCore.verification_hashes := [] |}.

(** Stand-ins for the primitives: the identity for SHA-256, one fixed
    token for every number, and a signature scheme whose signature is the
    message itself, with base64 the identity. *)
Definition id_hash (s : string) : string := s.
Definition zero_repr (x : PyNum) : string := "0".
Definition toy_public_key (k : unit) : unit := k.
Definition toy_sign (k : unit) (nonce : nat) (m : string) : string := m.
Definition toy_verify (pk : unit) (m sg : string) : bool := String.eqb m sg.
Definition toy_b64encode (sg : string) : string := sg.
Definition toy_b64decode (s : string) : option string := Some s.

(** A certificate as the builder prepares it, and one whose [timestamp]
    was edited afterwards. *)
Definition cert_example : Cert.CertificateData :=
  Cert.prepare_certificate_data id_hash zero_repr "3f2a9c1e-0b7d-4c55-9e61-2d8f0a4b7c13"
    "2025-03-01T12:00:00+00:00" "9a1b2c3d4e5f6a7b" op_done [].

Definition edit_timestamp (c : Cert.CertificateData) (t : string) : Cert.CertificateData :=
  {| Cert.certificate_id := Cert.certificate_id c; Cert.timestamp := t;
     Cert.device_info := Cert.device_info c; Cert.wipe_operation := Cert.wipe_operation c;
     Cert.verification_hashes := Cert.verification_hashes c;
     Cert.operation_log := Cert.operation_log c; Cert.tool_info := Cert.tool_info c;
     Cert.compliance_info := Cert.compliance_info c; Cert.signature := Cert.signature c;
     Cert.blockchain_anchor := Cert.blockchain_anchor c |}.

(** Two [add_entry] calls. *)
Definition log_calls : list Log.Append :=
  [ {| Log.a_ts := "1700000000.25"; Log.a_eid := "0b6f6d1e-2c1a-4e0b-a8f5-5b1f7c2d9e31";
       Log.a_msg := "Certificate generator initialized"; Log.a_lvl := "INFO" |};
    {| Log.a_ts := "1700000001.5"; Log.a_eid := "5d8e3a7c-9f40-4b2d-b1c6-0e7a4f2d8c95";
       Log.a_msg := "Starting certificate generation for /dev/sdb"; Log.a_lvl := "INFO" |} ].

(** A fitted [method_selector] that predicts class 0 for every sample:
    the forest [initialize_fallback_models] fits on random labels predicts
    some class in [0, 7) for each sample, and any class is possible. *)
Definition forest_class0 : Predictor := fun _ => Some 0%Z.

(** A depth-one tree on the device-type hash feature. *)
Definition stump_on_type_hash : Predictor :=
  fun xs => match xs with
            | PInt z :: _ => Some (if (z <? 5)%Z then 0%Z else 3%Z)
            | _ => None
            end.

(** Two salts of [str.__hash__] (one per process, [PYTHONHASHSEED]). *)
Definition hash_salt_a (s : string) : Z := 2%Z.
Definition hash_salt_b (s : string) : Z := 7%Z.

End Examples.

(** Devices, operations and hosts for the executor. *)
Module WipeExamples.
Import WipeCore.

(** A 0.5 GB USB stick, as [detect_devices] reports sizes: a float. *)
Definition small_stick : DeviceInfo :=
  {| device_path := "/dev/sdc"; device_type := USB; model := "SanDisk Cruzer";
     serial := "4C530001230809117284"; size_gb := PFloat (1 # 2); interface := "USB";
     encryption_status := "None"; hpa_dco_present := false;
     secure_erase_supported := false |}.

(** The same 500 GB disk with an integer size. *)
Definition hdd_int : DeviceInfo :=
  {| device_path := "/dev/sdb"; device_type := HDD; model := "WDC WD5000AAKX";
     serial := "WD-WCC2E1234567"; size_gb := PInt 500; interface := "SATA";
     encryption_status := "None"; hpa_dco_present := false;
     secure_erase_supported := true |}.

(** [WipeOperation(device_info=d, method=m)]. *)
Definition fresh_op (d : DeviceInfo) (m : WipeMethod) : WipeOperation :=
  {| device_info := d; method := m; start_time := None; end_time := None;
     status := NOT_STARTED; progress := 0; error_message := None;
     operation_log := []; verification_hashes := [] |}.

(** The SHA-256 of one MiB of zeros. *)
Definition zero_mib_sha : string :=
  "30e14955ebf1352266dc2ff8067e68104607e750abb9d3b36582b8af909fcb58".

(** A host where every command exits 0, the device is present and not
    mounted, [dd] is monitored [rounds] times, the device is 1 MiB long
    and reads back zeros; [raises] is what the pre-wipe checks raise and
    [answer] overrides the commands. *)
Definition mk_env (raises : option PyExc) (answer : Cmd -> RunResult) (rounds : nat) : Env :=
  {| clock_start := 1700000000; clock_end := 1700000600;
     path_exists := true; is_mounted := false; unmount_ok := true; hpa_removed := true;
     pre_check_raises := raises;
     pre_sample := inr zero_mib_sha; post_sample := inr zero_mib_sha;
     run := answer; polls := fun _ => [];
     dd_monitor_rounds := rounds; device_size := 1048576; overwrite_ok := true;
     read_sector := fun _ => Some (repeat 0%Z 512) |}.

Definition all_ok : Cmd -> RunResult := fun _ => Exit 0 EmptyString.

(** [hdparm --security-erase] refused by the drive. *)
Definition erase_unsupported : Cmd -> RunResult :=
  fun c => match c with
           | HdparmErase => Exit 5 "SECURITY ERASE command not supported by device"
           | _ => Exit 0 EmptyString
           end.

Definition env_ok : Env := mk_env None all_ok 1.
Definition env_ata_unsupported : Env := mk_env None erase_unsupported 0.
Definition env_raises (msg : string) : Env := mk_env (Some (OtherError msg)) all_ok 0.

End WipeExamples.

Module DetectExamples.
Import Json WipeCore Detect Helpers.

(** The value of a [Some]. *)
Definition from_some {A} (o : option A) : match o with Some _ => A | None => unit end :=
  match o as o' return match o' with Some _ => A | None => unit end with
  | Some a => a
  | None => tt
  end.

(** [f"{v}"] of a list or a dict, for the examples only. *)
Definition container_repr (v : json) : string := "[...]".

Definition nl : string := String newline EmptyString.

(** The [lsblk -J] entries of a SATA disk and of a DVD drive. *)
Definition sda_entry : list (string * json) :=
  [("name", JStr "sda"); ("size", JStr "465.8G"); ("type", JStr "disk");
   ("model", JStr "Samsung SSD 860"); ("serial", JStr "S3Z9NB0K123456"); ("tran", JStr "sata")].

Definition sr0_entry : list (string * json) :=
  [("name", JStr "sr0"); ("size", JStr "1024M"); ("type", JStr "rom");
   ("model", JStr "DVD-RW"); ("serial", JStr "KZ7F"); ("tran", JStr "sata")].

Definition lsblk_doc : json := JObj [("blockdevices", JArr [JObj sda_entry; JObj sr0_entry])].

Definition smart_report : string :=
  "=== START OF INFORMATION SECTION ===" ++ nl ++ "Rotation Rate:    7200 rpm" ++ nl ++
  "SMART overall-health self-assessment test result: PASSED".

Definition hdparm_n_report : string :=
  " max sectors   = 976773168/976773168, HPA is disabled".

Definition mount_report : string :=
  "/dev/sda1 on /media/bitlocker-backup type fuseblk (rw,nosuid,nodev)".

(** A host whose disk is not LUKS but has a partition mounted under a
    path naming BitLocker; every tool runs. *)
Definition bitlocker_host : Host :=
  {| lsblk_json := Some lsblk_doc;
     smartctl_a := fun _ => Ran 0 smart_report;
     hdparm_I := fun _ => Ran 0 "Security: supported, not enabled";
     nvme_id_ctrl := fun _ => NotRun "No such file or directory: 'nvme'";
     cryptsetup_isLuks := fun _ => Ran 1 EmptyString;
     mount_table := Ran 0 mount_report;
     hdparm_N := fun _ => Ran 0 hdparm_n_report |}.

(** A host without [smartctl], [hdparm], [nvme] or [cryptsetup]. *)
Definition bare_host : Host :=
  {| lsblk_json := Some lsblk_doc;
     smartctl_a := fun _ => NotRun "No such file or directory: 'smartctl'";
     hdparm_I := fun _ => NotRun "No such file or directory: 'hdparm'";
     nvme_id_ctrl := fun _ => NotRun "No such file or directory: 'nvme'";
     cryptsetup_isLuks := fun _ => NotRun "No such file or directory: 'cryptsetup'";
     mount_table := NotRun "No such file or directory: 'mount'";
     hdparm_N := fun _ => NotRun "No such file or directory: 'hdparm'" |}.

Definition sda_detected : Detected :=
  Eval vm_compute in from_some (analyze_device bitlocker_host None container_repr sda_entry).

Definition sda_info : DeviceInfo := Eval vm_compute in from_some (to_device_info sda_detected).

(** What [lsblk -ln -o NAME /dev/sda] prints. *)
Definition lsblk_ln_out : string := "sda" ++ nl ++ "sda1" ++ nl.

(** [umount] refusing every path. *)
Definition umount_refuses (p : string) : ToolRun := Ran 32 ("umount: " ++ p ++ ": not mounted.").

(** [WipeExamples.env_ok] with the device mounted. *)
Definition env_mounted : Env :=
  {| clock_start := 1700000000; clock_end := 1700000600;
     path_exists := true; is_mounted := true; unmount_ok := true; hpa_removed := true;
     pre_check_raises := None;
     pre_sample := inr WipeExamples.zero_mib_sha; post_sample := inr WipeExamples.zero_mib_sha;
     run := WipeExamples.all_ok; polls := fun _ => [];
     dd_monitor_rounds := 0; device_size := 1048576; overwrite_ok := true;
     read_sector := fun _ => Some (repeat 0%Z 512) |}.

(** A registry holding two operations. *)
Definition two_ops : list (string * WipeOperation) :=
  [("/dev/sdb", WipeExamples.fresh_op Examples.hdd_plain MULTIPASS_OVERWRITE);
   ("/dev/sdc", WipeExamples.fresh_op WipeExamples.small_stick SINGLE_PASS_RANDOM)].

(** A base64 stand-in that never encodes to the empty string. *)
Definition tagged_b64encode (sg : string) : string := "b64:" ++ sg.

Definition tagged_b64decode (s : string) : option string :=
  match s with
  | String "b" (String "6" (String "4" (String ":" r))) => Some r
  | _ => None
  end.

End DetectExamples.

(* ================================================================== *)
(** ** Part II: lemmas and theorems *)
(* ================================================================== *)

Module JsonFacts.
Import Json.

Lemma sapp_assoc : forall a b c : string, ((a ++ b) ++ c)%string = (a ++ (b ++ c))%string.
Proof. induction a as [|x a IH]; intros; simpl; [reflexivity | now rewrite IH]. Qed.

Ltac sapp_norm := repeat (first [rewrite sapp_assoc | progress (cbn [append])]).

Lemma sapp_nil_r : forall a : string, (a ++ EmptyString)%string = a.
Proof. induction a as [|x a IH]; simpl; [reflexivity | now rewrite IH]. Qed.

(** The decoder reads back each escaped character. *)
Lemma parse_escape_char : forall c t,
  parse_string (escape_char c ++ t) = cons_res c (parse_string t).
Proof. intros [[] [] [] [] [] [] [] []] t; reflexivity. Qed.

Lemma parse_escape_str : forall s t,
  parse_string (escape_str s ++ String quote t) = Some (s, t).
Proof.
  induction s as [|c s IH]; intros t.
  - reflexivity.
  - cbn [escape_str]. rewrite sapp_assoc, parse_escape_char, IH. reflexivity.
Qed.

Lemma span_num_app : forall tok rest,
  forallb is_num_char (list_ascii_of_string tok) = true ->
  match rest with EmptyString => True | String c _ => is_num_char c = false end ->
  span_num (tok ++ rest) = (tok, rest).
Proof.
  induction tok as [|c tok IH]; intros rest H1 H2; cbn [append span_num list_ascii_of_string forallb] in *.
  - destruct rest as [|c r]; [reflexivity|]. cbn [span_num]. now rewrite H2.
  - apply andb_prop in H1 as [Ha Ht]. rewrite Ha, IH; auto.
Qed.

Lemma stop_not_num : forall rest, stop rest = true ->
  match rest with EmptyString => True | String c _ => is_num_char c = false end.
Proof.
  intros [|c r] H; [exact I|]. cbn [stop] in H.
  apply orb_true_iff in H as [H|H]; [apply orb_true_iff in H as [H|H]|];
    apply Ascii.eqb_eq in H; subst; reflexivity.
Qed.

Lemma num_start_facts : forall c, is_num_start c = true ->
  (Ascii.eqb c "n" || Ascii.eqb c "t" || Ascii.eqb c "f" || Ascii.eqb c quote
   || Ascii.eqb c "[" || Ascii.eqb c "{" || Ascii.eqb c "]") = false.
Proof.
  intros [[] [] [] [] [] [] [] []] H; vm_compute in H; try discriminate H; reflexivity.
Qed.

Lemma ser_first : forall v, json_wf v = true ->
  exists c r, ser v = String c r /\ Ascii.eqb c "]" = false.
Proof.
  intros v H. destruct v as [| [] | t | s | [|x xs] | [|[k x] xs]];
    try (eexists; eexists; split; [reflexivity|reflexivity]).
  destruct t as [|c r]; [discriminate|]. exists c, r. split; [reflexivity|].
  cbn in H. apply andb_prop in H as [H _]. apply num_start_facts in H.
  repeat rewrite orb_false_iff in H. tauto.
Qed.

Lemma ser_JArr_cons : forall x xs,
  ser (JArr (x :: xs)) = String "[" (ser x ++ ser_arr_tail xs).
Proof. reflexivity. Qed.

Lemma ser_JObj_cons : forall k x xs,
  ser (JObj ((k, x) :: xs)) = String "{" (ser_str k ++ String ":" (ser x ++ ser_obj_tail xs)).
Proof. reflexivity. Qed.

Lemma ser_arr_tail_cons : forall y ys,
  ser_arr_tail (y :: ys) = String "," (ser y ++ ser_arr_tail ys).
Proof. reflexivity. Qed.

Lemma ser_obj_tail_cons : forall k y ys,
  ser_obj_tail ((k, y) :: ys) = String "," (ser_str k ++ String ":" (ser y ++ ser_obj_tail ys)).
Proof. reflexivity. Qed.

Lemma jsize_JArr : forall l, jsize (JArr l) = (3 + arr_size l)%nat.
Proof. reflexivity. Qed.

Lemma jsize_JObj : forall l, jsize (JObj l) = (3 + obj_size l)%nat.
Proof. reflexivity. Qed.

Lemma arr_size_cons : forall y ys, arr_size (y :: ys) = (3 + jsize y + arr_size ys)%nat.
Proof. reflexivity. Qed.

Lemma obj_size_cons : forall k y ys, obj_size ((k, y) :: ys) = (3 + jsize y + obj_size ys)%nat.
Proof. reflexivity. Qed.

Lemma stop_arr_tail : forall xs rest, stop (ser_arr_tail xs ++ rest) = true.
Proof. intros [|y ys] rest; reflexivity. Qed.

Lemma stop_obj_tail : forall xs rest, stop (ser_obj_tail xs ++ rest) = true.
Proof. intros [|[k y] ys] rest; reflexivity. Qed.

(** The round-trip property of one value, with enough fuel. *)
Definition RT (v : json) : Prop :=
  json_wf v = true -> forall n rest, (jsize v < n)%nat -> stop rest = true ->
  parse_value n (ser v ++ rest) = Some (v, rest).

Lemma parse_member_ser : forall k x T n,
  parse_value n (ser x ++ T) = Some (x, T) ->
  parse_member (S n) (ser_str k ++ String ":" (ser x ++ T)) = Some ((k, x), T).
Proof.
  intros k x T n H. unfold ser_str. cbn [append]. rewrite sapp_assoc. cbn [append].
  cbn [parse_member]. replace (Ascii.eqb quote quote) with true by reflexivity.
  rewrite parse_escape_str. cbn -[parse_value]. now rewrite H.
Qed.

Lemma arr_tail_rt : forall xs, Forall RT xs -> forallb json_wf xs = true ->
  forall m rest, (arr_size xs < m)%nat -> stop rest = true ->
  parse_arr_tail m (ser_arr_tail xs ++ rest) = Some (xs, rest).
Proof.
  induction xs as [|y ys IH]; intros F W m rest Hm Hs; (destruct m as [|m]; [lia|]).
  - reflexivity.
  - inversion F as [|? ? Fy Fys]; subst. cbn [forallb] in W. apply andb_prop in W as [Wy Wys].
    rewrite arr_size_cons in Hm.
    rewrite ser_arr_tail_cons. cbn [append]. rewrite sapp_assoc. cbn [parse_arr_tail].
    rewrite (Fy Wy m); [| lia | apply stop_arr_tail].
    rewrite (IH Fys Wys m); [reflexivity | lia | exact Hs].
Qed.

Lemma obj_tail_rt : forall xs, Forall (fun kv => RT (snd kv)) xs ->
  forallb (fun kv => json_wf (snd kv)) xs = true ->
  forall m rest, (obj_size xs < m)%nat -> stop rest = true ->
  parse_obj_tail m (ser_obj_tail xs ++ rest) = Some (xs, rest).
Proof.
  induction xs as [|[k y] ys IH]; intros F W m rest Hm Hs; (destruct m as [|m]; [lia|]).
  - reflexivity.
  - inversion F as [|? ? Fy Fys]; subst. cbn [forallb snd] in W. apply andb_prop in W as [Wy Wys].
    rewrite obj_size_cons in Hm. cbn [snd] in Fy.
    rewrite ser_obj_tail_cons. sapp_norm. cbn [parse_obj_tail].
    destruct m as [|m]; [lia|].
    rewrite (parse_member_ser k y (ser_obj_tail ys ++ rest) m);
      [| apply Fy; [exact Wy | lia | apply stop_obj_tail]].
    rewrite (IH Fys Wys (S m)); [reflexivity | lia | exact Hs].
Qed.

Lemma parse_ser : forall v, RT v.
Proof.
  induction v as [| b | t | s | l IHl | l IHl] using json_rect';
    intros Hwf n rest Hn Hs; (destruct n as [|n]; [cbn in Hn; lia|]).
  - reflexivity.
  - destruct b; reflexivity.
  - destruct t as [|c r]; [discriminate|]. cbn [json_wf num_token_ok] in Hwf. apply andb_prop in Hwf as [Hc Hr].
    pose proof (num_start_facts c Hc) as F. repeat rewrite orb_false_iff in F.
    destruct F as [[[[[[F1 F2] F3] F4] F5] F6] _].
    cbn [ser append parse_value]. rewrite F1, F2, F3, F4, F5, F6, Hc.
    change (String c (r ++ rest)) with (String c r ++ rest)%string.
    rewrite span_num_app; [reflexivity | exact Hr | apply stop_not_num, Hs].
  - cbn [ser]. unfold ser_str. sapp_norm. cbn [parse_value].
    replace (Ascii.eqb quote "n") with false by reflexivity.
    replace (Ascii.eqb quote "t") with false by reflexivity.
    replace (Ascii.eqb quote "f") with false by reflexivity.
    replace (Ascii.eqb quote quote) with true by reflexivity.
    rewrite parse_escape_str. reflexivity.
  - destruct l as [|x xs]; [reflexivity|].
    inversion IHl as [|? ? Fx Fxs]; subst. cbn [json_wf forallb] in Hwf.
    apply andb_prop in Hwf as [Wx Wxs].
    rewrite jsize_JArr, arr_size_cons in Hn.
    rewrite ser_JArr_cons. cbn [append]. rewrite sapp_assoc.
    cbn [parse_value].
    replace (Ascii.eqb "[" "n") with false by reflexivity.
    replace (Ascii.eqb "[" "t") with false by reflexivity.
    replace (Ascii.eqb "[" "f") with false by reflexivity.
    replace (Ascii.eqb "[" quote) with false by reflexivity.
    replace (Ascii.eqb "[" "[") with true by reflexivity.
    rewrite (Fx Wx n); [| lia | apply stop_arr_tail].
    rewrite (arr_tail_rt xs Fxs Wxs n); [| lia | exact Hs].
    destruct (ser_first x Wx) as (c & r & Ex & Ec). rewrite Ex. cbn [append].
    rewrite Ec. reflexivity.
  - destruct l as [|[k x] xs]; [reflexivity|].
    inversion IHl as [|? ? Fx Fxs]; subst. cbn [json_wf forallb snd] in Hwf.
    apply andb_prop in Hwf as [Wx Wxs]. cbn [snd] in Fx.
    rewrite jsize_JObj, obj_size_cons in Hn.
    rewrite ser_JObj_cons. sapp_norm.
    cbn [parse_value].
    replace (Ascii.eqb "{" "n") with false by reflexivity.
    replace (Ascii.eqb "{" "t") with false by reflexivity.
    replace (Ascii.eqb "{" "f") with false by reflexivity.
    replace (Ascii.eqb "{" quote) with false by reflexivity.
    replace (Ascii.eqb "{" "[") with false by reflexivity.
    replace (Ascii.eqb "{" "{") with true by reflexivity.
    destruct n as [|n]; [lia|].
    rewrite (parse_member_ser k x (ser_obj_tail xs ++ rest) n);
      [| apply Fx; [exact Wx | lia | apply stop_obj_tail]].
    rewrite (obj_tail_rt xs Fxs Wxs (S n)); [| lia | exact Hs].
    unfold ser_str. reflexivity.
Qed.

Lemma forallb_insert_item : forall (f : string * json -> bool) kv l,
  forallb f (insert_item kv l) = f kv && forallb f l.
Proof.
  intros f kv l. induction l as [|kv' l IH]; cbn [insert_item forallb]; [reflexivity|].
  destruct (String.ltb (fst kv) (fst kv')); cbn [forallb]; [reflexivity|].
  rewrite IH. destruct (f kv), (f kv'); reflexivity.
Qed.

Lemma forallb_sort_items : forall (f : string * json -> bool) l,
  forallb f (sort_items l) = forallb f l.
Proof.
  intros f l. induction l as [|kv l IH]; cbn [sort_items forallb]; [reflexivity|].
  now rewrite forallb_insert_item, IH.
Qed.

Lemma sort_keys_wf : forall v, json_wf v = true -> json_wf (sort_keys v) = true.
Proof.
  induction v as [| b | t | s | l IHl | l IHl] using json_rect'; intros H; try exact H.
  - cbn [sort_keys json_wf] in *. induction IHl as [|x xs Hx Hxs IH]; [reflexivity|].
    cbn [map forallb] in *. apply andb_prop in H as [H1 H2]. rewrite Hx, IH; auto.
  - cbn [sort_keys json_wf] in *. rewrite forallb_sort_items.
    induction IHl as [|[k x] xs Hx Hxs IH]; [reflexivity|].
    cbn [map forallb fst snd] in *. apply andb_prop in H as [H1 H2]. rewrite Hx, IH; auto.
Qed.

(** [dumps] loses nothing on well-formed values: equal canonical texts
    come from values equal up to key order. *)
Lemma dumps_inj : forall v1 v2, json_wf v1 = true -> json_wf v2 = true ->
  dumps v1 = dumps v2 -> sort_keys v1 = sort_keys v2.
Proof.
  intros v1 v2 W1 W2 E.
  set (n := S (jsize (sort_keys v1) + jsize (sort_keys v2))).
  assert (P1 : parse_value n (dumps v1 ++ EmptyString) = Some (sort_keys v1, EmptyString)).
  { unfold dumps. apply parse_ser; [apply sort_keys_wf; exact W1 | unfold n; lia | reflexivity]. }
  assert (P2 : parse_value n (dumps v2 ++ EmptyString) = Some (sort_keys v2, EmptyString)).
  { unfold dumps. apply parse_ser; [apply sort_keys_wf; exact W2 | unfold n; lia | reflexivity]. }
  rewrite E, P2 in P1. congruence.
Qed.

(** A string literal is read back whatever follows it. *)
Lemma ser_str_app_inj : forall a b r1 r2,
  (ser_str a ++ r1)%string = (ser_str b ++ r2)%string -> a = b /\ r1 = r2.
Proof.
  intros a b r1 r2 E. unfold ser_str in E. cbn [append] in E.
  injection E as E. rewrite !sapp_assoc in E. cbn [append] in E.
  pose proof (parse_escape_str a r1) as Pa. pose proof (parse_escape_str b r2) as Pb.
  rewrite E, Pb in Pa. injection Pa as <- <-. split; reflexivity.
Qed.

Lemma sapp_inv_head : forall a x y : string, (a ++ x)%string = (a ++ y)%string -> x = y.
Proof. induction a as [|c a IH]; intros x y E; [exact E|]. injection E as E. exact (IH _ _ E). Qed.

(** Two dict texts that agree on their first item agree on the rest. *)
Lemma ser_obj_tail_cons_inj : forall k v r1 r2 t1 t2,
  (ser_obj_tail ((k, v) :: r1) ++ t1)%string = (ser_obj_tail ((k, v) :: r2) ++ t2)%string ->
  (ser_obj_tail r1 ++ t1)%string = (ser_obj_tail r2 ++ t2)%string.
Proof.
  intros k v r1 r2 t1 t2 E. rewrite !ser_obj_tail_cons in E. cbn [append] in E.
  injection E as E. rewrite !sapp_assoc in E. apply sapp_inv_head in E.
  cbn [append] in E. injection E as E. rewrite !sapp_assoc in E. exact (sapp_inv_head _ _ _ E).
Qed.

End JsonFacts.

Module CertFacts.
Import Json JsonFacts Cert.

Lemma canonical_json_signed : forall c,
  canonical_json c = Some (dumps (JObj (signed_items c))).
Proof. reflexivity. Qed.

Lemma signed_items_set_signature : forall c s,
  signed_items (set_signature c s) = signed_items c.
Proof. reflexivity. Qed.

Lemma signature_set_signature : forall c s, signature (set_signature c s) = s.
Proof. reflexivity. Qed.

Lemma sort_signed_items : forall c,
  sort_keys (JObj (signed_items c)) =
  JObj [("certificate_id", JStr (certificate_id c));
        ("compliance_info", sort_keys (compliance_info c));
        ("device_info", sort_keys (device_info c));
        ("operation_log", sort_keys (operation_log c));
        ("timestamp", JStr (timestamp c));
        ("tool_info", sort_keys (tool_info c));
        ("verification_hashes", sort_keys (verification_hashes c));
        ("wipe_operation", sort_keys (wipe_operation c))].
Proof. reflexivity. Qed.

Section Signed.
Variables (PrivKey PubKey Sig : Type).
Variable public_key : PrivKey -> PubKey.
Variable ecdsa_sign : PrivKey -> nat -> string -> Sig.
Variable ecdsa_verify : PubKey -> string -> Sig -> bool.
Variable b64encode : Sig -> string.
Variable b64decode : string -> option Sig.

Lemma verify_certificate_asdict : forall pk c,
  verify_certificate ecdsa_verify b64decode pk (asdict c) =
  verify_signature ecdsa_verify b64decode pk (dumps (JObj (signed_items c))) (JStr (signature c)).
Proof. reflexivity. Qed.

Hypothesis b64_roundtrip : forall sg, b64decode (b64encode sg) = Some sg.
Hypothesis ecdsa_correct : forall k nonce m,
  ecdsa_verify (public_key k) m (ecdsa_sign k nonce m) = true.
Hypothesis ecdsa_binding : forall k nonce m m',
  ecdsa_verify (public_key k) m' (ecdsa_sign k nonce m) = true -> m' = m.

(** C1.  A certificate the builder signs with key [k] verifies under the
    public key of [k] once the signature is stored in it; and a
    certificate carrying that signature whose signed fields (all fields but
    [signature] and [blockchain_anchor]) differ from the signed ones, as
    dicts, fails verification.  ECDSA is taken to be correct and binding
    (a signature by [k] verifies for no other message), base64 decodes
    what it encodes, and the number tokens are ones Python writes. *)
Theorem certificate_signature_roundtrip : forall k nonce c s,
  sign_certificate ecdsa_sign b64encode k nonce c = Some s ->
  verify_certificate ecdsa_verify b64decode (public_key k) (asdict (set_signature c s)) = true /\
  (forall c', signature c' = s ->
     json_wf (JObj (signed_items c)) = true ->
     json_wf (JObj (signed_items c')) = true ->
     sort_keys (JObj (signed_items c')) <> sort_keys (JObj (signed_items c)) ->
     verify_certificate ecdsa_verify b64decode (public_key k) (asdict c') = false).
Proof.
  intros k nonce c s Hs.
  unfold sign_certificate in Hs. rewrite canonical_json_signed in Hs.
  injection Hs as <-. unfold sign_data. split.
  - rewrite verify_certificate_asdict, signed_items_set_signature, signature_set_signature.
    cbn [verify_signature]. rewrite b64_roundtrip. apply ecdsa_correct.
  - intros c' Hsig W W' Hdiff. rewrite verify_certificate_asdict, Hsig.
    cbn [verify_signature]. rewrite b64_roundtrip.
    destruct (ecdsa_verify (public_key k) (dumps (JObj (signed_items c')))
                (ecdsa_sign k nonce (dumps (JObj (signed_items c))))) eqn:V; [|reflexivity].
    apply ecdsa_binding in V. apply dumps_inj in V; [|exact W'|exact W].
    contradiction.
Qed.

End Signed.

End CertFacts.

Module CertWitness.
Import Json Cert Examples.

Lemma toy_b64_roundtrip : forall sg, toy_b64decode (toy_b64encode sg) = Some sg.
Proof. reflexivity. Qed.

Lemma toy_correct : forall k nonce m,
  toy_verify (toy_public_key k) m (toy_sign k nonce m) = true.
Proof. intros. apply String.eqb_refl. Qed.

Lemma toy_binding : forall k nonce m m',
  toy_verify (toy_public_key k) m' (toy_sign k nonce m) = true -> m' = m.
Proof. intros k nonce m m' H. now apply String.eqb_eq in H. Qed.

Lemma certificate_signature_roundtrip_witness :
  exists s, sign_certificate toy_sign toy_b64encode tt 0 cert_example = Some s /\
    verify_certificate toy_verify toy_b64decode (toy_public_key tt)
      (asdict (set_signature cert_example s)) = true /\
    verify_certificate toy_verify toy_b64decode (toy_public_key tt)
      (asdict (edit_timestamp (set_signature cert_example s) "2025-03-02T12:00:00+00:00")) = false.
Proof.
  eexists. split; [reflexivity|].
  pose proof (CertFacts.certificate_signature_roundtrip unit unit string toy_public_key
                toy_sign toy_verify toy_b64encode toy_b64decode
                toy_b64_roundtrip toy_correct toy_binding tt 0 cert_example _ eq_refl) as [H1 H2].
  split; [exact H1|].
  apply H2; [reflexivity | vm_compute; reflexivity | vm_compute; reflexivity |].
  vm_compute. discriminate.
Defined.

End CertWitness.

Module CanonFacts.
Import Json JsonFacts Cert.

Lemma dumps_cons_head : forall k v1 v2 r1 r2,
  ser (JObj ((k, v1) :: r1)) = ser (JObj ((k, v2) :: r2)) ->
  (ser v1 ++ ser_obj_tail r1)%string = (ser v2 ++ ser_obj_tail r2)%string.
Proof.
  intros k v1 v2 r1 r2 E. rewrite !ser_JObj_cons in E. injection E as E.
  apply sapp_inv_head in E. injection E as E. exact E.
Qed.

Lemma obj_tail_str_inj : forall k a b r1 r2 t1 t2,
  (ser_obj_tail ((k, JStr a) :: r1) ++ t1)%string = (ser_obj_tail ((k, JStr b) :: r2) ++ t2)%string ->
  a = b.
Proof.
  intros k a b r1 r2 t1 t2 E. rewrite !ser_obj_tail_cons in E. cbn [append] in E.
  injection E as E. rewrite !sapp_assoc in E. apply sapp_inv_head in E.
  cbn [append] in E. injection E as E. rewrite !sapp_assoc in E. cbn [append] in E.
  pose proof (parse_escape_str a (ser_obj_tail r1 ++ t1)) as Pa.
  pose proof (parse_escape_str b (ser_obj_tail r2 ++ t2)) as Pb.
  rewrite E, Pb in Pa. congruence.
Qed.

(** Two certificates with the same [compliance_info], [device_info] and
    [operation_log] have the same canonical JSON only if they have the
    same [certificate_id] and [timestamp]. *)
Lemma canonical_json_id_time : forall c1 c2,
  compliance_info c1 = compliance_info c2 ->
  device_info c1 = device_info c2 ->
  operation_log c1 = operation_log c2 ->
  canonical_json c1 = canonical_json c2 ->
  certificate_id c1 = certificate_id c2 /\ timestamp c1 = timestamp c2.
Proof.
  intros c1 c2 Hc Hd Hl E. rewrite !CertFacts.canonical_json_signed in E.
  assert (E1 : dumps (JObj (signed_items c1)) = dumps (JObj (signed_items c2))) by congruence.
  clear E. rename E1 into E. unfold dumps in E. rewrite !CertFacts.sort_signed_items in E.
  apply dumps_cons_head in E. cbn [ser] in E.
  apply ser_str_app_inj in E as [Hid E]. split; [exact Hid|].
  rewrite Hc, Hd, Hl in E.
  assert (E0 : forall x y : string, x = y -> (x ++ EmptyString)%string = (y ++ EmptyString)%string)
    by (intros; subst; reflexivity).
  apply E0, ser_obj_tail_cons_inj, ser_obj_tail_cons_inj, ser_obj_tail_cons_inj in E.
  exact (obj_tail_str_inj _ _ _ _ _ _ _ E).
Qed.

(** C5 (amended).  Two builds of the certificate from the same operation,
    the same log chain and the same signer produce the same canonical JSON
    (the text [_sign_certificate] signs) exactly when they drew the same
    [certificate_id] (a fresh [uuid4]) and the same [timestamp] (the
    clock at build time). *)
Theorem canonical_form_determined_by_id_and_time :
  forall sha256_hex py_repr cid1 now1 cid2 now2 fingerprint op log_chain,
  canonical_json (prepare_certificate_data sha256_hex py_repr cid1 now1 fingerprint op log_chain) =
  canonical_json (prepare_certificate_data sha256_hex py_repr cid2 now2 fingerprint op log_chain)
  <-> cid1 = cid2 /\ now1 = now2.
Proof.
  intros sha256_hex py_repr cid1 now1 cid2 now2 fingerprint op log_chain. split.
  - intros E. apply canonical_json_id_time in E; [exact E | reflexivity | reflexivity | reflexivity].
  - intros [-> ->]. reflexivity.
Qed.

(** C5, counterexample.  Two builds from one operation and one (empty)
    log, differing only in the [uuid4] drawn, give different canonical
    texts. *)
Lemma canonical_form_two_builds_differ :
  canonical_json (prepare_certificate_data Examples.id_hash Examples.zero_repr
    "3f2a9c1e-0b7d-4c55-9e61-2d8f0a4b7c13" "2025-03-01T12:00:00+00:00" "9a1b2c3d4e5f6a7b"
    Examples.op_done [])
  <> canonical_json (prepare_certificate_data Examples.id_hash Examples.zero_repr
    "c7d04e6b-91a2-4f3e-8b5c-6e1f2a3b4c5d" "2025-03-01T12:00:00+00:00" "9a1b2c3d4e5f6a7b"
    Examples.op_done []).
Proof. vm_compute. discriminate. Qed.

End CanonFacts.

Module LogFacts.
Import Log.

Section Facts.
Variable sha256_hex : string -> string.

(** The hash the next entry links to, after walking [chain] from [h]. *)
Fixpoint last_hash (h : string) (chain : list LogEntry) : string :=
  match chain with
  | [] => h
  | e :: rest => last_hash (entry_hash e) rest
  end.

Lemma tail_hash_last : forall chain, tail_hash chain = last_hash genesis_hash chain.
Proof.
  unfold tail_hash. generalize genesis_hash as h.
  intros h chain. revert h. induction chain as [|e chain IH]; intros h; [reflexivity|].
  cbn [rev last_hash]. rewrite <- (IH (entry_hash e)).
  destruct (rev chain); reflexivity.
Qed.

Lemma verify_from_app : forall h c1 c2,
  verify_from sha256_hex h (c1 ++ c2) =
  verify_from sha256_hex h c1 && verify_from sha256_hex (last_hash h c1) c2.
Proof.
  intros h c1. revert h. induction c1 as [|e c1 IH]; intros h c2; [reflexivity|].
  cbn [app verify_from last_hash].
  destruct (negb (String.eqb (previous_hash e) h)); [reflexivity|].
  destruct (negb (String.eqb (entry_hash e) (calculate_hash sha256_hex e))); [reflexivity|].
  apply IH.
Qed.

Lemma verify_new_entry : forall ts eid msg lvl h,
  verify_from sha256_hex h [new_entry sha256_hex ts eid msg lvl h] = true.
Proof.
  intros. cbn [verify_from]. unfold new_entry. cbn [previous_hash entry_hash].
  rewrite String.eqb_refl. cbn [negb].
  unfold calculate_hash. cbn [timestamp entry_id message level previous_hash].
  rewrite String.eqb_refl. reflexivity.
Qed.

Lemma verify_chain_integrity_from : forall chain,
  verify_chain_integrity sha256_hex chain = verify_from sha256_hex genesis_hash chain.
Proof. intros [|e chain]; reflexivity. Qed.

Lemma add_entry_valid : forall chain ts eid msg lvl,
  verify_chain_integrity sha256_hex chain = true ->
  verify_chain_integrity sha256_hex (add_entry sha256_hex chain ts eid msg lvl) = true.
Proof.
  intros chain ts eid msg lvl H. rewrite verify_chain_integrity_from in *.
  unfold add_entry. rewrite verify_from_app, H, tail_hash_last. apply verify_new_entry.
Qed.

Lemma add_entries_valid : forall calls chain,
  verify_chain_integrity sha256_hex chain = true ->
  verify_chain_integrity sha256_hex (add_entries sha256_hex chain calls) = true.
Proof.
  unfold add_entries. induction calls as [|a calls IH]; intros chain H; [exact H|].
  cbn [fold_left]. apply IH, add_entry_valid, H.
Qed.

End Facts.

Lemma set_byte_length : forall s j b, String.length (set_byte s j b) = String.length s.
Proof. induction s as [|c s IH]; intros [|j] b; cbn; auto. Qed.

Lemma get_set_byte : forall s j b, (j < String.length s)%nat -> String.get j (set_byte s j b) = Some b.
Proof.
  induction s as [|c s IH]; intros [|j] b H; cbn in *; try lia; auto.
  apply IH. lia.
Qed.

Lemma set_byte_changes : forall s j b,
  (j < String.length s)%nat -> String.get j s <> Some b -> set_byte s j b <> s.
Proof. intros s j b H1 H2 E. apply H2. rewrite <- E. now apply get_set_byte. Qed.

Lemma sapp_inv_len : forall a b x y : string,
  String.length a = String.length b -> (a ++ x)%string = (b ++ y)%string -> a = b /\ x = y.
Proof.
  induction a as [|c a IH]; intros [|d b] x y L E; cbn in L; try discriminate L.
  - split; [reflexivity | exact E].
  - injection L as L. injection E as <- E. destruct (IH b x y L E) as [-> ->]. split; reflexivity.
Qed.

Lemma sapp_inv_head' : forall a x y : string, (a ++ x)%string = (a ++ y)%string -> x = y.
Proof. induction a as [|c a IH]; intros x y E; [exact E|]. injection E as E. exact (IH _ _ E). Qed.

(** A one-byte edit of a hashed field changes the hashed text. *)
Lemma mutate_changes_hash_input : forall f j b e,
  f <> FPreviousHash ->
  (j < String.length (field f e))%nat -> String.get j (field f e) <> Some b ->
  (timestamp (mutate_entry f j b e) ++ entry_id (mutate_entry f j b e)
     ++ message (mutate_entry f j b e) ++ level (mutate_entry f j b e)
     ++ previous_hash (mutate_entry f j b e))%string
  <> (timestamp e ++ entry_id e ++ message e ++ level e ++ previous_hash e)%string.
Proof.
  intros f j b e Hf H1 H2 E. pose proof (set_byte_changes _ _ _ H1 H2) as N.
  destruct f; cbn [mutate_entry timestamp entry_id message level previous_hash field] in *.
  - apply sapp_inv_len in E as [E _]; [contradiction | apply set_byte_length].
  - apply sapp_inv_head', sapp_inv_head' in E.
    apply sapp_inv_len in E as [E _]; [contradiction | apply set_byte_length].
  - apply sapp_inv_head', sapp_inv_head', sapp_inv_head' in E.
    apply sapp_inv_len in E as [E _]; [contradiction | apply set_byte_length].
  - contradiction.
Qed.

Lemma mutate_entry_fields : forall f j b e,
  entry_hash (mutate_entry f j b e) = entry_hash e /\
  (f <> FPreviousHash -> previous_hash (mutate_entry f j b e) = previous_hash e) /\
  (f = FPreviousHash -> previous_hash (mutate_entry f j b e) = set_byte (previous_hash e) j b).
Proof. intros [] j b e; cbn; repeat split; intros; congruence. Qed.

Lemma verify_from_mutate : forall sha256_hex,
  (forall x y, sha256_hex x = sha256_hex y -> x = y) ->
  forall chain h i f j b e,
  verify_from sha256_hex h chain = true ->
  nth_error chain i = Some e ->
  (j < String.length (field f e))%nat -> String.get j (field f e) <> Some b ->
  verify_from sha256_hex h (mutate_chain chain i f j b) = false.
Proof.
  intros sha Hinj chain. induction chain as [|e0 chain IH]; intros h i f j b e V N L G.
  - destruct i; discriminate N.
  - cbn [verify_from] in V.
    destruct (String.eqb (previous_hash e0) h) eqn:P; cbn [negb] in V; [|discriminate V].
    destruct (String.eqb (entry_hash e0) (calculate_hash sha e0)) eqn:Q; cbn [negb] in V;
      [|discriminate V].
    apply String.eqb_eq in P, Q.
    destruct i as [|i]; cbn [nth_error mutate_chain] in *.
    + injection N as <-. destruct (mutate_entry_fields f j b e0) as (Fh & Fp & Fq).
      cbn [verify_from].
      destruct (Log.Field_eq_dec f FPreviousHash) as [->|Hf].
      * rewrite (Fq eq_refl), <- P. cbn [field] in L, G.
        rewrite (proj2 (String.eqb_neq _ _) (set_byte_changes _ _ _ L G)). reflexivity.
      * rewrite (Fp Hf), P, String.eqb_refl. cbn [negb].
        rewrite Fh, Q.
        assert (D : calculate_hash sha e0 <> calculate_hash sha (mutate_entry f j b e0)).
        { unfold calculate_hash. intros D. apply Hinj in D. symmetry in D.
          exact (mutate_changes_hash_input f j b e0 Hf L G D). }
        rewrite (proj2 (String.eqb_neq _ _) D). reflexivity.
    + cbn [verify_from]. rewrite P, String.eqb_refl. cbn [negb].
      rewrite <- Q, String.eqb_refl. cbn [negb].
      exact (IH _ i f j b e V N L G).
Qed.

End LogFacts.

Module LogClaims.
Import Log.

(** C2.  Starting from any chain [verify_chain_integrity] accepts (the
    empty one included), any sequence of [add_entry] calls gives a chain
    it accepts; and in that chain, replacing one byte of the [timestamp],
    [message], [level] or [previous_hash] of any entry by a different byte
    makes it reject the chain.  SHA-256 is taken to be collision-free. *)
Theorem log_chain_integrity : forall sha256_hex : string -> string,
  (forall x y, sha256_hex x = sha256_hex y -> x = y) ->
  forall chain0 calls, verify_chain_integrity sha256_hex chain0 = true ->
  verify_chain_integrity sha256_hex (add_entries sha256_hex chain0 calls) = true /\
  (forall i f j b e, nth_error (add_entries sha256_hex chain0 calls) i = Some e ->
     (j < String.length (field f e))%nat -> String.get j (field f e) <> Some b ->
     verify_chain_integrity sha256_hex
       (mutate_chain (add_entries sha256_hex chain0 calls) i f j b) = false).
Proof.
  intros sha Hinj chain0 calls H0.
  pose proof (LogFacts.add_entries_valid sha calls chain0 H0) as V. split; [exact V|].
  intros i f j b e N L G.
  rewrite LogFacts.verify_chain_integrity_from in *.
  exact (LogFacts.verify_from_mutate sha Hinj _ _ i f j b e V N L G).
Qed.

Lemma id_hash_injective : forall x y, Examples.id_hash x = Examples.id_hash y -> x = y.
Proof. intros x y H. exact H. Qed.

Lemma log_chain_integrity_witness :
  verify_chain_integrity Examples.id_hash (add_entries Examples.id_hash [] Examples.log_calls) = true /\
  verify_chain_integrity Examples.id_hash
    (mutate_chain (add_entries Examples.id_hash [] Examples.log_calls) 1 FMessage 0 "s"%char) = false.
Proof.
  destruct (log_chain_integrity Examples.id_hash id_hash_injective [] Examples.log_calls eq_refl)
    as [H1 H2].
  split; [exact H1|].
  eapply (H2 1%nat FMessage 0%nat "s"%char);
    [reflexivity | cbn; lia | discriminate].
Defined.

End LogClaims.

Module SelectorClaims.
Import Examples.

Lemma rule_based_is_ladder : forall d, rule_based_method_selection d = spec_selector_ladder d.
Proof.
  intros d. unfold rule_based_method_selection, spec_selector_ladder.
  destruct (_ || _); [reflexivity|]. destruct (device_type d); reflexivity.
Qed.

(** C3, counterexample.  With the fitted forest predicting class 0, an
    unencrypted HDD without secure-erase support gets [ATA_SECURE_ERASE]
    from the selector, where the ladder gives [MULTIPASS_OVERWRITE]. *)
Lemma selector_ladder_counterexample :
  select_optimal_wipe_method (Some forest_class0) hash_salt_a hdd_plain = ATA_SECURE_ERASE /\
  spec_selector_ladder hdd_plain = MULTIPASS_OVERWRITE.
Proof. split; reflexivity. Qed.

(** C3 (amended).  The rule-based selection is exactly the ladder, and
    the selector returns the ladder's strategy when no model is set or
    when [predict] raises or gives an index outside [0, 7); when the model
    predicts an index [p] in [0, 7) it returns [list(WipeMethod)[p]]. *)
Theorem selector_ladder_fallback : forall d,
  rule_based_method_selection d = spec_selector_ladder d /\
  (forall str_hash, select_optimal_wipe_method None str_hash d = spec_selector_ladder d) /\
  (forall predict str_hash,
     match predict (method_features str_hash d) with
     | Some p => (p < 0 \/ 7 <= p)%Z
     | None => True
     end ->
     select_optimal_wipe_method (Some predict) str_hash d = spec_selector_ladder d) /\
  (forall predict str_hash p,
     predict (method_features str_hash d) = Some p -> (0 <= p < 7)%Z ->
     select_optimal_wipe_method (Some predict) str_hash d =
     nth (Z.to_nat p) WipeMethod_list SINGLE_PASS_RANDOM).
Proof.
  intros d. split; [apply rule_based_is_ladder|]. split; [|split].
  - intros h. apply rule_based_is_ladder.
  - intros predict h H. unfold select_optimal_wipe_method.
    destruct (predict (method_features h d)) as [p|]; [|apply rule_based_is_ladder].
    cbn [length WipeMethod_list Z.of_nat Pos.of_succ_nat Pos.succ].
    replace ((0 <=? p)%Z && (p <? 7)%Z) with false by (symmetry; apply andb_false_iff; lia).
    apply rule_based_is_ladder.
  - intros predict h p Hp R. unfold select_optimal_wipe_method. rewrite Hp.
    cbn [length WipeMethod_list Z.of_nat Pos.of_succ_nat Pos.succ].
    replace ((0 <=? p)%Z && (p <? 7)%Z) with true by (symmetry; apply andb_true_iff; lia).
    reflexivity.
Qed.

Lemma selector_ladder_fallback_witness :
  select_optimal_wipe_method (Some stump_on_type_hash) hash_salt_b hdd_plain = MULTIPASS_OVERWRITE /\
  select_optimal_wipe_method (Some (fun _ => Some 9%Z)) hash_salt_a hdd_plain
    = spec_selector_ladder hdd_plain.
Proof.
  destruct (selector_ladder_fallback hdd_plain) as (_ & _ & H3 & H4). split.
  - apply (H4 stump_on_type_hash hash_salt_b 3%Z); [reflexivity | lia].
  - apply H3. cbn. lia.
Defined.

(** C9, counterexample.  For the same device facts and the same fitted
    model, two processes whose [str.__hash__] salts differ select
    different strategies; and two engines whose fallback forests were
    fitted on different random data may too. *)
Lemma selector_determinism_counterexample :
  select_optimal_wipe_method (Some stump_on_type_hash) hash_salt_a hdd_plain = ATA_SECURE_ERASE /\
  select_optimal_wipe_method (Some stump_on_type_hash) hash_salt_b hdd_plain = MULTIPASS_OVERWRITE /\
  select_optimal_wipe_method (Some forest_class0) hash_salt_a hdd_plain = ATA_SECURE_ERASE /\
  select_optimal_wipe_method (Some (fun _ => Some 4%Z)) hash_salt_a hdd_plain = SINGLE_PASS_RANDOM.
Proof. repeat split; reflexivity. Qed.

(** Every strategy is [list(WipeMethod)[p]] for some index [p] in [0, 7). *)
Lemma WipeMethod_index : forall w, exists p,
  (0 <= p < 7)%Z /\ nth (Z.to_nat p) WipeMethod_list SINGLE_PASS_RANDOM = w.
Proof.
  intros w; destruct w;
    [exists 0%Z | exists 1%Z | exists 2%Z | exists 3%Z | exists 4%Z | exists 5%Z | exists 6%Z];
    split; (lia || reflexivity).
Qed.

(** A fitted model predicting index [p] in [0, 7) selects
    [list(WipeMethod)[p]]. *)
Lemma select_in_range : forall predict h d p,
  predict (method_features h d) = Some p -> (0 <= p < 7)%Z ->
  select_optimal_wipe_method (Some predict) h d = nth (Z.to_nat p) WipeMethod_list SINGLE_PASS_RANDOM.
Proof.
  intros predict h d p Hp R. unfold select_optimal_wipe_method. rewrite Hp.
  cbn [length WipeMethod_list Z.of_nat Pos.of_succ_nat Pos.succ].
  replace ((0 <=? p)%Z && (p <? 7)%Z) with true by (symmetry; apply andb_true_iff; lia).
  reflexivity.
Qed.

(** C9 (amended).  The selector is a function of the facts, the loaded
    model and the process's string hash, and not of the facts alone.  With
    no model it returns the rule-based strategy for every hash.  With a
    model, two selections whose models predict the same on their feature
    vectors agree, so one engine in one process always answers the same.
    But for any facts, two processes whose [str.__hash__] put the device
    type in different buckets modulo 10 can get any two strategies from the
    same fitted model; and for any facts and hash, every strategy is
    selected by some fitted model, so engines whose forests were fitted on
    different random data may disagree. *)
Theorem selector_depends_on_hash_and_model : forall d,
  (forall h, select_optimal_wipe_method None h d = rule_based_method_selection d) /\
  (forall p1 p2 h1 h2,
     p1 (method_features h1 d) = p2 (method_features h2 d) ->
     select_optimal_wipe_method (Some p1) h1 d = select_optimal_wipe_method (Some p2) h2 d) /\
  (forall h1 h2 w1 w2,
     (h1 (DeviceType_value (device_type d)) mod 10 <>
      h2 (DeviceType_value (device_type d)) mod 10)%Z ->
     exists predict,
       select_optimal_wipe_method (Some predict) h1 d = w1 /\
       select_optimal_wipe_method (Some predict) h2 d = w2) /\
  (forall h w, exists predict, select_optimal_wipe_method (Some predict) h d = w).
Proof.
  intros d. split; [reflexivity|]. split; [|split].
  - intros p1 p2 h1 h2 E. unfold select_optimal_wipe_method. now rewrite E.
  - intros h1 h2 w1 w2 Hb.
    destruct (WipeMethod_index w1) as (i1 & R1 & E1).
    destruct (WipeMethod_index w2) as (i2 & R2 & E2).
    set (b1 := (h1 (DeviceType_value (device_type d)) mod 10)%Z) in Hb.
    exists (fun xs => match xs with
              | PInt z :: _ => Some (if Z.eqb z b1 then i1 else i2)
              | _ => None
              end).
    split.
    + rewrite <- E1; apply select_in_range; [|exact R1].
      cbn [method_features]; fold b1; now rewrite Z.eqb_refl.
    + rewrite <- E2; apply select_in_range; [|exact R2].
      cbn [method_features].
      replace (Z.eqb (h2 (DeviceType_value (device_type d)) mod 10) b1)%Z with false
        by (symmetry; apply Z.eqb_neq; intros E; apply Hb; symmetry; exact E).
      reflexivity.
  - intros h w. destruct (WipeMethod_index w) as (i & R & E).
    exists (fun _ => Some i). rewrite <- E; apply select_in_range; [reflexivity | exact R].
Qed.

(** Two processes with the salts of the examples: the same stump-like model
    gives [ATA_SECURE_ERASE] in one and [FACTORY_RESET] in the other. *)
Lemma selector_depends_on_hash_and_model_witness :
  exists predict,
    select_optimal_wipe_method (Some predict) hash_salt_a hdd_plain = ATA_SECURE_ERASE /\
    select_optimal_wipe_method (Some predict) hash_salt_b hdd_plain = FACTORY_RESET.
Proof.
  apply (proj1 (proj2 (proj2 (selector_depends_on_hash_and_model hdd_plain)))).
  vm_compute; discriminate.
Defined.

End SelectorClaims.

Module WipeFacts.
Import WipeCore.

(** [m] keeps [Inv] on every state it starts from. *)
Definition Pres (Inv : St -> Prop) {A} (m : M A) : Prop :=
  forall s, Inv s -> Inv (snd (m s)).

Section Combinators.
Variable Inv : St -> Prop.

Lemma pres_ret {A} (a : A) : Pres Inv (ret a).
Proof. intros s H; exact H. Qed.

Lemma pres_raise {A} (e : PyExc) : Pres Inv (@raise A e).
Proof. intros s H; exact H. Qed.

Lemma pres_bind {A B} (m : M A) (k : A -> M B) :
  Pres Inv m -> (forall a, Pres Inv (k a)) -> Pres Inv (bind m k).
Proof.
  intros Hm Hk s H; unfold bind.
  specialize (Hm s H); destruct (m s) as [[a|e] s']; simpl in *; auto.
  apply Hk; exact Hm.
Qed.

Lemma pres_try {A} (m : M A) (h : PyExc -> M A) :
  Pres Inv m -> (forall e, Pres Inv (h e)) -> Pres Inv (try_except m h).
Proof.
  intros Hm Hh s H; unfold try_except.
  specialize (Hm s H); destruct (m s) as [[a|e] s']; simpl in *; auto.
  apply Hh; exact Hm.
Qed.

Lemma pres_get_bind {B} (k : WipeOperation -> M B) :
  (forall o, (exists s, Inv s /\ op s = o) -> Pres Inv (k o)) -> Pres Inv (bind get_op k).
Proof.
  intros Hk s H; unfold bind, get_op.
  apply (Hk (op s)); [exists s; auto | exact H].
Qed.

Lemma pres_if {A} (b : bool) (m1 m2 : M A) :
  Pres Inv m1 -> Pres Inv m2 -> Pres Inv (if b then m1 else m2).
Proof. destruct b; auto. Qed.

End Combinators.

Create HintDb pres_db.

(** One step through a program of the monad. *)
Ltac pres_step :=
  match goal with
  | |- Pres _ (bind get_op _) => apply pres_get_bind; intros ?o ?Ho
  | |- Pres _ (bind _ _) => apply pres_bind; [ | intros ?]
  | |- Pres _ (try_except _ _) => apply pres_try; [ | intros ?]
  | |- Pres _ (ret _) => apply pres_ret
  | |- Pres _ (raise _) => apply pres_raise
  | |- Pres _ (if _ then _ else _) => apply pres_if
  | |- Pres _ (let _ := _ in _) => cbv zeta
  | |- Pres _ (match ?x with _ => _ end) => destruct x
  end.

Ltac pres := repeat (first [pres_step | solve [eauto with pres_db]]).

(** ** What every phase leaves alone *)

(** The phases below [execute_wipe] change the operation only by
    appending to its log, setting [progress], [error_message] or a
    verification hash, and otherwise only append to the notifications and
    the sector checks: any property closed under those steps is kept. *)
Section Frame.
Variable env : Env.
Variable Inv : St -> Prop.
Hypothesis H_log : forall l s, Inv s -> Inv (mkSt (append_log l (op s)) (notes s) (sector_checks s)).
Hypothesis H_hash : forall k v s, Inv s ->
  Inv (mkSt (set_verification_hash k v (op s)) (notes s) (sector_checks s)).
Hypothesis H_progress : forall p s, Inv s -> Inv (mkSt (set_progress p (op s)) (notes s) (sector_checks s)).
Hypothesis H_notify : forall p s, Inv s -> Inv (mkSt (op s) (notes s ++ [p]) (sector_checks s)).
Hypothesis H_check : forall x s, Inv s -> Inv (mkSt (op s) (notes s) (sector_checks s ++ [x])).
Hypothesis H_error : forall e s, Inv s -> Inv (mkSt (set_error_message e (op s)) (notes s) (sector_checks s)).

Lemma frame_log l : Pres Inv (log l).
Proof. intros s H; apply H_log; exact H. Qed.

Lemma frame_notify p : Pres Inv (notify p).
Proof. intros s H; apply H_notify; exact H. Qed.

Lemma frame_set_progress p : Pres Inv (modify_op (set_progress p)).
Proof. intros s H; apply H_progress; exact H. Qed.

Lemma frame_set_hash k v : Pres Inv (modify_op (set_verification_hash k v)).
Proof. intros s H; apply H_hash; exact H. Qed.

Lemma frame_set_error e : Pres Inv (modify_op (set_error_message e)).
Proof. intros s H; apply H_error; exact H. Qed.

Lemma frame_verify x : Pres Inv (verify_sector_wiped env x).
Proof.
  intros s H; unfold verify_sector_wiped.
  destruct x as [z|q]; [destruct (read_sector env (z * 512))|]; apply H_check; exact H.
Qed.

Lemma frame_run c : Pres Inv (run_cmd env c).
Proof. unfold run_cmd; destruct (run env c); pres. Qed.

#[local] Hint Resolve frame_log frame_notify frame_set_progress frame_set_hash
  frame_set_error frame_verify frame_run : pres_db.

Lemma frame_poll est es : Pres Inv (poll_progress est es).
Proof. induction es; simpl; pres. Qed.

Lemma frame_notify_all ps : Pres Inv (notify_all ps).
Proof. induction ps; simpl; pres. Qed.

Lemma frame_dev_path : Pres Inv (dev_path).
Proof. unfold dev_path; pres. Qed.

#[local] Hint Resolve frame_poll frame_notify_all frame_dev_path : pres_db.

Lemma frame_passes k n size : Pres Inv (passes env k n size).
Proof.
  revert k; induction n; intros k; simpl; unfold overwrite_device; pres.
Qed.

Lemma frame_monitor r : Pres Inv (monitor_dd_progress r).
Proof. induction r; simpl; pres. Qed.

#[local] Hint Resolve frame_passes frame_monitor : pres_db.

Lemma frame_single_pass : Pres Inv (single_pass_random env).
Proof. unfold single_pass_random; pres. Qed.

#[local] Hint Resolve frame_single_pass : pres_db.

Lemma frame_methods :
  Pres Inv (ata_secure_erase env) /\ Pres Inv (nvme_secure_erase env) /\
  Pres Inv (nvme_crypto_erase env) /\ Pres Inv (multipass_overwrite env) /\
  Pres Inv (crypto_erase env).
Proof.
  unfold ata_secure_erase, nvme_secure_erase, nvme_crypto_erase, multipass_overwrite,
    crypto_erase; repeat split; pres.
Qed.

Lemma frame_execute_wipe_method : Pres Inv (execute_wipe_method env).
Proof.
  destruct frame_methods as (H1 & H2 & H3 & H4 & H5).
  unfold execute_wipe_method; pres.
Qed.

Lemma frame_sample_loop size sc i n : Pres Inv (sample_loop env size sc i n).
Proof.
  revert i; induction n; intros i; simpl; pres.
Qed.

#[local] Hint Resolve frame_sample_loop : pres_db.

Lemma frame_post_wipe_verification : Pres Inv (post_wipe_verification env).
Proof.
  unfold post_wipe_verification; pres.
Qed.

Lemma frame_pre_wipe_checks : Pres Inv (pre_wipe_checks env).
Proof.
  unfold pre_wipe_checks; pres.
Qed.

End Frame.

(** ** Which phases can raise *)
Section NoRaise.
Variable env : Env.

Definition returns {A} (m : M A) : Prop := forall s, exists a, fst (m s) = Ok a.

Lemma returns_try {A} (m : M A) h : (forall e, returns (h e)) -> returns (try_except m h).
Proof.
  intros Hh s; unfold try_except; destruct (m s) as [[a|e] s']; [eexists; reflexivity|].
  apply Hh.
Qed.

Lemma returns_bind {A B} (m : M A) (k : A -> M B) :
  returns m -> (forall a, returns (k a)) -> returns (bind m k).
Proof.
  intros Hm Hk s; unfold bind; destruct (Hm s) as [a Ha].
  destruct (m s) as [r s']; simpl in Ha; subst r; apply Hk.
Qed.

Lemma returns_ret {A} (a : A) : returns (ret a).
Proof. intros s; eexists; reflexivity. Qed.

Lemma returns_modify f : returns (modify_op f).
Proof. intros s; eexists; reflexivity. Qed.

Lemma returns_log l : returns (log l).
Proof. apply returns_modify. Qed.

Lemma returns_get_op : returns get_op.
Proof. intros s; eexists; reflexivity. Qed.

Lemma returns_notify p : returns (notify p).
Proof. intros s; eexists; reflexivity. Qed.

Lemma returns_if {A} (b : bool) (m1 m2 : M A) : returns m1 -> returns m2 -> returns (if b then m1 else m2).
Proof. destruct b; auto. Qed.

Ltac returns_step :=
  match goal with
  | |- returns (bind _ _) => apply returns_bind; [ | intros ?]
  | |- returns (try_except _ _) => apply returns_try; intros ?
  | |- returns (ret _) => apply returns_ret
  | |- returns (modify_op _) => apply returns_modify
  | |- returns (log _) => apply returns_log
  | |- returns get_op => apply returns_get_op
  | |- returns (notify _) => apply returns_notify
  | |- returns (if _ then _ else _) => apply returns_if
  | |- returns (match ?x with _ => _ end) => destruct x
  | |- returns (let _ := _ in _) => cbv zeta
  end.

Lemma returns_single_pass : returns (single_pass_random env).
Proof. unfold single_pass_random; repeat returns_step. Qed.

Lemma returns_execute_wipe_method : returns (execute_wipe_method env).
Proof. unfold execute_wipe_method; repeat returns_step. Qed.

Lemma returns_post_wipe_verification : returns (post_wipe_verification env).
Proof. unfold post_wipe_verification; repeat returns_step. Qed.

Lemma returns_pre_wipe_checks : pre_check_raises env = None -> returns (pre_wipe_checks env).
Proof.
  intros H; unfold pre_wipe_checks, dev_path; rewrite H; repeat returns_step.
Qed.

(** With [pre_check_raises = Some e], the checks log their first line
    and raise [e]. *)
Lemma pre_wipe_checks_raises e s : pre_check_raises env = Some e ->
  pre_wipe_checks env s = (Exn e, mkSt (append_log "Starting pre-wipe checks" (op s)) (notes s) (sector_checks s)).
Proof. intros H; unfold pre_wipe_checks, dev_path, bind, get_op, log, modify_op, ret; rewrite H; reflexivity. Qed.

End NoRaise.

(** ** The fields the phases keep *)

Definition keeps_status_method (st : WipeStatus) (m : WipeMethod) (s : St) : Prop :=
  status (op s) = st /\ method (op s) = m.

Definition keeps_error (e : option string) (s : St) : Prop := error_message (op s) = e.

Ltac frame_close := intros; cbn in *; assumption.

Lemma status_method_kept env st m :
  Pres (keeps_status_method st m) (execute_wipe_method env) /\
  Pres (keeps_status_method st m) (pre_wipe_checks env) /\
  Pres (keeps_status_method st m) (post_wipe_verification env).
Proof.
  split; [|split];
    [apply frame_execute_wipe_method | apply frame_pre_wipe_checks | apply frame_post_wipe_verification];
    unfold keeps_status_method; frame_close.
Qed.

Lemma error_kept_single_pass env e : Pres (keeps_error e) (single_pass_random env).
Proof. apply frame_single_pass; unfold keeps_error; frame_close. Qed.

(** Run on an operation whose strategy is [SINGLE_PASS_RANDOM], the
    dispatcher only runs [_single_pass_random], which keeps the error. *)
Lemma error_kept_dispatch_single_pass env e s :
  method (op s) = SINGLE_PASS_RANDOM -> keeps_error e s ->
  keeps_error e (snd (execute_wipe_method env s)).
Proof.
  intros Hm He.
  unfold execute_wipe_method, bind at 1, get_op; rewrite Hm.
  unfold bind at 1, log, modify_op, try_except.
  set (s1 := mkSt (append_log _ (op s)) (notes s) (sector_checks s)).
  destruct (returns_single_pass env s1) as [b Hb].
  assert (H1 : keeps_error e (snd (single_pass_random env s1))).
  { apply error_kept_single_pass; exact He. }
  destruct (single_pass_random env s1) as [r s2]; simpl in Hb; subst r; exact H1.
Qed.

(** ** Progress values stay percentages *)

Definition in_range (p : Q) : Prop := 0 <= p /\ p <= 100.

Definition progress_ok (s : St) : Prop :=
  in_range (progress (op s)) /\ Forall in_range (notes s) /\
  0 <= py_val (size_gb (device_info (op s))).

Lemma Qltb_true a b : Qltb a b = true -> a < b.
Proof.
  unfold Qltb; intros H; apply negb_true_iff in H.
  apply Qnot_le_lt; intros Hle; apply Qle_bool_iff in Hle; congruence.
Qed.

Lemma Qltb_false a b : Qltb a b = false -> b <= a.
Proof.
  unfold Qltb; intros H; apply negb_false_iff in H; apply Qle_bool_iff; exact H.
Qed.

Lemma py_min_90 x : 30 <= x -> 30 <= py_min x 90 /\ py_min x 90 <= 90.
Proof.
  unfold py_min; intros H; destruct (Qltb 90 x) eqn:E.
  - apply Qltb_true in E; lra.
  - apply Qltb_false in E; lra.
Qed.

Lemma div_nonneg a b : 0 <= a -> 0 < b -> 0 <= a / b.
Proof. intros Ha Hb; apply Qle_shift_div_l; [exact Hb | lra]. Qed.

Lemma div_le_1 a b : a <= b -> 0 < b -> a / b <= 1.
Proof. intros Ha Hb; apply Qle_shift_div_r; [exact Hb | lra]. Qed.

Lemma inject_Z_le a b : (a <= b)%Z -> inject_Z a <= inject_Z b.
Proof. intros H; rewrite <- Zle_Qle; exact H. Qed.

Lemma inject_Z_lt a b : (a < b)%Z -> inject_Z a < inject_Z b.
Proof. intros H; rewrite <- Zlt_Qlt; exact H. Qed.

Section Range.
Variable env : Env.
Hypothesis H_polls : forall c e, In e (polls env c) -> 0 <= e.

Lemma range_log l : Pres progress_ok (log l).
Proof. intros s H; exact H. Qed.

Lemma range_set_hash k v : Pres progress_ok (modify_op (set_verification_hash k v)).
Proof. intros s H; exact H. Qed.

Lemma range_set_error e : Pres progress_ok (modify_op (set_error_message e)).
Proof. intros s H; exact H. Qed.

Lemma range_verify x : Pres progress_ok (verify_sector_wiped env x).
Proof.
  intros s H; unfold verify_sector_wiped.
  destruct x as [z|q]; [destruct (read_sector env (z * 512))|]; exact H.
Qed.

Lemma range_run c : Pres progress_ok (run_cmd env c).
Proof. unfold run_cmd; destruct (run env c); pres. Qed.

Lemma range_notify p : in_range p -> Pres progress_ok (notify p).
Proof.
  intros Hp s (H1 & H2 & H3); split; [exact H1|split; [|exact H3]].
  cbn; apply Forall_app; split; [exact H2 | constructor; [exact Hp | constructor]].
Qed.

Lemma range_set_progress p : in_range p -> Pres progress_ok (modify_op (set_progress p)).
Proof. intros Hp s (H1 & H2 & H3); split; [exact Hp | split; assumption]. Qed.

Ltac range_val := unfold in_range; split; lra.

#[local] Hint Resolve range_log range_set_hash range_set_error range_verify range_run : pres_db.
#[local] Hint Extern 2 (Pres progress_ok (notify _)) =>
  apply range_notify; range_val : pres_db.

Lemma range_poll o est es : (exists s, progress_ok s /\ op s = o) ->
  est = py_val (py_mul (size_gb (device_info o)) (PInt 2)) \/
  est = py_val (py_mul (size_gb (device_info o)) (PFloat (1 # 2))) ->
  (forall e, In e es -> 0 <= e) ->
  Pres progress_ok (poll_progress est es).
Proof.
  intros [s [(_ & _ & Hsz) Ho]] Hest Hes.
  assert (Hnn : 0 <= est).
  { subst o; destruct (size_gb (device_info (op s))) as [z|q]; cbn [py_val] in Hsz;
      destruct Hest as [-> | ->]; cbn [py_mul py_val].
    - change 0 with (inject_Z 0); apply inject_Z_le.
      change 0 with (inject_Z 0) in Hsz; rewrite <- Zle_Qle in Hsz; lia.
    - lra.
    - change (inject_Z 2) with (2 # 1); lra.
    - lra. }
  induction es as [|e es IH]; simpl; [pres|].
  destruct (Qeq_bool est 0) eqn:E0; [pres|].
  apply pres_bind; [|intros _; apply IH; intros; apply Hes; right; assumption].
  apply range_notify.
  assert (Hpos : 0 < est).
  { apply Qnot_le_lt; intros Hle; assert (Hz : est == 0) by lra.
    apply Qeq_bool_iff in Hz; congruence. }
  assert (He : 0 <= e) by (apply Hes; left; reflexivity).
  pose proof (div_nonneg e est He Hpos).
  destruct (py_min_90 (30 + e / est * 60)) as [A B]; [lra|]; range_val.
Qed.


Lemma range_modify f : (forall o, progress (f o) = progress o /\ device_info (f o) = device_info o) ->
  Pres progress_ok (modify_op f).
Proof.
  intros Hf s (H1 & H2 & H3); destruct (Hf (op s)) as [E1 E2].
  split; [|split]; cbn; [rewrite E1 | exact H2 | rewrite E2]; assumption.
Qed.

#[local] Hint Extern 2 (Pres progress_ok (modify_op (set_progress _))) =>
  apply range_set_progress; range_val : pres_db.
#[local] Hint Extern 3 (Pres progress_ok (modify_op _)) =>
  apply range_modify; intros; split; reflexivity : pres_db.
#[local] Hint Extern 2 (Pres progress_ok (poll_progress _ _)) =>
  eapply range_poll; [eassumption | first [left; reflexivity | right; reflexivity]
                     | intros; eapply H_polls; eassumption] : pres_db.

Lemma overwrite_progress_bounds base size p :
  In p (overwrite_progress base size) -> base <= p /\ p <= base + 20.
Proof.
  unfold overwrite_progress; intros Hin; apply in_map_iff in Hin as [k [<- Hk]].
  apply in_seq in Hk.
  assert (Hsize : (0 < size)%Z).
  { destruct (Z_lt_le_dec 0 size) as [Hs|Hs]; [exact Hs|exfalso].
    assert (Hd : ((size + chunk_size - 1) / chunk_size < 1)%Z)
      by (apply Z.div_lt_upper_bound; unfold chunk_size; lia).
    lia. }
  assert (Hw : (0 <= Z.min (Z.of_nat k * chunk_size) size <= size)%Z)
    by (unfold chunk_size; lia).
  set (w := Z.min (Z.of_nat k * chunk_size) size) in *.
  assert (Hw0 : 0 <= inject_Z w) by (apply (inject_Z_le 0); lia).
  assert (Hws : inject_Z w <= inject_Z size) by (apply inject_Z_le; lia).
  assert (Hs : 0 < inject_Z size) by (apply (inject_Z_lt 0); lia).
  pose proof (div_nonneg _ _ Hw0 Hs); pose proof (div_le_1 _ _ Hws Hs); lra.
Qed.

Lemma range_notify_all ps : (forall p, In p ps -> in_range p) -> Pres progress_ok (notify_all ps).
Proof.
  induction ps as [|p ps IH]; intros Hps; simpl; [pres|].
  apply pres_bind; [apply range_notify, Hps; left; reflexivity|].
  intros _; apply IH; intros; apply Hps; right; assumption.
Qed.

Lemma range_passes size n k : (1 <= k)%nat -> (k + n <= 4)%nat -> Pres progress_ok (passes env k n size).
Proof.
  revert k; induction n as [|n IH]; intros k Hk1 Hk2; simpl; [pres|].
  assert (Hb0 : 0 <= inject_Z (Z.of_nat k - 1)) by (apply (inject_Z_le 0); lia).
  assert (Hb2 : inject_Z (Z.of_nat k - 1) <= 2) by (apply (inject_Z_le _ 2); lia).
  unfold overwrite_device; pres.
  - apply range_notify_all; intros p Hp; apply overwrite_progress_bounds in Hp; range_val.
  - apply IH; lia.
Qed.

Lemma range_monitor r : Pres progress_ok (monitor_dd_progress r).
Proof.
  induction r as [|r IH]; simpl; [pres|].
  apply pres_get_bind; intros o [s [(H1 & _ & _) <-]].
  apply pres_bind; [|intros _; exact IH].
  destruct (Qltb (progress (op s)) 80) eqn:E; [|pres].
  apply Qltb_true in E; destruct H1 as [H1 _].
  apply pres_bind; [apply range_set_progress | intros _; apply range_notify]; range_val.
Qed.

#[local] Hint Resolve range_monitor : pres_db.

Lemma range_single_pass : Pres progress_ok (single_pass_random env).
Proof. unfold single_pass_random; pres. Qed.

#[local] Hint Resolve range_single_pass : pres_db.

Lemma range_execute_wipe_method : Pres progress_ok (execute_wipe_method env).
Proof.
  unfold execute_wipe_method, ata_secure_erase, nvme_secure_erase, nvme_crypto_erase,
    multipass_overwrite, crypto_erase; pres.
  apply range_passes; lia.
Qed.

Lemma range_sample_loop size sc n i : (Z.of_nat i + Z.of_nat n <= Z.max 0 sc)%Z ->
  Pres progress_ok (sample_loop env size sc i n).
Proof.
  revert i; induction n as [|n IH]; intros i Hi; simpl; [pres|].
  pres.
  - apply range_notify.
    assert (Hi0 : 0 <= inject_Z (Z.of_nat i)) by (apply (inject_Z_le 0); lia).
    assert (His : inject_Z (Z.of_nat i) <= inject_Z sc) by (apply inject_Z_le; lia).
    assert (Hs : 0 < inject_Z sc) by (apply (inject_Z_lt 0); lia).
    pose proof (div_nonneg _ _ Hi0 Hs); pose proof (div_le_1 _ _ His Hs); range_val.
  - apply IH; lia.
Qed.

Lemma range_post_wipe_verification : Pres progress_ok (post_wipe_verification env).
Proof.
  unfold post_wipe_verification; pres.
  apply range_sample_loop; lia.
Qed.

Lemma range_pre_wipe_checks : Pres progress_ok (pre_wipe_checks env).
Proof. unfold pre_wipe_checks, dev_path; pres. Qed.

#[local] Hint Resolve range_execute_wipe_method range_post_wipe_verification
  range_pre_wipe_checks : pres_db.

Lemma range_execute_wipe : Pres progress_ok (execute_wipe env).
Proof. unfold execute_wipe; pres. Qed.
End Range.


(** ** [execute_wipe] from its phases *)
Section Whole.
Variable env : Env.
Variable Inv : St -> Prop.
Hypothesis H_pre : Pres Inv (pre_wipe_checks env).
Hypothesis H_method : Pres Inv (execute_wipe_method env).
Hypothesis H_post : Pres Inv (post_wipe_verification env).
Hypothesis H_modify : forall f s,
  (forall o, device_info (f o) = device_info o /\ progress (f o) = progress o \/ f = set_progress 100) ->
  Inv s -> Inv (mkSt (f (op s)) (notes s) (sector_checks s)).
Hypothesis H_notify100 : forall s, Inv s -> Inv (mkSt (op s) (notes s ++ [100]) (sector_checks s)).

Lemma whole_execute_wipe : Pres Inv (execute_wipe env).
Proof.
  assert (Hm : forall f, (forall o, device_info (f o) = device_info o /\ progress (f o) = progress o) ->
    Pres Inv (modify_op f)).
  { intros f Hf s H; apply H_modify; [intros o; left; apply Hf | exact H]. }
  unfold execute_wipe; pres;
    first [ apply Hm; intros; split; reflexivity
          | intros s H; apply H_modify; [intros; right; reflexivity | exact H]
          | intros s H; apply H_notify100; exact H ].
Qed.

End Whole.

(** ** Phases that run to their end *)

Lemma pre_wipe_checks_pass env s :
  pre_check_raises env = None -> path_exists env = true -> is_mounted env = false ->
  fst (pre_wipe_checks env s) = Ok true.
Proof.
  intros H1 H2 H3.
  cbv [pre_wipe_checks dev_path bind get_op log modify_op ret notify]; rewrite H1, H2, H3; cbn.
  destruct (hpa_dco_present _); [destruct (hpa_removed env)|]; destruct (pre_sample env); reflexivity.
Qed.

Lemma returns_monitor r : returns (monitor_dd_progress r).
Proof.
  induction r as [|r IH]; simpl; [apply returns_ret|].
  apply returns_bind; [apply returns_get_op | intros o].
  apply returns_bind; [| intros _; exact IH].
  destruct (Qltb (progress o) 80); [|apply returns_ret].
  apply returns_bind; [apply returns_modify | intros _; apply returns_notify].
Qed.

Lemma single_pass_dispatch_succeeds env s err :
  method (op s) = SINGLE_PASS_RANDOM -> run env DdRandom = Exit 0 err ->
  fst (execute_wipe_method env s) = Ok true.
Proof.
  intros Hm Hr.
  cbv [execute_wipe_method bind get_op log modify_op try_except]; rewrite Hm.
  cbv [single_pass_random bind log modify_op try_except run_cmd]; rewrite Hr; cbn -[monitor_dd_progress].
  match goal with |- context [monitor_dd_progress ?r ?s1] =>
    destruct (returns_monitor r s1) as [u Hu]; destruct (monitor_dd_progress r s1) as [x s2] end.
  cbn in Hu; subst x; reflexivity.
Qed.

(** [int(size_gb)] is 0 for a size in [0, 1). *)
Lemma py_int_small x : 0 <= py_val x < 1 -> py_int x = 0%Z.
Proof.
  destruct x as [z|q]; cbn [py_val py_int]; intros [H0 H1].
  - change 0 with (inject_Z 0) in H0; change 1 with (inject_Z 1) in H1.
    rewrite <- Zle_Qle in H0; rewrite <- Zlt_Qlt in H1; lia.
  - destruct q as [n d]; unfold Qle, Qlt in *; cbn in *.
    apply Z.quot_small; lia.
Qed.

(** For a size below 1 GB the sampling loop runs zero times. *)
Lemma post_wipe_verification_small env s :
  0 <= py_val (size_gb (device_info (op s))) < 1 ->
  fst (post_wipe_verification env s) = Ok true /\
  sector_checks (snd (post_wipe_verification env s)) = sector_checks s /\
  notes (snd (post_wipe_verification env s)) = notes s.
Proof.
  intros Hs.
  cbv [post_wipe_verification bind get_op log modify_op try_except ret].
  cbn [op notes sector_checks append_log device_info].
  rewrite (py_int_small _ Hs); cbn.
  destruct (post_sample env); cbn; auto.
Qed.


Lemma Qeq_bool_inject_Z_pos z : (1 <= z)%Z -> Qeq_bool (inject_Z z) 0 = false.
Proof.
  intros Hz; destruct (Qeq_bool (inject_Z z) 0) eqn:E; [|reflexivity].
  apply Qeq_bool_iff in E; unfold Qeq in E; cbn in E; lia.
Qed.

(** For a float size of at least 1 GB, the first sector offset is a
    float, [f.seek] rejects it, and the loop stops at once. *)
Lemma post_wipe_verification_float env s q :
  size_gb (device_info (op s)) = PFloat q -> 1 <= q ->
  fst (post_wipe_verification env s) = Ok false /\
  exists x, sector_checks (snd (post_wipe_verification env s)) = (sector_checks s ++ [PFloat x])%list /\ x == 0.
Proof.
  intros Hq H1.
  assert (Hsc : (1 <= Z.min 100 (py_int (PFloat q)))%Z).
  { cbn [py_int]; destruct q as [n d]; unfold Qle in H1; cbn in H1 |- *.
    rewrite Z.quot_div_nonneg by lia.
    assert (1 <= n / Z.pos d)%Z by (apply Z.div_le_lower_bound; lia). lia. }
  cbv [post_wipe_verification bind get_op log modify_op try_except ret].
  cbn [op notes sector_checks append_log device_info]. rewrite Hq.
  remember (Z.min 100 (py_int (PFloat q))) as sc eqn:Esc.
  destruct (Z.to_nat sc) as [|m] eqn:Em; [lia|].
  cbn [sample_loop py_mul py_val].
  unfold py_floordiv; cbn [py_val].
  rewrite (Qeq_bool_inject_Z_pos 512) by lia.
  rewrite (Qeq_bool_inject_Z_pos sc Hsc).
  cbv [bind verify_sector_wiped negb ret log modify_op]; cbn [op notes sector_checks py_val fst snd].
  split; [reflexivity|].
  eexists; split; [reflexivity|].
  apply Qmult_0_l.
Qed.


(** ** Whole runs *)

Definition keeps_device (d : DeviceInfo) (s : St) : Prop := device_info (op s) = d.

Lemma device_kept env d :
  Pres (keeps_device d) (execute_wipe_method env) /\
  Pres (keeps_device d) (pre_wipe_checks env) /\
  Pres (keeps_device d) (post_wipe_verification env).
Proof.
  split; [|split];
    [apply frame_execute_wipe_method | apply frame_pre_wipe_checks | apply frame_post_wipe_verification];
    unfold keeps_device; frame_close.
Qed.

(** A run whose pre-wipe checks raise ends [FAILED], whatever the
    recovery branch does. *)
Lemma raised_run_fails env op0 e :
  pre_check_raises env = Some e ->
  status (op (snd (run_execute_wipe env op0))) = FAILED.
Proof.
  intros He.
  unfold run_execute_wipe, execute_wipe.
  cbv [bind try_except modify_op ret].
  rewrite (pre_wipe_checks_raises env e _ He).
  cbv [log modify_op].
  destruct (diagnose_and_resolve_errors (exc_str e)) as [d acts alt c]; cbn -[execute_wipe_method].
  destruct alt as [w|]; [destruct (Qltb (7 # 10) c)|]; cbn -[execute_wipe_method]; try reflexivity.
  match goal with |- context [execute_wipe_method env ?s4] => set (s := s4) end.
  assert (Hk : keeps_status_method FAILED w (snd (execute_wipe_method env s))).
  { apply (proj1 (status_method_kept env FAILED w)); split; reflexivity. }
  destruct (execute_wipe_method env s) as [[b|x] s5]; destruct Hk as [Hk _]; exact Hk.
Qed.

(** A run that ends [COMPLETED] passed the post-wipe verification on a
    state of its own device. *)
Lemma completed_run_verified env op0 :
  status (op (snd (run_execute_wipe env op0))) = COMPLETED ->
  exists s, device_info (op s) = device_info op0 /\ fst (post_wipe_verification env s) = Ok true.
Proof.
  intros H.
  destruct (pre_check_raises env) as [e|] eqn:He.
  { rewrite (raised_run_fails env op0 e He) in H; discriminate H. }
  unfold run_execute_wipe, execute_wipe in H.
  cbv [bind try_except modify_op ret] in H.
  cbn [op notes sector_checks] in H.
  match type of H with context [pre_wipe_checks env ?s1] => set (s := s1) in H end.
  destruct (returns_pre_wipe_checks env He s) as [ok Hok].
  assert (K1 : keeps_device (device_info op0) (snd (pre_wipe_checks env s))).
  { apply (proj1 (proj2 (device_kept env _))); reflexivity. }
  destruct (pre_wipe_checks env s) as [r s2]; simpl in Hok; subst r.
  destruct ok; cbn -[execute_wipe_method post_wipe_verification] in H; [|discriminate H].
  destruct (returns_execute_wipe_method env s2) as [ok Hok].
  assert (K2 : keeps_device (device_info op0) (snd (execute_wipe_method env s2))).
  { apply (proj1 (device_kept env _)); exact K1. }
  destruct (execute_wipe_method env s2) as [r s3]; simpl in Hok; subst r.
  destruct ok; cbn -[post_wipe_verification] in H; [|discriminate H].
  destruct (returns_post_wipe_verification env s3) as [ok Hok].
  exists s3; split; [exact K2|]; rewrite Hok.
  destruct (post_wipe_verification env s3) as [r s4]; simpl in Hok; subst r.
  destruct ok; [reflexivity|]; cbn in H; discriminate H.
Qed.

(** A run completes when the checks find the device present and
    unmounted, the strategy succeeds and the verification passes. *)
Lemma run_completes env op0 :
  pre_check_raises env = None -> path_exists env = true -> is_mounted env = false ->
  (forall s, method (op s) = method op0 -> fst (execute_wipe_method env s) = Ok true) ->
  (forall s, device_info (op s) = device_info op0 -> fst (post_wipe_verification env s) = Ok true) ->
  fst (run_execute_wipe env op0) = Ok true /\
  status (op (snd (run_execute_wipe env op0))) = COMPLETED.
Proof.
  intros H1 H2 H3 Hm Hp.
  unfold run_execute_wipe, execute_wipe.
  cbv [bind try_except modify_op ret].
  cbn [op notes sector_checks].
  match goal with |- context [pre_wipe_checks env ?s1] => set (s := s1) end.
  pose proof (pre_wipe_checks_pass env s H1 H2 H3) as Hok.
  assert (K1 : keeps_device (device_info op0) (snd (pre_wipe_checks env s))).
  { apply (proj1 (proj2 (device_kept env _))); reflexivity. }
  assert (M1 : keeps_status_method IN_PROGRESS (method op0) (snd (pre_wipe_checks env s))).
  { apply (proj1 (proj2 (status_method_kept env _ _))); split; reflexivity. }
  destruct (pre_wipe_checks env s) as [r s2]; simpl in Hok; subst r.
  cbn -[execute_wipe_method post_wipe_verification].
  pose proof (Hm s2 (proj2 M1)) as Hok.
  assert (K2 : keeps_device (device_info op0) (snd (execute_wipe_method env s2))).
  { apply (proj1 (device_kept env _)); exact K1. }
  destruct (execute_wipe_method env s2) as [r s3]; simpl in Hok; subst r.
  cbn -[post_wipe_verification].
  pose proof (Hp s3 K2) as Hok.
  destruct (post_wipe_verification env s3) as [r s4]; simpl in Hok; subst r.
  cbn; split; reflexivity.
Qed.

(** Without an exception out of the checks, the run keeps the strategy it
    was prepared with, whether the strategy or the verification fails. *)
Lemma no_raise_keeps_method env op0 :
  pre_check_raises env = None ->
  method (op (snd (run_execute_wipe env op0))) = method op0.
Proof.
  intros He.
  unfold run_execute_wipe, execute_wipe.
  cbv [bind try_except modify_op ret].
  cbn [op notes sector_checks].
  match goal with |- context [pre_wipe_checks env ?s1] => set (s := s1) end.
  destruct (returns_pre_wipe_checks env He s) as [ok Hok].
  assert (K1 : keeps_status_method IN_PROGRESS (method op0) (snd (pre_wipe_checks env s))).
  { apply (proj1 (proj2 (status_method_kept env _ _))); split; reflexivity. }
  destruct (pre_wipe_checks env s) as [r s2]; simpl in Hok; subst r.
  destruct ok; cbn -[execute_wipe_method post_wipe_verification]; [|apply K1].
  destruct (returns_execute_wipe_method env s2) as [ok Hok].
  assert (K2 : keeps_status_method IN_PROGRESS (method op0) (snd (execute_wipe_method env s2))).
  { apply (proj1 (status_method_kept env _ _)); exact K1. }
  destruct (execute_wipe_method env s2) as [r s3]; simpl in Hok; subst r.
  destruct ok; cbn -[post_wipe_verification]; [|apply K2].
  destruct (returns_post_wipe_verification env s3) as [ok Hok].
  assert (K3 : keeps_status_method IN_PROGRESS (method op0) (snd (post_wipe_verification env s3))).
  { apply (proj2 (proj2 (status_method_kept env _ _))); exact K2. }
  destruct (post_wipe_verification env s3) as [r s4]; simpl in Hok; subst r.
  destruct ok; cbn; apply K3.
Qed.

End WipeFacts.

Module WipeClaims.
Import WipeCore WipeFacts WipeExamples.

(** The recovery branch of [execute_wipe], entered when an exception
    escapes the pre-wipe checks.  The operation is marked [FAILED] and its
    error set to the message.  The strategy becomes [SINGLE_PASS_RANDOM],
    and Phase P2 is run once more, exactly when the lower-cased message
    contains [not supported] and neither [permission denied] nor
    [device busy] / [resource busy] (confidence 0.8 > 0.7).  Every other
    message, a [timeout] one included (confidence 0.7, no alternative),
    leaves the strategy unchanged and the run returns [False]. *)
Lemma recovery_branch : forall env op0 e,
  pre_check_raises env = Some e ->
  let l := lower (exc_str e) in
  let unsupported := negb (contains "permission denied" l) &&
                     negb (contains "device busy" l || contains "resource busy" l) &&
                     contains "not supported" l in
  let (r, s) := run_execute_wipe env op0 in
  status (op s) = FAILED /\ error_message (op s) = Some (exc_str e) /\
  (unsupported = true -> method (op s) = SINGLE_PASS_RANDOM /\ exists b, r = Ok b) /\
  (unsupported = false -> method (op s) = method op0 /\ r = Ok false).
Proof.
  intros env op0 e He; cbv zeta.
  unfold run_execute_wipe, execute_wipe.
  cbv [bind try_except modify_op log ret].
  rewrite (pre_wipe_checks_raises env e _ He).
  unfold diagnose_and_resolve_errors.
  remember (lower (exc_str e)) as l eqn:El.
  destruct (contains "permission denied" l); cbn -[execute_wipe_method];
    [repeat split; discriminate|].
  destruct (contains "device busy" l || contains "resource busy" l); cbn -[execute_wipe_method];
    [repeat split; discriminate|].
  destruct (contains "not supported" l); cbn -[execute_wipe_method].
  2: destruct (contains "timeout" l); cbn; repeat split; discriminate.
  match goal with |- context [execute_wipe_method env ?s4] => set (s := s4) end.
  destruct (returns_execute_wipe_method env s) as [b Hb].
  assert (Hsm : keeps_status_method FAILED SINGLE_PASS_RANDOM (snd (execute_wipe_method env s))).
  { apply (proj1 (status_method_kept env FAILED SINGLE_PASS_RANDOM)); split; reflexivity. }
  assert (Her : keeps_error (Some (exc_str e)) (snd (execute_wipe_method env s))).
  { apply error_kept_dispatch_single_pass; reflexivity. }
  destruct (execute_wipe_method env s) as [r s5]; simpl in *; subst r.
  destruct Hsm as [Hst Hme].
  split; [exact Hst|]; split; [exact Her|]; split.
  - intros _; split; [exact Hme | eauto].
  - intros H; discriminate H.
Qed.

(** C6 (as the code behaves).  Fallback happens only in the recovery
    branch, that is only when an exception escapes the pre-wipe checks.  A
    run whose checks raise nothing keeps the strategy it was prepared with,
    whatever the strategy or the verification report: an unsupported or
    timed-out strategy is not replaced.  In the recovery branch the
    operation ends [FAILED] with the message as its error, only a
    [not supported] message (and none of [permission denied],
    [device busy], [resource busy]) switches to [SINGLE_PASS_RANDOM] and
    runs Phase P2 again, and every other message, [timeout] included, ends
    the run with the strategy unchanged and [False]. *)
Theorem fallback_only_on_escaping_exception : forall env op0,
  (pre_check_raises env = None ->
   method (op (snd (run_execute_wipe env op0))) = method op0) /\
  (forall e, pre_check_raises env = Some e ->
   let l := lower (exc_str e) in
   let unsupported := negb (contains "permission denied" l) &&
                      negb (contains "device busy" l || contains "resource busy" l) &&
                      contains "not supported" l in
   let (r, s) := run_execute_wipe env op0 in
   status (op s) = FAILED /\ error_message (op s) = Some (exc_str e) /\
   (unsupported = true -> method (op s) = SINGLE_PASS_RANDOM /\ exists b, r = Ok b) /\
   (unsupported = false -> method (op s) = method op0 /\ r = Ok false)).
Proof.
  intros env op0; split.
  - apply no_raise_keeps_method.
  - intros e He; exact (recovery_branch env op0 e He).
Qed.

(** C4 (as the code behaves).  A run of [execute_wipe] that ends
    [COMPLETED] never went through the fallback: its pre-wipe checks raised
    nothing and its strategy is the one it was prepared with.  A strategy
    that reports failure is not retried, and the retry of the recovery
    branch leaves the status [FAILED]. *)
Theorem completed_run_has_no_fallback : forall env op0,
  status (op (snd (run_execute_wipe env op0))) = COMPLETED ->
  pre_check_raises env = None /\ method (op (snd (run_execute_wipe env op0))) = method op0.
Proof.
  intros env op0 H.
  destruct (pre_check_raises env) as [e|] eqn:He.
  { rewrite (raised_run_fails env op0 e He) in H; discriminate H. }
  unfold run_execute_wipe, execute_wipe in *.
  cbv [bind try_except modify_op ret] in *.
  split; [reflexivity|].
  cbn [op notes sector_checks] in *.
  match type of H with context [pre_wipe_checks env ?s1] => set (s := s1) in * end.
  destruct (returns_pre_wipe_checks env He s) as [ok Hok].
  assert (K1 : keeps_status_method IN_PROGRESS (method op0) (snd (pre_wipe_checks env s))).
  { apply (proj1 (proj2 (status_method_kept env _ _))); split; reflexivity. }
  destruct (pre_wipe_checks env s) as [r s2]; simpl in Hok; subst r.
  destruct ok; cbn -[execute_wipe_method post_wipe_verification] in H |- *; [|discriminate H].
  destruct (returns_execute_wipe_method env s2) as [ok Hok].
  assert (K2 : keeps_status_method IN_PROGRESS (method op0) (snd (execute_wipe_method env s2))).
  { apply (proj1 (status_method_kept env _ _)); exact K1. }
  destruct (execute_wipe_method env s2) as [r s3]; simpl in Hok; subst r.
  destruct ok; cbn -[post_wipe_verification] in H |- *; [|discriminate H].
  destruct (returns_post_wipe_verification env s3) as [ok Hok].
  assert (K3 : keeps_status_method IN_PROGRESS (method op0) (snd (post_wipe_verification env s3))).
  { apply (proj2 (proj2 (status_method_kept env _ _))); exact K2. }
  destruct (post_wipe_verification env s3) as [r s4]; simpl in Hok; subst r.
  destruct ok; cbn in H |- *; [|discriminate H].
  apply K3.
Qed.

(** C7 (as the code behaves).  For a device whose [size_gb] is a float of
    at least 1, which is what device detection always reports, Phase P3
    checks one sector, at the float offset [0.0].  [f.seek] rejects a float,
    so the check fails whatever the device holds, and verification reports
    failure.  Such a run never ends [COMPLETED]. *)
Theorem float_size_never_verified : forall env op0 q,
  size_gb (device_info op0) = PFloat q -> 1 <= q ->
  (forall s, device_info (op s) = device_info op0 ->
     fst (post_wipe_verification env s) = Ok false /\
     exists x, sector_checks (snd (post_wipe_verification env s)) = (sector_checks s ++ [PFloat x])%list /\
               x == 0) /\
  status (op (snd (run_execute_wipe env op0))) <> COMPLETED.
Proof.
  intros env op0 q Hq H1; split.
  - intros s Hd; apply post_wipe_verification_float with q; [rewrite Hd|]; assumption.
  - intros Hc; destruct (completed_run_verified env op0 Hc) as [s [Hd Hp]].
    destruct (post_wipe_verification_float env s q) as [Hf _]; [rewrite Hd; exact Hq | exact H1 |].
    congruence.
Qed.

(** C8 (amended).  Progress is a percentage.  Every value passed to the
    progress callbacks during a run, and the stored [progress] after it,
    lie in [0, 100].  This holds when the stored progress starts in that
    range, the size is not negative, and the clock readings of the polling
    loops are not negative. *)
Theorem progress_stays_percent : forall env op0,
  0 <= progress op0 <= 100 ->
  0 <= py_val (size_gb (device_info op0)) ->
  (forall c e, In e (polls env c) -> 0 <= e) ->
  Forall (fun p => 0 <= p <= 100) (notes (snd (run_execute_wipe env op0))) /\
  0 <= progress (op (snd (run_execute_wipe env op0))) <= 100.
Proof.
  intros env op0 Hp Hs Hpolls.
  assert (H : progress_ok (snd (run_execute_wipe env op0))).
  { apply (range_execute_wipe env Hpolls).
    split; [exact Hp | split; [constructor | exact Hs]]. }
  destruct H as (H1 & H2 & _); split; [exact H2 | exact H1].
Qed.

(** C10.  For a device of less than 1 GB, Phase P3 samples no sector and
    reports success without reading the device.  A whole run inspects no
    sector.  A run whose checks find the device present and unmounted, and
    whose random overwrite exits 0, ends [COMPLETED]. *)
Theorem small_device_never_inspected : forall env op0,
  0 <= py_val (size_gb (device_info op0)) < 1 ->
  (forall s, device_info (op s) = device_info op0 ->
     fst (post_wipe_verification env s) = Ok true /\
     sector_checks (snd (post_wipe_verification env s)) = sector_checks s) /\
  sector_checks (snd (run_execute_wipe env op0)) = [] /\
  (pre_check_raises env = None -> path_exists env = true -> is_mounted env = false ->
   method op0 = SINGLE_PASS_RANDOM -> (exists err, run env DdRandom = Exit 0 err) ->
   fst (run_execute_wipe env op0) = Ok true /\
   status (op (snd (run_execute_wipe env op0))) = COMPLETED).
Proof.
  intros env op0 Hs.
  assert (Hpost : forall s, device_info (op s) = device_info op0 ->
     fst (post_wipe_verification env s) = Ok true /\
     sector_checks (snd (post_wipe_verification env s)) = sector_checks s).
  { intros s Hd; destruct (post_wipe_verification_small env s) as (A & B & _);
      [rewrite Hd; exact Hs | split; assumption]. }
  split; [exact Hpost | split].
  - set (Inv := fun s : St => sector_checks s = [] /\ device_info (op s) = device_info op0).
    assert (HI : Inv (snd (run_execute_wipe env op0))).
    { unfold run_execute_wipe; apply (whole_execute_wipe env Inv); unfold Inv.
      - apply frame_pre_wipe_checks; frame_close.
      - apply frame_execute_wipe_method; frame_close.
      - intros s [Hc Hd]; split.
        + rewrite (proj2 (Hpost s Hd)); exact Hc.
        + apply (proj2 (proj2 (device_kept env _))); exact Hd.
      - intros f s Hf [Hc Hd]; split; [exact Hc|]; cbn.
        destruct (Hf (op s)) as [[E _]|E]; [rewrite E; exact Hd | subst f; exact Hd].
      - intros s [Hc Hd]; split; assumption.
      - split; reflexivity. }
    exact (proj1 HI).
  - intros H1 H2 H3 Hm [err Hr].
    apply run_completes; [exact H1 | exact H2 | exact H3 | |].
    + intros s Hms; apply single_pass_dispatch_succeeds with err; [congruence | exact Hr].
    + intros s Hd; exact (proj1 (Hpost s Hd)).
Qed.

(** A completed run: the 0.5 GB stick, overwritten once with random data. *)
Lemma completed_run_has_no_fallback_witness :
  status (op (snd (run_execute_wipe env_ok (fresh_op small_stick SINGLE_PASS_RANDOM)))) = COMPLETED /\
  pre_check_raises env_ok = None /\
  method (op (snd (run_execute_wipe env_ok (fresh_op small_stick SINGLE_PASS_RANDOM)))) =
    method (fresh_op small_stick SINGLE_PASS_RANDOM).
Proof.
  split; [vm_compute; reflexivity|].
  apply completed_run_has_no_fallback; vm_compute; reflexivity.
Defined.

(** C6.  An error classified as a timeout reaches the recovery branch and
    no fallback is tried.  A drive refusing the ATA erase as unsupported
    ends the run [FAILED] with the strategy unchanged, no fallback, and no
    error recorded. *)
Lemma recovery_counterexample :
  (let (r, s) := run_execute_wipe (env_raises "Operation timeout")
                   (fresh_op Examples.hdd_plain MULTIPASS_OVERWRITE) in
   r = Ok false /\ status (op s) = FAILED /\ method (op s) = MULTIPASS_OVERWRITE) /\
  (let (r, s) := run_execute_wipe env_ata_unsupported (fresh_op hdd_int ATA_SECURE_ERASE) in
   r = Ok false /\ status (op s) = FAILED /\ method (op s) = ATA_SECURE_ERASE /\
   error_message (op s) = None).
Proof. vm_compute; repeat split. Qed.

(** The drive that refuses the ATA erase keeps its strategy, and an
    error message naming an unsupported operation, raised out of the
    checks, switches to the random overwrite. *)
Lemma fallback_only_on_escaping_exception_witness :
  method (op (snd (run_execute_wipe env_ata_unsupported (fresh_op hdd_int ATA_SECURE_ERASE)))) =
    ATA_SECURE_ERASE /\
  (let (r, s) := run_execute_wipe (env_raises "SG_IO: SECURITY ERASE not supported")
                   (fresh_op hdd_int ATA_SECURE_ERASE) in
   status (op s) = FAILED /\
   error_message (op s) = Some "SG_IO: SECURITY ERASE not supported" /\
   (true = true -> method (op s) = SINGLE_PASS_RANDOM /\ exists b, r = Ok b) /\
   (true = false -> method (op s) = ATA_SECURE_ERASE /\ r = Ok false)).
Proof.
  split.
  - exact (proj1 (fallback_only_on_escaping_exception env_ata_unsupported
                    (fresh_op hdd_int ATA_SECURE_ERASE)) eq_refl).
  - exact (proj2 (fallback_only_on_escaping_exception
                    (env_raises "SG_IO: SECURITY ERASE not supported")
                    (fresh_op hdd_int ATA_SECURE_ERASE))
                 (OtherError "SG_IO: SECURITY ERASE not supported") eq_refl).
Defined.

(** The 500 GB disk as detection reports it, with [size_gb = 500.0]. *)
Lemma float_size_never_verified_witness :
  let op0 := fresh_op Examples.hdd_plain MULTIPASS_OVERWRITE in
  (forall s, device_info (op s) = device_info op0 ->
     fst (post_wipe_verification env_ok s) = Ok false /\
     exists x, sector_checks (snd (post_wipe_verification env_ok s)) = (sector_checks s ++ [PFloat x])%list /\
               x == 0) /\
  status (op (snd (run_execute_wipe env_ok op0))) <> COMPLETED.
Proof.
  apply (float_size_never_verified env_ok (fresh_op Examples.hdd_plain MULTIPASS_OVERWRITE) 500);
    [reflexivity | vm_compute; discriminate].
Defined.

(** C8.  A random overwrite of the 0.5 GB stick reports 10, then 2 from
    the [dd] monitor, then 90 and 100: the values are percentages, not
    fractions of 1, and they go down while the operation runs. *)
Lemma progress_counterexample :
  notes (snd (run_execute_wipe env_ok (fresh_op small_stick SINGLE_PASS_RANDOM))) = [10; 2; 90; 100] /\
  progress (op (snd (run_execute_wipe env_ok (fresh_op small_stick SINGLE_PASS_RANDOM)))) = 100.
Proof. vm_compute; split; reflexivity. Qed.

Lemma progress_stays_percent_witness :
  Forall (fun p => 0 <= p <= 100)
    (notes (snd (run_execute_wipe env_ok (fresh_op small_stick SINGLE_PASS_RANDOM)))) /\
  0 <= progress (op (snd (run_execute_wipe env_ok (fresh_op small_stick SINGLE_PASS_RANDOM)))) <= 100.
Proof.
  apply progress_stays_percent.
  - vm_compute; split; discriminate.
  - vm_compute; discriminate.
  - intros c e He; destruct He.
Defined.

Lemma small_device_never_inspected_witness :
  let op0 := fresh_op small_stick SINGLE_PASS_RANDOM in
  (forall s, device_info (op s) = device_info op0 ->
     fst (post_wipe_verification env_ok s) = Ok true /\
     sector_checks (snd (post_wipe_verification env_ok s)) = sector_checks s) /\
  sector_checks (snd (run_execute_wipe env_ok op0)) = [] /\
  (pre_check_raises env_ok = None -> path_exists env_ok = true -> is_mounted env_ok = false ->
   method op0 = SINGLE_PASS_RANDOM -> (exists err, run env_ok DdRandom = Exit 0 err) ->
   fst (run_execute_wipe env_ok op0) = Ok true /\
   status (op (snd (run_execute_wipe env_ok op0))) = COMPLETED).
Proof.
  apply (small_device_never_inspected env_ok (fresh_op small_stick SINGLE_PASS_RANDOM)).
  vm_compute; split; [discriminate | reflexivity].
Defined.

End WipeClaims.

(* ================================================================== *)
(** ** Part III: further properties of the code *)
(* ================================================================== *)

(** *** Text scanning in [AIWipeEngine] *)

Module ScanFacts.
Import WipeCore Detect.

Definition all_digits (s : string) : bool := forallb is_digit (list_ascii_of_string s).

Definition no_digit (s : string) : bool :=
  forallb (fun c => negb (is_digit c)) (list_ascii_of_string s).

(** The text after [s] does not go on with a digit. *)
Definition digit_stop (r : string) : bool :=
  match r with String c _ => negb (is_digit c) | EmptyString => true end.

Definition num_dot_stop (r : string) : bool :=
  match r with String c _ => negb (is_num_dot c) | EmptyString => true end.

Lemma upper_app : forall a b, upper (a ++ b) = (upper a ++ upper b)%string.
Proof. induction a as [|c a IH]; intros b; cbn; [reflexivity | now rewrite IH]. Qed.

Lemma lower_app : forall a b, lower (a ++ b) = (lower a ++ lower b)%string.
Proof. induction a as [|c a IH]; intros b; cbn; [reflexivity | now rewrite IH]. Qed.

Lemma digit_range : forall c, is_digit c = true ->
  (48 <= nat_of_ascii c <= 57)%nat.
Proof.
  intros c H; unfold is_digit in H; apply andb_true_iff in H as [H1 H2].
  apply Nat.leb_le in H1; apply Nat.leb_le in H2; lia.
Qed.

Lemma upper_char_digit : forall c, is_digit c = true -> upper_char c = c.
Proof.
  intros c H; apply digit_range in H; unfold upper_char.
  destruct (Nat.leb 97 (nat_of_ascii c)) eqn:E; [apply Nat.leb_le in E; lia | reflexivity].
Qed.

Lemma lower_char_digit : forall c, is_digit c = true -> lower_char c = c.
Proof.
  intros c H; apply digit_range in H; unfold lower_char.
  destruct (Nat.leb 65 (nat_of_ascii c)) eqn:E; [apply Nat.leb_le in E; lia | reflexivity].
Qed.

Lemma lower_char_no_digit : forall c, is_digit c = false -> is_digit (lower_char c) = false.
Proof.
  intros c H; unfold lower_char.
  destruct (Nat.leb 65 (nat_of_ascii c) && Nat.leb (nat_of_ascii c) 90) eqn:E; [|exact H].
  apply andb_true_iff in E as [E1 E2]; apply Nat.leb_le in E1; apply Nat.leb_le in E2.
  unfold is_digit; rewrite nat_ascii_embedding by lia.
  destruct (Nat.leb (nat_of_ascii c + 32) 57) eqn:E3; [apply Nat.leb_le in E3; lia|].
  apply andb_false_r.
Qed.

Lemma upper_char_fixed : forall c, Nat.leb 97 (nat_of_ascii c) = false -> upper_char c = c.
Proof. intros c H; unfold upper_char; rewrite H; reflexivity. Qed.

Lemma upper_digits : forall s, all_digits s = true -> upper s = s.
Proof.
  induction s as [|c s IH]; intros H; [reflexivity|].
  cbn in H; apply andb_true_iff in H as [H1 H2]; cbn.
  rewrite upper_char_digit, IH; auto.
Qed.

Lemma lower_digits : forall s, all_digits s = true -> lower s = s.
Proof.
  induction s as [|c s IH]; intros H; [reflexivity|].
  cbn in H; apply andb_true_iff in H as [H1 H2]; cbn.
  rewrite lower_char_digit, IH; auto.
Qed.

Lemma lower_no_digit : forall s, no_digit s = true -> no_digit (lower s) = true.
Proof.
  unfold no_digit; induction s as [|c s IH]; intros H; [reflexivity|].
  cbn in H |- *; apply andb_true_iff in H as [H1 H2].
  rewrite negb_true_iff in H1; rewrite lower_char_no_digit, IH; auto.
Qed.

Lemma span_digits_app : forall a r, all_digits a = true -> digit_stop r = true ->
  span_digits (a ++ r) = (a, r).
Proof.
  induction a as [|c a IH]; intros r Ha Hr.
  - destruct r as [|c r]; [reflexivity|]; cbn in Hr |- *.
    rewrite negb_true_iff in Hr; rewrite Hr; reflexivity.
  - cbn in Ha |- *; apply andb_true_iff in Ha as [H1 H2].
    rewrite H1, IH; auto.
Qed.

Lemma span_num_dot_app : forall a r, forallb is_num_dot (list_ascii_of_string a) = true ->
  num_dot_stop r = true -> span_num_dot (a ++ r) = (a, r).
Proof.
  induction a as [|c a IH]; intros r Ha Hr.
  - destruct r as [|c r]; [reflexivity|]; cbn in Hr |- *.
    rewrite negb_true_iff in Hr; rewrite Hr; reflexivity.
  - cbn in Ha |- *; apply andb_true_iff in Ha as [H1 H2].
    rewrite H1, IH; auto.
Qed.

Lemma all_digits_num_dot : forall a, all_digits a = true ->
  forallb is_num_dot (list_ascii_of_string a) = true.
Proof.
  induction a as [|c a IH]; intros H; [reflexivity|].
  cbn in H |- *; apply andb_true_iff in H as [H1 H2].
  apply andb_true_iff; split; [unfold is_num_dot; rewrite H1; reflexivity | apply IH, H2].
Qed.

Lemma contains_char : forall c s,
  contains (String c EmptyString) s = existsb (Ascii.eqb c) (list_ascii_of_string s).
Proof.
  intros c; induction s as [|d s IH]; [reflexivity|].
  cbn [contains list_ascii_of_string existsb]; rewrite IH.
  cbn [String.prefix]; destruct (ascii_dec c d) as [E|E].
  - subst; rewrite Ascii.eqb_refl; destruct s; reflexivity.
  - apply Ascii.eqb_neq in E; rewrite E; reflexivity.
Qed.

Lemma list_ascii_app : forall a b,
  list_ascii_of_string (a ++ b) = (list_ascii_of_string a ++ list_ascii_of_string b)%list.
Proof. induction a as [|c a IH]; intros b; cbn; [reflexivity | now rewrite IH]. Qed.

(** A letter is no digit: it is found in digits nowhere. *)
Lemma existsb_letter_digits : forall u s, is_digit u = false -> all_digits s = true ->
  existsb (Ascii.eqb u) (list_ascii_of_string s) = false.
Proof.
  intros u; induction s as [|c s IH]; intros Hu Hs; [reflexivity|].
  cbn in Hs |- *; apply andb_true_iff in Hs as [H1 H2].
  rewrite IH by assumption.
  destruct (Ascii.eqb u c) eqn:E; [apply Ascii.eqb_eq in E; subst; congruence | reflexivity].
Qed.

Lemma digits_value_acc_nonneg : forall s acc, all_digits s = true -> (0 <= acc)%Z ->
  (0 <= digits_value_acc acc s)%Z.
Proof.
  induction s as [|c s IH]; intros acc Hs Ha; [exact Ha|].
  cbn in Hs |- *; apply andb_true_iff in Hs as [H1 H2].
  apply digit_range in H1; apply IH; [exact H2|lia].
Qed.

Lemma span_digits_digits : forall s, all_digits (fst (span_digits s)) = true.
Proof.
  induction s as [|c s IH]; [reflexivity|]; cbn.
  destruct (is_digit c) eqn:E; [|reflexivity].
  destruct (span_digits s) as [d r]; cbn in *; rewrite E, IH; reflexivity.
Qed.

Lemma inject_Z_nonneg : forall z, (0 <= z)%Z -> 0 <= inject_Z z.
Proof. intros z H; unfold Qle; cbn; lia. Qed.

Lemma float_of_run_nonneg : forall t x, float_of_run t = Some x -> 0 <= x.
Proof.
  intros t x; unfold float_of_run.
  pose proof (span_digits_digits t) as Da.
  destruct (span_digits t) as [a rest]; cbn in Da.
  assert (Va : 0 <= inject_Z (digits_value a)).
  { apply inject_Z_nonneg, digits_value_acc_nonneg; [exact Da | lia]. }
  destruct rest as [|c r].
  - remember (inject_Z (digits_value a)) as A eqn:EA; clear EA.
    destruct a; intros H; inversion H; subst; exact Va.
  - destruct (Ascii.eqb c "."); [|discriminate].
    pose proof (span_digits_digits r) as Db.
    destruct (span_digits r) as [b rest2]; cbn in Db.
    assert (Vb : 0 <= inject_Z (digits_value b)).
    { apply inject_Z_nonneg, digits_value_acc_nonneg; [exact Db | lia]. }
    assert (Vp : 0 < inject_Z (10 ^ Z.of_nat (String.length b))).
    { unfold Qlt; cbn; pose proof (Z.pow_pos_nonneg 10 (Z.of_nat (String.length b))); lia. }
    assert (Vd : 0 <= inject_Z (digits_value b) / inject_Z (10 ^ Z.of_nat (String.length b))).
    { apply Qle_shift_div_l; [exact Vp|]. rewrite Qmult_0_l; exact Vb. }
    remember (inject_Z (digits_value a)) as A eqn:EA.
    remember (inject_Z (digits_value b) / inject_Z (10 ^ Z.of_nat (String.length b))) as B eqn:EB.
    clear EA EB; destruct rest2, a, b; intros H; inversion H; subst; lra.
Qed.

Lemma span_digits_all : forall b, all_digits b = true -> span_digits b = (b, EmptyString).
Proof.
  induction b as [|c b IH]; intros H; [reflexivity|].
  cbn in H |- *; apply andb_true_iff in H as [H1 H2]; rewrite H1, IH; auto.
Qed.

Lemma first_num_run_app : forall x r, x <> EmptyString ->
  forallb is_num_dot (list_ascii_of_string x) = true -> num_dot_stop r = true ->
  first_num_run (x ++ r) = Some x.
Proof.
  intros [|c x] r Hx H Hr; [congruence|].
  cbn [append first_num_run]. cbn in H; apply andb_true_iff in H as [H1 H2].
  rewrite H1. f_equal.
  change (String c (x ++ r)) with (String c x ++ r)%string.
  rewrite span_num_dot_app; [reflexivity| |exact Hr].
  cbn; rewrite H1, H2; reflexivity.
Qed.

Lemma contains_unit_int : forall x y a, is_digit x = false -> all_digits a = true ->
  contains (String x EmptyString) (a ++ String y EmptyString) = Ascii.eqb x y.
Proof.
  intros x y a Hx Ha.
  rewrite contains_char, list_ascii_app, existsb_app, existsb_letter_digits by assumption.
  cbn; destruct (Ascii.eqb x y); reflexivity.
Qed.

Lemma contains_unit_dec : forall x y a b, is_digit x = false -> Ascii.eqb x "." = false ->
  all_digits a = true -> all_digits b = true ->
  contains (String x EmptyString) (a ++ String "." (b ++ String y EmptyString)) = Ascii.eqb x y.
Proof.
  intros x y a b Hx Hd Ha Hb.
  rewrite contains_char, list_ascii_app, existsb_app, (existsb_letter_digits x a) by assumption.
  cbn [list_ascii_of_string existsb orb]. rewrite Hd.
  rewrite list_ascii_app, existsb_app, existsb_letter_digits by assumption.
  cbn; destruct (Ascii.eqb x y); reflexivity.
Qed.

Lemma float_of_run_int : forall a, all_digits a = true -> a <> EmptyString ->
  float_of_run a = Some (inject_Z (digits_value a)).
Proof.
  intros a Ha Hne; unfold float_of_run; rewrite span_digits_all by exact Ha.
  destruct a; [congruence | reflexivity].
Qed.

Lemma float_of_run_dec : forall a b, all_digits a = true -> a <> EmptyString -> all_digits b = true ->
  float_of_run (a ++ String "." b) =
  Some (inject_Z (digits_value a) + inject_Z (digits_value b) / inject_Z (10 ^ Z.of_nat (String.length b))).
Proof.
  intros a b Ha Hne Hb; unfold float_of_run.
  rewrite span_digits_app by (exact Ha || reflexivity).
  cbn [Ascii.eqb]. rewrite span_digits_all by exact Hb.
  destruct a; [congruence | reflexivity].
Qed.

End ScanFacts.

Module SizeProps.
Import WipeCore Detect ScanFacts.

(** X1.  [_parse_size_to_gb] reads the sizes [lsblk] prints: a run of
    digits, with or without a fractional part, followed by one of the
    units [K], [M], [G] or [T], gives the number times the unit's
    multiplier. *)
Theorem parse_size_to_gb_reads_number : forall a b u m,
  all_digits a = true -> a <> EmptyString -> all_digits b = true -> In (u, m) multipliers ->
  parse_size_to_gb (a ++ u) = Some (inject_Z (digits_value a) * m) /\
  parse_size_to_gb (a ++ "." ++ b ++ u) =
    Some ((inject_Z (digits_value a) +
           inject_Z (digits_value b) / inject_Z (10 ^ Z.of_nat (String.length b))) * m).
Proof.
  intros a b u m Ha Hne Hb Hin.
  assert (R1 : forall y, Ascii.eqb y "." = false -> is_digit y = false ->
            first_num_run (a ++ String y EmptyString) = Some a).
  { intros y Hy Hy'.
    apply first_num_run_app; [exact Hne | apply all_digits_num_dot, Ha |].
    cbn; unfold is_num_dot; rewrite Hy, Hy'; reflexivity. }
  assert (R2 : forall y, Ascii.eqb y "." = false -> is_digit y = false ->
            first_num_run (a ++ String "." (b ++ String y EmptyString)) = Some (a ++ String "." b)).
  { intros y Hy Hy'.
    change (a ++ String "." (b ++ String y EmptyString))%string
      with (a ++ (String "." b ++ String y EmptyString))%string.
    rewrite <- (JsonFacts.sapp_assoc a (String "." b) (String y EmptyString)).
    apply first_num_run_app; [destruct a; [congruence|discriminate] | |].
    + rewrite list_ascii_app, forallb_app, all_digits_num_dot by exact Ha.
      cbn; rewrite all_digits_num_dot by exact Hb; reflexivity.
    + cbn; unfold is_num_dot; rewrite Hy, Hy'; reflexivity. }
  destruct Hin as [E|[E|[E|[E|[]]]]]; injection E as <- <-;
    split; unfold parse_size_to_gb; cbv beta iota zeta delta [multipliers];
    rewrite ?upper_app, (upper_digits a Ha), ?(upper_digits b Hb);
    cbn [upper]; rewrite !upper_char_fixed by reflexivity; cbn [append];
    rewrite ?contains_unit_int, ?contains_unit_dec by (reflexivity || assumption);
    cbn [Ascii.eqb Bool.eqb andb];
    first [rewrite R1, float_of_run_int by (reflexivity || assumption)
          | rewrite R2, float_of_run_dec by (reflexivity || assumption)];
    reflexivity.
Qed.

(** X2.  [_parse_size_to_gb] never gives a negative size: the digits
    it reads are unsigned, the multipliers positive, and a size without a
    unit is [0.0]. *)
Theorem parse_size_to_gb_nonneg : forall s q, parse_size_to_gb s = Some q -> 0 <= q.
Proof.
  intros s q H; unfold parse_size_to_gb in H; cbv beta iota zeta delta [multipliers] in H.
  destruct (first_num_run (upper s)) as [t|];
    [destruct (float_of_run t) as [x|] eqn:Ex|];
    repeat match type of H with context [if ?b then _ else _] => destruct b end;
    try discriminate H; injection H as <-;
    try (pose proof (float_of_run_nonneg t x Ex)); lra.
Qed.

End SizeProps.

(** *** Device detection *)

Module DetectFacts.
Import Json WipeCore Detect ScanFacts.

Lemma analyze_device_fields : forall host cls cs dd x,
  analyze_device host cls cs dd = Some x ->
  d_features x = get_device_features host (d_device_path x) /\
  d_device_type x = classify_device_type cls (d_features x) /\
  d_encryption_status x = check_encryption host (d_device_path x) /\
  d_hpa_dco_present x = check_hpa_dco host (d_device_path x) /\
  (exists name, jget dd "name" = Some name /\ d_device_path x = ("/dev/" ++ fstr cs name)%string).
Proof.
  intros host cls cs dd x H; unfold analyze_device in H.
  destruct (jget dd "name") as [name|]; [|discriminate].
  destruct (jget_default dd "size" (JStr "0B")); try discriminate.
  destruct (parse_size_to_gb s); [|discriminate].
  injection H as <-; cbn; repeat split; eauto.
Qed.

Lemma to_device_info_fields : forall x d, to_device_info x = Some d ->
  device_path d = d_device_path x /\ device_type d = d_device_type x /\
  size_gb d = PFloat (d_size_gb x) /\ encryption_status d = d_encryption_status x /\
  hpa_dco_present d = d_hpa_dco_present x /\
  secure_erase_supported d = d_secure_erase_supported x.
Proof.
  intros x d H; unfold to_device_info in H.
  destruct (d_model x), (d_serial x), (d_interface x); try discriminate.
  injection H as <-; cbn; repeat split.
Qed.

Lemma scan_devices_sound : forall host cls cs l x, In x (scan_devices host cls cs l) ->
  exists dd, In (JObj dd) l /\ is_disk dd = true /\ analyze_device host cls cs dd = Some x.
Proof.
  intros host cls cs l x; induction l as [|v l IH]; cbn; [intros []|].
  destruct v as [| | | | |dd]; try (intros []).
  destruct (is_disk dd) eqn:Ed.
  - destruct (analyze_device host cls cs dd) as [y|] eqn:Ea.
    + intros [<-|H]; [exists dd; auto|].
      destruct (IH H) as [dd' (H1 & H2 & H3)]; exists dd'; auto.
    + intros H; destruct (IH H) as [dd' (H1 & H2 & H3)]; exists dd'; auto.
  - intros H; destruct (IH H) as [dd' (H1 & H2 & H3)]; exists dd'; auto.
Qed.

Lemma lower_rpm : forall q, lower (" rpm" ++ q) = (" rpm" ++ lower q)%string.
Proof. reflexivity. Qed.

Lemma search_rpm_skip : forall x y, no_digit x = true ->
  search rpm_at (x ++ y) = search rpm_at y.
Proof.
  induction x as [|c x IH]; intros y H; [reflexivity|].
  cbn in H; apply andb_true_iff in H as [H1 H2]; rewrite negb_true_iff in H1.
  cbn [append search]. unfold rpm_at at 1; cbn [span_digits]; rewrite H1.
  apply IH, H2.
Qed.

Lemma search_rpm_run : forall d r, all_digits d = true -> d <> EmptyString ->
  search rpm_at (d ++ " rpm" ++ r) = Some d.
Proof.
  intros d r Hd Hne.
  assert (E : rpm_at (d ++ " rpm" ++ r) = Some d).
  { unfold rpm_at; rewrite span_digits_app by (exact Hd || reflexivity).
    destruct d; [congruence|]; cbn; destruct r; reflexivity. }
  destruct d as [|c d]; [congruence|].
  cbn [append search] in E |- *; rewrite E; reflexivity.
Qed.

Lemma pre_wipe_checks_hpa env s :
  pre_check_raises env = None -> path_exists env = true -> is_mounted env = false ->
  hpa_dco_present (device_info (op s)) = true ->
  In "Removing HPA/DCO" (operation_log (op (snd (pre_wipe_checks env s)))).
Proof.
  intros H1 H2 H3 H4.
  cbv [pre_wipe_checks dev_path bind get_op log modify_op ret notify]; rewrite H1, H2, H3; cbn.
  rewrite H4; destruct (hpa_removed env); destruct (pre_sample env); cbn;
    rewrite ?in_app_iff; cbn; tauto.
Qed.

End DetectFacts.

Module DetectProps.
Import Json WipeCore Detect ScanFacts DetectFacts.

(** X3.  [_analyze_device] gives [None] exactly when the record has no
    [name], its [size] is not a string, or that string has a unit and a
    number [float] rejects; the commands it then runs never make it
    fail. *)
Theorem analyze_device_none_iff : forall host cls cs dd,
  analyze_device host cls cs dd = None <->
  jget dd "name" = None \/
  match jget_default dd "size" (JStr "0B") with
  | JStr s => parse_size_to_gb s = None
  | _ => True
  end.
Proof.
  intros host cls cs dd; unfold analyze_device.
  destruct (jget dd "name") as [name|]; [|split; auto].
  destruct (jget_default dd "size" (JStr "0B")); try (split; auto; fail).
  destruct (parse_size_to_gb s); split; auto; [discriminate | intros [H|H]; discriminate].
Qed.

(** X4.  In the [blockdevices] list, an entry that is not a dict ends
    the scan: the devices before it are returned and every later disk is
    dropped. *)
Theorem scan_devices_stops_at_non_dict : forall host cls cs l1 v l2,
  (forall d, v <> JObj d) ->
  scan_devices host cls cs (l1 ++ v :: l2) = scan_devices host cls cs l1.
Proof.
  intros host cls cs l1 v l2 Hv; induction l1 as [|x l1 IH]; cbn.
  - destruct v; try reflexivity; exfalso; eapply Hv; reflexivity.
  - destruct x as [| | | | |dd]; try reflexivity.
    destruct (is_disk dd); [destruct (analyze_device host cls cs dd)|]; rewrite ?IH; reflexivity.
Qed.

(** X5.  Every device [detect_devices] returns is the analysis of a
    [disk] entry of the [blockdevices] list of the [lsblk] document, and
    its path is [/dev/] followed by the entry's [name]. *)
Theorem detect_devices_sound : forall host cls cs x,
  In x (detect_devices host cls cs) ->
  exists top l dd name,
    lsblk_json host = Some (JObj top) /\
    jget_default top "blockdevices" (JArr []) = JArr l /\
    In (JObj dd) l /\ is_disk dd = true /\
    analyze_device host cls cs dd = Some x /\
    jget dd "name" = Some name /\ d_device_path x = ("/dev/" ++ fstr cs name)%string.
Proof.
  intros host cls cs x H; unfold detect_devices in H.
  destruct (lsblk_json host) as [[| | | | |top]|] eqn:Et; try (destruct H).
  destruct (jget_default top "blockdevices" (JArr [])) as [| | | |l|] eqn:El; try (destruct H).
  destruct (scan_devices_sound _ _ _ _ _ H) as [dd (H1 & H2 & H3)].
  destruct (analyze_device_fields _ _ _ _ _ H3) as (_ & _ & _ & _ & name & Hn & Hp).
  exists top, l, dd, name; repeat split; auto.
Qed.

(** X6.  A device whose [smartctl -a] cannot be run gets no features:
    its feature vector is [0, 0, 0, 0, 25] and, without a classifier, the
    rules make it [UNKNOWN]. *)
Theorem no_smartctl_features : forall host path msg,
  smartctl_a host path = NotRun msg ->
  get_device_features host path = no_features /\
  extract_feature_vector (get_device_features host path) = map PFloat [0; 0; 0; 0; 25] /\
  classify_device_type None (get_device_features host path) = UNKNOWN.
Proof.
  intros host path msg H; unfold get_device_features; rewrite H.
  split; [reflexivity | split; reflexivity].
Qed.

(** X7.  The rotation-speed feature is the first number of the SMART
    report followed by [rpm]: a report reading [p], then digits [d],
    then [" rpm"], with no digit in [p], gives [float(d)]. *)
Theorem rotation_speed_feature : forall f p d q,
  no_digit p = true -> all_digits d = true -> d <> EmptyString ->
  smart_data f = Some (p ++ d ++ " rpm" ++ q)%string ->
  hd (PFloat 0) (extract_feature_vector f) = PFloat (inject_Z (digits_value d)).
Proof.
  intros f p d q Hp Hd Hne Hs.
  unfold extract_feature_vector; rewrite Hs; cbn [get_or_empty map hd].
  rewrite lower_app, lower_app, lower_rpm, (lower_digits d Hd).
  rewrite search_rpm_skip by (apply lower_no_digit, Hp).
  rewrite search_rpm_run by assumption; reflexivity.
Qed.

(** X8.  [_check_hpa_dco] flags any [hdparm -N] report that mentions
    [hpa], [dco] or [protected] in any case, such as one saying the HPA
    is disabled; the detected device then carries [hpa_dco_present], and
    the pre-wipe checks log ["Removing HPA/DCO"] for it. *)
Theorem hpa_mention_triggers_removal : forall host cls cs dd x d rc out env s,
  analyze_device host cls cs dd = Some x -> to_device_info x = Some d ->
  hdparm_N host (d_device_path x) = Ran rc out -> contains "hpa" (lower out) = true ->
  device_info (op s) = d ->
  pre_check_raises env = None -> path_exists env = true -> is_mounted env = false ->
  hpa_dco_present d = true /\
  In "Removing HPA/DCO" (operation_log (op (snd (pre_wipe_checks env s)))).
Proof.
  intros host cls cs dd x d rc out env s Ha Ht Hn Hc Hd H1 H2 H3.
  destruct (analyze_device_fields _ _ _ _ _ Ha) as (_ & _ & _ & Hh & _).
  destruct (to_device_info_fields _ _ Ht) as (_ & _ & _ & _ & Hh' & _).
  assert (E : hpa_dco_present d = true).
  { rewrite Hh', Hh; unfold check_hpa_dco; rewrite Hn, Hc; reflexivity. }
  split; [exact E|].
  apply pre_wipe_checks_hpa; [exact H1 | exact H2 | exact H3 | rewrite Hd; exact E].
Qed.

End DetectProps.

(** *** The unmount helper *)

Module UnmountFacts.
Import WipeCore Detect Helpers.

Definition has_backslash (s : string) : bool :=
  existsb (Ascii.eqb Json.backslash) (list_ascii_of_string s).

Lemma split_no_backslash : forall s, has_backslash s = false -> split_backslash_n s = [s].
Proof.
  unfold has_backslash; induction s as [|c r IH]; intros H; [reflexivity|].
  cbn [list_ascii_of_string existsb] in H; apply orb_false_iff in H as [H1 H2].
  rewrite Ascii.eqb_sym in H1.
  destruct r as [|c2 r2]; [reflexivity|].
  change (split_backslash_n (String c (String c2 r2))) with
    (if Ascii.eqb c Json.backslash && Ascii.eqb c2 "n" then EmptyString :: split_backslash_n r2
     else cons_head c (split_backslash_n (String c2 r2))).
  rewrite H1; cbn [andb]; rewrite IH by exact H2; reflexivity.
Qed.

Lemma lstrip_no_backslash : forall s, has_backslash s = false -> has_backslash (lstrip s) = false.
Proof.
  unfold has_backslash; induction s as [|c r IH]; intros H; [reflexivity|].
  cbn [lstrip]; destruct (is_space c); [|exact H].
  cbn [list_ascii_of_string existsb] in H; apply orb_false_iff in H as [_ H]; apply IH, H.
Qed.

Lemma rstrip_no_backslash : forall s, has_backslash s = false -> has_backslash (rstrip s) = false.
Proof.
  unfold has_backslash; induction s as [|c r IH]; intros H; [reflexivity|].
  cbn [list_ascii_of_string existsb] in H; apply orb_false_iff in H as [H1 H2].
  specialize (IH H2); cbn [rstrip].
  destruct (rstrip r) as [|c' r'].
  - destruct (is_space c); cbn [list_ascii_of_string existsb]; [reflexivity | rewrite H1; reflexivity].
  - cbn [list_ascii_of_string existsb] in IH |- *; rewrite H1, IH; reflexivity.
Qed.

Lemma rstrip_idem : forall s, rstrip (rstrip s) = rstrip s.
Proof.
  induction s as [|c r IH]; [reflexivity|].
  cbn [rstrip]; destruct (rstrip r) as [|c' r'] eqn:E.
  - destruct (is_space c) eqn:Ec; cbn; [reflexivity | rewrite Ec; reflexivity].
  - cbn [rstrip] in IH |- *; rewrite IH; reflexivity.
Qed.

Lemma rstrip_head : forall c r, is_space c = false -> exists r', rstrip (String c r) = String c r'.
Proof.
  intros c r Hc; cbn [rstrip]; destruct (rstrip r); [rewrite Hc|]; eexists; reflexivity.
Qed.

Lemma lstrip_head : forall s, lstrip s = EmptyString \/
  exists c r, lstrip s = String c r /\ is_space c = false.
Proof.
  induction s as [|c r IH]; [left; reflexivity|].
  cbn [lstrip]; destruct (is_space c) eqn:Ec; [exact IH|].
  right; exists c, r; auto.
Qed.

Lemma strip_idem : forall s, strip (strip s) = strip s.
Proof.
  intros s; unfold strip.
  destruct (lstrip_head s) as [E|(c & r & E & Hc)]; rewrite E; [reflexivity|].
  destruct (rstrip_head c r Hc) as [r' E']; rewrite E'.
  cbn [lstrip]; rewrite Hc, <- E'; apply rstrip_idem.
Qed.

Lemma umount_all_true : forall umount l,
  (forall p, exists rc err, umount p = Ran rc err) -> fst (umount_all umount l) = true.
Proof.
  intros umount l H; induction l as [|p l IH]; [reflexivity|].
  cbn [umount_all]; destruct (String.eqb (strip p) EmptyString); [exact IH|].
  destruct (H ("/dev/" ++ strip p)%string) as (rc & err & E); rewrite E.
  destruct (umount_all umount l) as [ok paths]; exact IH.
Qed.

End UnmountFacts.

Module UnmountProps.
Import WipeCore Detect Helpers UnmountFacts.

(** X9.  [lsblk -ln] separates names with newlines, but
    [_unmount_device] splits on the two characters backslash and [n]: on
    output with no backslash it runs one [umount], on [/dev/] followed by
    the whole stripped output, and returns [True] whatever that [umount]
    exits with. *)
Theorem unmount_single_call : forall rc out umount rc' err,
  has_backslash out = false -> strip out <> EmptyString ->
  umount ("/dev/" ++ strip out)%string = Ran rc' err ->
  unmount_device (Ran rc out) umount = (true, [("/dev/" ++ strip out)%string]).
Proof.
  intros rc out umount rc' err Hb Hne Hu; unfold unmount_device.
  rewrite split_no_backslash
    by (apply rstrip_no_backslash, lstrip_no_backslash, Hb).
  cbn [umount_all]; rewrite strip_idem.
  destruct (String.eqb (strip out) EmptyString) eqn:E; [apply String.eqb_eq in E; contradiction|].
  rewrite Hu; reflexivity.
Qed.

(** X10.  When [lsblk] and every [umount] run, whatever they exit with,
    [_unmount_device] reports success, so the pre-wipe checks of a host
    whose unmount step is this helper pass whether or not the device is
    still mounted. *)
Theorem unmount_never_blocks_wipe : forall rc out umount env s,
  (forall p, exists rc' err, umount p = Ran rc' err) ->
  unmount_ok env = fst (unmount_device (Ran rc out) umount) ->
  pre_check_raises env = None -> path_exists env = true ->
  fst (unmount_device (Ran rc out) umount) = true /\ fst (pre_wipe_checks env s) = Ok true.
Proof.
  intros rc out umount env s Hall Hu H1 H2.
  assert (T : fst (unmount_device (Ran rc out) umount) = true) by (apply umount_all_true, Hall).
  split; [exact T|]; rewrite T in Hu.
  cbv [pre_wipe_checks dev_path bind get_op log modify_op ret notify]; rewrite H1, H2, Hu; cbn.
  destruct (is_mounted env); cbn;
    destruct (hpa_dco_present _); [destruct (hpa_removed env)| |destruct (hpa_removed env)|];
    destruct (pre_sample env); reflexivity.
Qed.

End UnmountProps.

(** *** The registry of operations *)

Module RegistryFacts.
Import WipeCore WipeFacts Registry.

Lemma ops_get_set : forall k v l, ops_get k (ops_set k v l) = Some v.
Proof.
  intros k v l; induction l as [|[k' v'] l IH]; unfold ops_get in *; cbn.
  - rewrite String.eqb_refl; reflexivity.
  - destruct (String.eqb k k') eqn:E; cbn; [rewrite String.eqb_refl; reflexivity|].
    rewrite String.eqb_sym, E; exact IH.
Qed.

Lemma ops_get_set_other : forall k k' v l, k' <> k -> ops_get k' (ops_set k v l) = ops_get k' l.
Proof.
  intros k k' v l Hne; induction l as [|[k0 v0] l IH]; unfold ops_get in *; cbn.
  - destruct (String.eqb k k') eqn:E; [apply String.eqb_eq in E; congruence | reflexivity].
  - destruct (String.eqb k k0) eqn:E; cbn.
    + apply String.eqb_eq in E; subst k0.
      destruct (String.eqb k k') eqn:E'; [apply String.eqb_eq in E'; congruence | reflexivity].
    + destruct (String.eqb k0 k'); [reflexivity | exact IH].
Qed.

(** The run of a prepared operation is stored back under its path. *)
Lemma execute_at_prepared env select ops d :
  ops_get (device_path d)
    (snd (fst (execute_wipe_at env (fst (prepare_wipe_operation select ops d)) (device_path d)))) =
  Some (op (snd (run_execute_wipe env (snd (prepare_wipe_operation select ops d))))).
Proof.
  unfold execute_wipe_at; cbn [fst snd prepare_wipe_operation]; rewrite ops_get_set.
  destruct (run_execute_wipe _ _) as [r s]; cbn [fst snd]; apply ops_get_set.
Qed.

(** Without an exception out of the checks, the run returns [Ok b], ends
    [COMPLETED] when [b] and [FAILED] otherwise, and [b] only after the
    strategy succeeded on a state of the same operation. *)
Lemma run_no_raise env op0 : pre_check_raises env = None ->
  exists b, fst (run_execute_wipe env op0) = Ok b /\
    status (op (snd (run_execute_wipe env op0))) = (if b then COMPLETED else FAILED) /\
    (b = true -> exists s, method (op s) = method op0 /\ device_info (op s) = device_info op0 /\
       fst (execute_wipe_method env s) = Ok true).
Proof.
  intros He.
  unfold run_execute_wipe, execute_wipe.
  cbv [bind try_except modify_op ret].
  cbn [op notes sector_checks].
  match goal with |- context [pre_wipe_checks env ?s1] => set (s := s1) end.
  destruct (returns_pre_wipe_checks env He s) as [ok Hok].
  assert (K1 : keeps_device (device_info op0) (snd (pre_wipe_checks env s))).
  { apply (proj1 (proj2 (device_kept env _))); reflexivity. }
  assert (M1 : keeps_status_method IN_PROGRESS (method op0) (snd (pre_wipe_checks env s))).
  { apply (proj1 (proj2 (status_method_kept env _ _))); split; reflexivity. }
  destruct (pre_wipe_checks env s) as [r s2]; simpl in Hok; subst r.
  destruct ok; cbn -[execute_wipe_method post_wipe_verification];
    [| exists false; split; [reflexivity | split; [reflexivity | discriminate]]].
  destruct (returns_execute_wipe_method env s2) as [ok Hok].
  destruct (execute_wipe_method env s2) as [r s3] eqn:Em; simpl in Hok; subst r.
  destruct ok; cbn -[execute_wipe_method post_wipe_verification];
    [| exists false; split; [reflexivity | split; [reflexivity | discriminate]]].
  destruct (returns_post_wipe_verification env s3) as [ok Hok].
  destruct (post_wipe_verification env s3) as [r s4]; simpl in Hok; subst r.
  destruct ok; cbn -[execute_wipe_method];
    [| exists false; split; [reflexivity | split; [reflexivity | discriminate]]].
  exists true; split; [reflexivity | split; [reflexivity|]].
  intros _; exists s2; split; [exact (proj2 M1) | split; [exact K1 | rewrite Em; reflexivity]].
Qed.

Lemma run_status env op0 :
  status (op (snd (run_execute_wipe env op0))) = COMPLETED \/
  status (op (snd (run_execute_wipe env op0))) = FAILED.
Proof.
  destruct (pre_check_raises env) as [e|] eqn:He; [right; apply (raised_run_fails env op0 e He)|].
  destruct (run_no_raise env op0 He) as (b & _ & Hs & _); rewrite Hs; destruct b; auto.
Qed.

Lemma run_completed_method env op0 :
  status (op (snd (run_execute_wipe env op0))) = COMPLETED ->
  exists s, method (op s) = method op0 /\ device_info (op s) = device_info op0 /\
    fst (execute_wipe_method env s) = Ok true.
Proof.
  intros H.
  destruct (pre_check_raises env) as [e|] eqn:He.
  { rewrite (raised_run_fails env op0 e He) in H; discriminate H. }
  destruct (run_no_raise env op0 He) as (b & _ & Hs & Hb); rewrite Hs in H.
  destruct b; [apply Hb; reflexivity | discriminate H].
Qed.

(** [_crypto_erase] on a BitLocker device returns [False]. *)
Lemma crypto_bitlocker env s :
  method (op s) = CRYPTO_ERASE -> encryption_status (device_info (op s)) = "BitLocker" ->
  fst (execute_wipe_method env s) = Ok false.
Proof.
  intros Hm He.
  cbv [execute_wipe_method bind get_op log modify_op try_except]; rewrite Hm.
  cbv [crypto_erase bind get_op log modify_op try_except ret]; cbn [op append_log device_info].
  rewrite He; reflexivity.
Qed.

End RegistryFacts.

Module RunFacts.
Import WipeCore WipeFacts Registry RegistryFacts.

(** The phases other than the [dd] overwrite never write
    [operation.progress]: any property closed under the other steps is
    kept by them. *)
Section NoProgress.
Variable env : Env.
Variable Inv : St -> Prop.
Hypothesis H_log : forall l s, Inv s -> Inv (mkSt (append_log l (op s)) (notes s) (sector_checks s)).
Hypothesis H_hash : forall k v s, Inv s ->
  Inv (mkSt (set_verification_hash k v (op s)) (notes s) (sector_checks s)).
Hypothesis H_notify : forall p s, Inv s -> Inv (mkSt (op s) (notes s ++ [p]) (sector_checks s)).
Hypothesis H_check : forall x s, Inv s -> Inv (mkSt (op s) (notes s) (sector_checks s ++ [x])).
Hypothesis H_error : forall e s, Inv s -> Inv (mkSt (set_error_message e (op s)) (notes s) (sector_checks s)).

Lemma np_log l : Pres Inv (log l).
Proof. intros s H; apply H_log; exact H. Qed.

Lemma np_notify p : Pres Inv (notify p).
Proof. intros s H; apply H_notify; exact H. Qed.

Lemma np_set_hash k v : Pres Inv (modify_op (set_verification_hash k v)).
Proof. intros s H; apply H_hash; exact H. Qed.

Lemma np_set_error e : Pres Inv (modify_op (set_error_message e)).
Proof. intros s H; apply H_error; exact H. Qed.

Lemma np_verify x : Pres Inv (verify_sector_wiped env x).
Proof.
  intros s H; unfold verify_sector_wiped.
  destruct x as [z|q]; [destruct (read_sector env (z * 512))|]; apply H_check; exact H.
Qed.

Lemma np_run c : Pres Inv (run_cmd env c).
Proof. unfold run_cmd; destruct (run env c); pres. Qed.

#[local] Hint Resolve np_log np_notify np_set_hash np_set_error np_verify np_run : pres_db.

Lemma np_poll est es : Pres Inv (poll_progress est es).
Proof. induction es; simpl; pres. Qed.

Lemma np_notify_all ps : Pres Inv (notify_all ps).
Proof. induction ps; simpl; pres. Qed.

Lemma np_dev_path : Pres Inv (dev_path).
Proof. unfold dev_path; pres. Qed.

#[local] Hint Resolve np_poll np_notify_all np_dev_path : pres_db.

Lemma np_passes k n size : Pres Inv (passes env k n size).
Proof. revert k; induction n; intros k; simpl; unfold overwrite_device; pres. Qed.

Lemma np_sample_loop size sc i n : Pres Inv (sample_loop env size sc i n).
Proof. revert i; induction n; intros i; simpl; pres. Qed.

#[local] Hint Resolve np_passes np_sample_loop : pres_db.

Lemma np_pre_wipe_checks : Pres Inv (pre_wipe_checks env).
Proof. unfold pre_wipe_checks; pres. Qed.

Lemma np_post_wipe_verification : Pres Inv (post_wipe_verification env).
Proof. unfold post_wipe_verification; pres. Qed.

Lemma np_methods :
  Pres Inv (ata_secure_erase env) /\ Pres Inv (nvme_secure_erase env) /\
  Pres Inv (nvme_crypto_erase env) /\ Pres Inv (multipass_overwrite env).
Proof. unfold ata_secure_erase, nvme_secure_erase, nvme_crypto_erase, multipass_overwrite; repeat split; pres. Qed.

Hypothesis H_method : forall s, Inv s ->
  method (op s) <> SINGLE_PASS_RANDOM /\ method (op s) <> CRYPTO_ERASE.

Lemma np_execute_wipe_method : Pres Inv (execute_wipe_method env).
Proof.
  destruct np_methods as (M1 & M2 & M3 & M4).
  unfold execute_wipe_method; apply pres_get_bind; intros o (s & Hs & <-).
  destruct (H_method s Hs) as [N1 N2].
  apply pres_bind; [apply np_log | intros _].
  apply pres_try; [| intros e; pres].
  destruct (method (op s)); try congruence; pres.
Qed.

End NoProgress.

(** Without an exception out of the checks, a run ends in one of three
    ways: [FAILED] after a phase returned [False], [FAILED] with the
    verification message, or [COMPLETED] at 100 per cent; the operation is
    otherwise as the phases left it. *)
Lemma run_final env op0 (Inv : St -> Prop) :
  pre_check_raises env = None ->
  Pres Inv (pre_wipe_checks env) -> Pres Inv (execute_wipe_method env) ->
  Pres Inv (post_wipe_verification env) ->
  Inv (mkSt (set_status IN_PROGRESS (set_start_time (Some (clock_start env)) op0)) [] []) ->
  exists s', Inv s' /\
    (op (snd (run_execute_wipe env op0)) = set_status FAILED (op s') \/
     op (snd (run_execute_wipe env op0)) =
       set_error_message (Some "Post-wipe verification failed") (set_status FAILED (op s')) \/
     op (snd (run_execute_wipe env op0)) =
       set_progress 100 (set_end_time (Some (clock_end env)) (set_status COMPLETED (op s')))).
Proof.
  intros He Hpre Hm Hpost H0.
  unfold run_execute_wipe, execute_wipe.
  cbv [bind try_except modify_op ret].
  cbn [op notes sector_checks].
  match goal with |- context [pre_wipe_checks env ?s1] => set (s := s1) end.
  destruct (returns_pre_wipe_checks env He s) as [ok Hok].
  pose proof (Hpre s H0) as I1.
  destruct (pre_wipe_checks env s) as [r s2]; simpl in Hok; subst r; cbn [snd] in I1.
  destruct ok; cbn -[execute_wipe_method post_wipe_verification];
    [| exists s2; split; [exact I1 | left; reflexivity]].
  destruct (returns_execute_wipe_method env s2) as [ok Hok].
  pose proof (Hm s2 I1) as I2.
  destruct (execute_wipe_method env s2) as [r s3]; simpl in Hok; subst r; cbn [snd] in I2.
  destruct ok; cbn -[post_wipe_verification];
    [| exists s3; split; [exact I2 | left; reflexivity]].
  destruct (returns_post_wipe_verification env s3) as [ok Hok].
  pose proof (Hpost s3 I2) as I3.
  destruct (post_wipe_verification env s3) as [r s4]; simpl in Hok; subst r; cbn [snd] in I3.
  exists s4; split; [exact I3|].
  destruct ok; cbn; [right; right; reflexivity | right; left; reflexivity].
Qed.

(** ** The operation log only grows *)

Definition log_prefix (L : list string) (s : St) : Prop :=
  exists rest, operation_log (op s) = (L ++ rest)%list.

Lemma log_prefix_modify L f : (forall o, operation_log (f o) = operation_log o) ->
  Pres (log_prefix L) (modify_op f).
Proof. intros Hf s [rest H]; exists rest; cbn; rewrite Hf; exact H. Qed.

Lemma log_prefix_log L l : Pres (log_prefix L) (log l).
Proof.
  intros s [rest H]; exists (rest ++ [l])%list; cbn; rewrite H, app_assoc; reflexivity.
Qed.

Lemma log_prefix_notify L p : Pres (log_prefix L) (notify p).
Proof. intros s H; exact H. Qed.

Ltac log_prefix_close :=
  first [ intros l s [rest H]; exists (rest ++ [l])%list; cbn; rewrite H, app_assoc; reflexivity
        | intros ? ? s [rest H]; exists rest; exact H
        | intros ? s [rest H]; exists rest; exact H ].

Lemma log_prefix_phases env L :
  Pres (log_prefix L) (pre_wipe_checks env) /\ Pres (log_prefix L) (execute_wipe_method env) /\
  Pres (log_prefix L) (post_wipe_verification env).
Proof.
  split; [|split];
    [apply frame_pre_wipe_checks | apply frame_execute_wipe_method | apply frame_post_wipe_verification];
    log_prefix_close.
Qed.

Lemma log_prefix_execute_wipe env L : Pres (log_prefix L) (execute_wipe env).
Proof.
  destruct (log_prefix_phases env L) as (H1 & H2 & H3).
  unfold execute_wipe; pres;
    first [ apply log_prefix_modify; reflexivity | apply log_prefix_log | apply log_prefix_notify ].
Qed.

End RunFacts.

Module RegistryProps.
Import Json WipeCore WipeFacts Detect DetectFacts Registry RegistryFacts RunFacts.

(** X11.  A disk that [_check_encryption] finds to be BitLocker (not
    LUKS, and its path on a line of the mount table that mentions
    [bitlocker]) is given [CRYPTO_ERASE] by the rules, and running the
    prepared operation leaves it [FAILED] in the registry, since
    [_crypto_erase] has no BitLocker implementation. *)
Theorem bitlocker_detected_wipe_fails :
  forall host cls cs dd x d rc out1 rc2 out2 env str_hash ops,
  analyze_device host cls cs dd = Some x -> to_device_info x = Some d ->
  cryptsetup_isLuks host (d_device_path x) = Ran rc out1 -> rc <> 0%Z ->
  mount_table host = Ran rc2 out2 ->
  contains (d_device_path x) out2 = true -> contains "bitlocker" (lower out2) = true ->
  select_optimal_wipe_method None str_hash d = CRYPTO_ERASE /\
  exists o, ops_get (device_path d)
      (snd (fst (execute_wipe_at env
         (fst (prepare_wipe_operation (select_optimal_wipe_method None str_hash) ops d))
         (device_path d)))) = Some o /\ status o = FAILED.
Proof.
  intros host cls cs dd x d rc out1 rc2 out2 env str_hash ops Ha Ht Hl Hrc Hm Hc1 Hc2.
  destruct (analyze_device_fields _ _ _ _ _ Ha) as (_ & _ & He & _).
  destruct (to_device_info_fields _ _ Ht) as (_ & _ & _ & He' & _).
  assert (Enc : encryption_status d = "BitLocker").
  { rewrite He', He; unfold check_encryption; rewrite Hl, Hm, Hc1, Hc2.
    destruct (Z.eqb_spec rc 0); [contradiction | reflexivity]. }
  assert (Sel : select_optimal_wipe_method None str_hash d = CRYPTO_ERASE).
  { cbn [select_optimal_wipe_method]; unfold rule_based_method_selection; rewrite Enc; reflexivity. }
  split; [exact Sel|].
  rewrite execute_at_prepared; eexists; split; [reflexivity|].
  destruct (run_status env (snd (prepare_wipe_operation (select_optimal_wipe_method None str_hash) ops d)))
    as [E|E]; [exfalso|exact E].
  destruct (run_completed_method env _ E) as (s & Hms & Hds & Hok).
  cbn [prepare_wipe_operation snd append_log method device_info new_operation] in Hms, Hds.
  rewrite Sel in Hms.
  rewrite (crypto_bitlocker env s Hms) in Hok; [discriminate Hok|].
  rewrite Hds; exact Enc.
Qed.

(** X12.  Running a prepared operation leaves in the registry, under its
    path, an operation that is [COMPLETED] or [FAILED], and whose log still
    opens with the two lines [prepare_wipe_operation] wrote. *)
Theorem prepared_run_outcome : forall env select ops d,
  exists o, ops_get (device_path d)
      (snd (fst (execute_wipe_at env (fst (prepare_wipe_operation select ops d)) (device_path d)))) = Some o /\
    (status o = COMPLETED \/ status o = FAILED) /\
    exists rest, operation_log o =
      ("Operation prepared for " ++ device_path d)%string ::
      ("Selected method: " ++ WipeMethod_value (select d))%string :: rest.
Proof.
  intros env select ops d.
  rewrite execute_at_prepared; eexists; split; [reflexivity|].
  split; [apply run_status|].
  set (L := [("Operation prepared for " ++ device_path d)%string;
             ("Selected method: " ++ WipeMethod_value (select d))%string]).
  assert (H0 : log_prefix L (mkSt (snd (prepare_wipe_operation select ops d)) [] []))
    by (exists []; reflexivity).
  destruct (log_prefix_execute_wipe env L _ H0) as [rest H]; exists rest; exact H.
Qed.

Definition no_progress_inv (p : Q) (s : St) : Prop :=
  progress (op s) = p /\ method (op s) <> SINGLE_PASS_RANDOM /\ method (op s) <> CRYPTO_ERASE.

(** X13.  The stored [progress] of an operation whose strategy is neither
    the [dd] overwrite nor crypto erase (which may fall back to it) only
    jumps: a run without an exception out of the checks leaves it at 100
    with [COMPLETED] or at 0 with [FAILED]; the intermediate percentages
    reach the callbacks only. *)
Theorem stored_progress_all_or_nothing : forall env select ops d,
  pre_check_raises env = None ->
  select d <> SINGLE_PASS_RANDOM -> select d <> CRYPTO_ERASE ->
  exists o, ops_get (device_path d)
      (snd (fst (execute_wipe_at env (fst (prepare_wipe_operation select ops d)) (device_path d)))) = Some o /\
    ((status o = COMPLETED /\ progress o = 100) \/ (status o = FAILED /\ progress o = 0)).
Proof.
  intros env select ops d He N1 N2.
  rewrite execute_at_prepared; eexists; split; [reflexivity|].
  assert (Hm : forall s, no_progress_inv 0 s ->
            method (op s) <> SINGLE_PASS_RANDOM /\ method (op s) <> CRYPTO_ERASE).
  { intros s (_ & A & B); auto. }
  assert (Hc : forall (f : WipeOperation -> WipeOperation) s,
            progress (f (op s)) = progress (op s) -> method (f (op s)) = method (op s) ->
            no_progress_inv 0 s -> no_progress_inv 0 (mkSt (f (op s)) (notes s) (sector_checks s))).
  { intros f s E1 E2 (A & B & C); unfold no_progress_inv; cbn [op]; rewrite E1, E2; auto. }
  destruct (run_final env (snd (prepare_wipe_operation select ops d)) (no_progress_inv 0) He)
    as (s' & (Hp & _) & [E|[E|E]]).
  - apply np_pre_wipe_checks; intros; first [apply Hc; [reflexivity | reflexivity | assumption] | assumption].
  - apply np_execute_wipe_method;
      [intros; first [apply Hc; [reflexivity | reflexivity | assumption] | assumption] .. | exact Hm].
  - apply np_post_wipe_verification; intros; first [apply Hc; [reflexivity | reflexivity | assumption] | assumption].
  - unfold no_progress_inv; cbn; auto.
  - rewrite E; right; cbn; rewrite Hp; split; reflexivity.
  - rewrite E; right; cbn; rewrite Hp; split; reflexivity.
  - rewrite E; left; cbn; split; reflexivity.
Qed.

(** X14.  Detection stores sizes as floats, so a detected disk of at
    least 1 GB never passes the sector sampling: running its prepared
    operation, whatever the strategy and the host, leaves it [FAILED] in
    the registry. *)
Theorem detected_large_disk_fails : forall env select ops x d,
  to_device_info x = Some d -> 1 <= d_size_gb x ->
  exists o, ops_get (device_path d)
      (snd (fst (execute_wipe_at env (fst (prepare_wipe_operation select ops d)) (device_path d)))) = Some o /\
    status o = FAILED.
Proof.
  intros env select ops x d Ht H1.
  destruct (to_device_info_fields _ _ Ht) as (_ & _ & Hs & _).
  rewrite execute_at_prepared; eexists; split; [reflexivity|].
  destruct (run_status env (snd (prepare_wipe_operation select ops d))) as [E|E]; [exfalso|exact E].
  destruct (completed_run_verified env _ E) as (s & Hd & Hok).
  cbn [prepare_wipe_operation snd append_log device_info new_operation] in Hd.
  assert (Hq : size_gb (device_info (op s)) = PFloat (d_size_gb x)) by (rewrite Hd; exact Hs).
  destruct (post_wipe_verification_float env s _ Hq H1) as [F _].
  rewrite F in Hok; discriminate Hok.
Qed.

End RegistryProps.

(** *** The log summary *)

Module LogSummaryProps.
Import Log LogFacts LogSummary.

Lemma add_entries_timestamps : forall sha calls chain,
  map timestamp (add_entries sha chain calls) = (map timestamp chain ++ map a_ts calls)%list.
Proof.
  intros sha; unfold add_entries; induction calls as [|a calls IH]; intros chain.
  - rewrite app_nil_r; reflexivity.
  - cbn [fold_left]; rewrite IH; unfold add_entry; rewrite map_app, <- app_assoc; reflexivity.
Qed.

Lemma first_timestamp_hd : forall l : list LogEntry,
  match l with e :: _ => Some (timestamp e) | [] => None end = hd_error (map timestamp l).
Proof. intros [|e l]; reflexivity. Qed.

(** X16.  The summary of the log a fresh logger builds from a sequence of
    [add_entry] calls counts the calls, reports the clock readings of the
    first and the last call, and finds the chain intact. *)
Theorem log_summary_of_appends : forall sha256_hex calls,
  total_entries (get_log_summary sha256_hex (add_entries sha256_hex [] calls)) = length calls /\
  first_entry_timestamp (get_log_summary sha256_hex (add_entries sha256_hex [] calls)) =
    option_map a_ts (hd_error calls) /\
  last_entry_timestamp (get_log_summary sha256_hex (add_entries sha256_hex [] calls)) =
    option_map a_ts (hd_error (rev calls)) /\
  integrity_verified (get_log_summary sha256_hex (add_entries sha256_hex [] calls)) = true.
Proof.
  intros sha calls.
  pose proof (add_entries_timestamps sha calls []) as T; cbn [map app] in T.
  cbn [get_log_summary total_entries first_entry_timestamp last_entry_timestamp integrity_verified].
  split; [|split; [|split]].
  - rewrite <- (length_map timestamp), T, length_map; reflexivity.
  - rewrite first_timestamp_hd, T; destruct calls; reflexivity.
  - rewrite first_timestamp_hd, map_rev, T, <- map_rev; destruct (rev calls); reflexivity.
  - apply add_entries_valid; reflexivity.
Qed.

End LogSummaryProps.

(** *** The verifiers *)

Module VerifierProps.
Import Json JsonFacts Cert CertFacts Detect Verifiers.

(** X17.  The command-line verifier never checks the signature: for any
    certificate the builder's dataclass describes and whose timestamp
    [fromisoformat] accepts, every non-empty signature string gives a
    valid result with the six fields, and only the empty one is
    refused. *)
Theorem cli_accepts_any_signature : forall fromisoformat_ok c s,
  fromisoformat_ok (replace_Z (timestamp c)) = true ->
  verify_certificate_simple fromisoformat_ok (Loaded (asdict (set_signature c s))) =
  if String.eqb s EmptyString then CliNoSignature
  else CliValid (JStr (certificate_id c)) (JStr (timestamp c)) (Cert.device_info c)
         (wipe_operation c) (tool_info c) (compliance_info c).
Proof.
  intros f c s H; cbn; rewrite H; destruct (String.eqb s EmptyString); reflexivity.
Qed.

(** X18.  A document that is not a dict is never valid for the
    command-line verifier: it is reported as missing fields, or the
    verifier fails with an error, even when the document is a list or a
    string that names every required field. *)
Theorem cli_non_dict_rejected : forall fromisoformat_ok v,
  (forall l, v <> JObj l) ->
  verify_certificate_simple fromisoformat_ok (Loaded v) = CliError \/
  exists m, verify_certificate_simple fromisoformat_ok (Loaded v) = CliMissing m.
Proof.
  intros f v Hv; cbn [verify_certificate_simple].
  destruct (missing_fields v required_fields) as [[|x m]|]; [|right; eexists; reflexivity|left; reflexivity].
  destruct v; try (left; reflexivity).
  exfalso; eapply Hv; reflexivity.
Qed.

Section Web.
Variables (PrivKey PubKey Sig : Type).
Variable public_key : PrivKey -> PubKey.
Variable ecdsa_sign : PrivKey -> nat -> string -> Sig.
Variable ecdsa_verify : PubKey -> string -> Sig -> bool.
Variable b64encode : Sig -> string.
Variable b64decode : string -> option Sig.

Lemma web_signature_check : forall fromisoformat_ok pk c sg,
  signature c <> EmptyString -> b64decode (signature c) = Some sg ->
  web_verify_certificate ecdsa_verify b64decode fromisoformat_ok (Some pk) (asdict c) =
  match validate_certificate_structure fromisoformat_ok
          (match asdict c with JObj l => l | _ => [] end) with
  | Some errors =>
      WebChecked (ecdsa_verify pk (dumps (JObj (signed_items c))) sg)
        (match errors with [] => true | _ => false end) errors
  | None => WebRejected VerificationError
  end.
Proof.
  intros f pk c sg Hne Hd.
  unfold web_verify_certificate; cbn [asdict jget_default].
  unfold jget_default, jget; cbn [rev app find fst snd String.eqb].
  cbn.
  destruct (String.eqb (signature c) EmptyString) eqn:E;
    [apply String.eqb_eq in E; contradiction|].
  cbn; rewrite Hd; reflexivity.
Qed.

Lemma web_empty_signature : forall fromisoformat_ok pk c,
  signature c = EmptyString ->
  web_verify_certificate ecdsa_verify b64decode fromisoformat_ok pk (asdict c) =
  WebRejected NoSignature.
Proof. intros f pk c H; cbn; rewrite H; reflexivity. Qed.

Hypothesis b64_roundtrip : forall sg, b64decode (b64encode sg) = Some sg.
Hypothesis ecdsa_correct : forall k nonce m,
  ecdsa_verify (public_key k) m (ecdsa_sign k nonce m) = true.
Hypothesis ecdsa_binding : forall k nonce m m',
  ecdsa_verify (public_key k) m' (ecdsa_sign k nonce m) = true -> m' = m.

(** X19.  The web verifier, given the public key, accepts a certificate
    the builder prepared and signed exactly when the wipe operation's
    status is [completed] or [failed]: the signature then checks, and the
    structure check refuses every other status.  Base64 is taken to
    decode what it encodes and to encode every signature to a non-empty
    string, ECDSA to be correct, and [fromisoformat] to accept the build
    time. *)
Theorem web_accepts_finished_builds :
  forall (b64_nonempty : forall sg, b64encode sg <> EmptyString)
         fromisoformat_ok sha256_hex py_repr cert_id now fingerprint op log_chain k nonce s,
  fromisoformat_ok (replace_Z now) = true ->
  sign_certificate ecdsa_sign b64encode k nonce
    (prepare_certificate_data sha256_hex py_repr cert_id now fingerprint op log_chain) = Some s ->
  web_valid (web_verify_certificate ecdsa_verify b64decode fromisoformat_ok (Some (public_key k))
    (asdict (set_signature
       (prepare_certificate_data sha256_hex py_repr cert_id now fingerprint op log_chain) s))) =
  match WipeCore.status op with WipeCore.COMPLETED | WipeCore.FAILED => true | _ => false end.
Proof.
  intros Hne f sha repr cid now fp op chain k nonce s Hf Hs.
  unfold sign_certificate in Hs; rewrite canonical_json_signed in Hs.
  injection Hs as <-; unfold sign_data.
  set (c := prepare_certificate_data sha repr cid now fp op chain).
  rewrite (web_signature_check f (public_key k) (set_signature c _) _ (Hne _) (b64_roundtrip _)).
  rewrite signed_items_set_signature, ecdsa_correct.
  cbn; rewrite Hf.
  destruct (device_type (WipeCore.device_info op)), (WipeCore.status op); reflexivity.
Qed.

(** X20.  The web verifier refuses a certificate carrying a builder's
    signature whose signed fields differ, as dicts, from the signed ones,
    whatever its structure.  ECDSA is taken to be binding and base64 to
    decode what it encodes. *)
Theorem web_rejects_altered : forall fromisoformat_ok k nonce c s c',
  sign_certificate ecdsa_sign b64encode k nonce c = Some s ->
  signature c' = s ->
  json_wf (JObj (signed_items c)) = true -> json_wf (JObj (signed_items c')) = true ->
  sort_keys (JObj (signed_items c')) <> sort_keys (JObj (signed_items c)) ->
  web_valid (web_verify_certificate ecdsa_verify b64decode fromisoformat_ok (Some (public_key k))
    (asdict c')) = false.
Proof.
  intros f k nonce c s c' Hs Hsig W W' Hdiff.
  unfold sign_certificate in Hs; rewrite canonical_json_signed in Hs.
  injection Hs as <-; unfold sign_data in Hsig.
  destruct (String.eqb (signature c') EmptyString) eqn:E.
  { apply String.eqb_eq in E; rewrite (web_empty_signature f _ c' E); reflexivity. }
  apply String.eqb_neq in E.
  rewrite (web_signature_check f (public_key k) c' _ E) by (rewrite Hsig; apply b64_roundtrip).
  destruct (validate_certificate_structure f _); [|reflexivity].
  cbn [web_valid].
  destruct (ecdsa_verify (public_key k) (dumps (JObj (signed_items c')))
              (ecdsa_sign k nonce (dumps (JObj (signed_items c))))) eqn:V; [|reflexivity].
  apply ecdsa_binding in V; apply dumps_inj in V; [contradiction | exact W' | exact W].
Qed.

End Web.

End VerifierProps.

(** *** Witnesses: the theorems above at concrete inputs *)

Module ExtraWitnesses.
Import Json JsonFacts WipeCore Detect Helpers Registry Cert Verifiers ScanFacts
  SizeProps DetectProps UnmountFacts UnmountProps RegistryProps VerifierProps DetectExamples.

Lemma parse_size_to_gb_reads_number_witness :
  parse_size_to_gb ("465" ++ "G") = Some (inject_Z (digits_value "465") * 1) /\
  parse_size_to_gb ("465" ++ "." ++ "8" ++ "G") =
    Some ((inject_Z (digits_value "465") +
           inject_Z (digits_value "8") / inject_Z (10 ^ Z.of_nat (String.length "8"))) * 1).
Proof.
  apply (parse_size_to_gb_reads_number "465" "8" "G" 1);
    [reflexivity | discriminate | reflexivity | cbn; auto].
Defined.

Lemma parse_size_to_gb_nonneg_witness :
  exists q, parse_size_to_gb "465.8G" = Some q /\ 0 <= q.
Proof.
  eexists; split; [reflexivity|].
  apply (parse_size_to_gb_nonneg "465.8G"); reflexivity.
Defined.

Lemma scan_devices_stops_at_non_dict_witness :
  scan_devices bitlocker_host None container_repr ([JObj sda_entry] ++ JStr "loop0" :: [JObj sr0_entry]) =
  scan_devices bitlocker_host None container_repr [JObj sda_entry].
Proof.
  apply scan_devices_stops_at_non_dict; intros d H; discriminate H.
Defined.

Lemma detect_devices_sound_witness :
  In sda_detected (detect_devices bitlocker_host None container_repr) /\
  exists top l dd name,
    lsblk_json bitlocker_host = Some (JObj top) /\
    jget_default top "blockdevices" (JArr []) = JArr l /\
    In (JObj dd) l /\ is_disk dd = true /\
    analyze_device bitlocker_host None container_repr dd = Some sda_detected /\
    jget dd "name" = Some name /\ d_device_path sda_detected = ("/dev/" ++ fstr container_repr name)%string.
Proof.
  assert (H : In sda_detected (detect_devices bitlocker_host None container_repr))
    by (vm_compute; left; reflexivity).
  split; [exact H | exact (detect_devices_sound _ _ _ _ H)].
Defined.

Lemma no_smartctl_features_witness :
  get_device_features bare_host "/dev/sda" = no_features /\
  extract_feature_vector (get_device_features bare_host "/dev/sda") = map PFloat [0; 0; 0; 0; 25] /\
  classify_device_type None (get_device_features bare_host "/dev/sda") = UNKNOWN.
Proof.
  apply (no_smartctl_features bare_host "/dev/sda" "No such file or directory: 'smartctl'"); reflexivity.
Defined.

Lemma rotation_speed_feature_witness :
  hd (PFloat 0) (extract_feature_vector (get_device_features bitlocker_host "/dev/sda")) =
  PFloat (inject_Z (digits_value "7200")).
Proof.
  apply (rotation_speed_feature _ ("=== START OF INFORMATION SECTION ===" ++ nl ++ "Rotation Rate:    ")
           "7200" (nl ++ "SMART overall-health self-assessment test result: PASSED"));
    [reflexivity | reflexivity | discriminate | reflexivity].
Defined.

Lemma hpa_mention_triggers_removal_witness :
  hpa_dco_present sda_info = true /\
  In "Removing HPA/DCO"
    (WipeCore.operation_log (op (snd (pre_wipe_checks WipeExamples.env_ok
       (mkSt (WipeExamples.fresh_op sda_info MULTIPASS_OVERWRITE) [] []))))).
Proof.
  apply (hpa_mention_triggers_removal bitlocker_host None container_repr sda_entry sda_detected
           sda_info 0 hdparm_n_report);
    first [vm_compute; reflexivity | reflexivity].
Defined.

Lemma unmount_single_call_witness :
  unmount_device (Ran 0 lsblk_ln_out) umount_refuses = (true, [("/dev/" ++ strip lsblk_ln_out)%string]).
Proof.
  apply (unmount_single_call 0 lsblk_ln_out umount_refuses 32
           ("umount: /dev/" ++ strip lsblk_ln_out ++ ": not mounted."));
    [reflexivity | vm_compute; intros H; discriminate H | reflexivity].
Defined.

Lemma unmount_never_blocks_wipe_witness :
  fst (unmount_device (Ran 0 lsblk_ln_out) umount_refuses) = true /\
  fst (pre_wipe_checks env_mounted (mkSt (WipeExamples.fresh_op sda_info MULTIPASS_OVERWRITE) [] [])) = Ok true.
Proof.
  apply unmount_never_blocks_wipe;
    [intros p; exists 32%Z, ("umount: " ++ p ++ ": not mounted.")%string; reflexivity
    | vm_compute; reflexivity | reflexivity | reflexivity].
Defined.

Lemma bitlocker_detected_wipe_fails_witness :
  select_optimal_wipe_method None (fun _ => 0%Z) sda_info = CRYPTO_ERASE /\
  exists o, ops_get (device_path sda_info)
      (snd (fst (execute_wipe_at WipeExamples.env_ok
         (fst (prepare_wipe_operation (select_optimal_wipe_method None (fun _ => 0%Z)) [] sda_info))
         (device_path sda_info)))) = Some o /\ status o = FAILED.
Proof.
  apply (bitlocker_detected_wipe_fails bitlocker_host None container_repr sda_entry sda_detected
           sda_info 1 EmptyString 0 mount_report);
    first [vm_compute; reflexivity | discriminate | reflexivity].
Defined.

Lemma stored_progress_all_or_nothing_witness :
  exists o, ops_get "/dev/sdb"
      (snd (fst (execute_wipe_at WipeExamples.env_ok
         (fst (prepare_wipe_operation (fun _ => MULTIPASS_OVERWRITE) [] Examples.hdd_plain)) "/dev/sdb"))) =
      Some o /\
    ((status o = COMPLETED /\ progress o = 100) \/ (status o = FAILED /\ progress o = 0)).
Proof.
  apply (stored_progress_all_or_nothing WipeExamples.env_ok (fun _ => MULTIPASS_OVERWRITE) []
           Examples.hdd_plain); [reflexivity | discriminate | discriminate].
Defined.

Lemma detected_large_disk_fails_witness :
  exists o, ops_get (device_path sda_info)
      (snd (fst (execute_wipe_at WipeExamples.env_ok
         (fst (prepare_wipe_operation (fun _ => MULTIPASS_OVERWRITE) [] sda_info))
         (device_path sda_info)))) = Some o /\ status o = FAILED.
Proof.
  apply (detected_large_disk_fails WipeExamples.env_ok (fun _ => MULTIPASS_OVERWRITE) [] sda_detected);
    [reflexivity | vm_compute; intros H; discriminate H].
Defined.

Lemma cli_accepts_any_signature_witness :
  cli_valid (verify_certificate_simple (fun _ => true)
    (Loaded (asdict (set_signature Examples.cert_example "not-a-signature")))) = true.
Proof.
  rewrite (cli_accepts_any_signature (fun _ => true) Examples.cert_example "not-a-signature" eq_refl).
  reflexivity.
Defined.

Lemma cli_non_dict_rejected_witness :
  verify_certificate_simple (fun _ => true) (Loaded (JArr (map JStr required_fields))) = CliError \/
  exists m, verify_certificate_simple (fun _ => true) (Loaded (JArr (map JStr required_fields))) = CliMissing m.
Proof. apply cli_non_dict_rejected; intros l H; discriminate H. Defined.

Lemma tagged_b64_roundtrip : forall sg, tagged_b64decode (tagged_b64encode sg) = Some sg.
Proof. reflexivity. Qed.

Lemma tagged_b64_nonempty : forall sg, tagged_b64encode sg <> EmptyString.
Proof. discriminate. Qed.

Lemma toy_sign_correct : forall k nonce m,
  Examples.toy_verify (Examples.toy_public_key k) m (Examples.toy_sign k nonce m) = true.
Proof. intros; apply String.eqb_refl. Qed.

Lemma toy_sign_binding : forall k nonce m m',
  Examples.toy_verify (Examples.toy_public_key k) m' (Examples.toy_sign k nonce m) = true -> m' = m.
Proof. intros k nonce m m' H; now apply String.eqb_eq in H. Qed.

Lemma web_accepts_finished_builds_witness :
  exists s, sign_certificate Examples.toy_sign tagged_b64encode tt 0 Examples.cert_example = Some s /\
    web_valid (web_verify_certificate Examples.toy_verify tagged_b64decode (fun _ => true)
      (Some (Examples.toy_public_key tt)) (asdict (set_signature Examples.cert_example s))) = true.
Proof.
  eexists; split; [reflexivity|].
  exact (web_accepts_finished_builds unit unit string Examples.toy_public_key Examples.toy_sign
           Examples.toy_verify tagged_b64encode tagged_b64decode tagged_b64_roundtrip toy_sign_correct
           tagged_b64_nonempty (fun _ => true) Examples.id_hash Examples.zero_repr
           "3f2a9c1e-0b7d-4c55-9e61-2d8f0a4b7c13" "2025-03-01T12:00:00+00:00" "9a1b2c3d4e5f6a7b"
           Examples.op_done [] tt 0 _ eq_refl eq_refl).
Defined.

Lemma web_rejects_altered_witness :
  exists s, sign_certificate Examples.toy_sign Examples.toy_b64encode tt 0 Examples.cert_example = Some s /\
    web_valid (web_verify_certificate Examples.toy_verify Examples.toy_b64decode (fun _ => true)
      (Some (Examples.toy_public_key tt))
      (asdict (Examples.edit_timestamp (set_signature Examples.cert_example s)
                 "2025-03-02T12:00:00+00:00"))) = false.
Proof.
  eexists; split; [reflexivity|].
  eapply (web_rejects_altered unit unit string Examples.toy_public_key Examples.toy_sign
           Examples.toy_verify Examples.toy_b64encode Examples.toy_b64decode
           (fun sg => eq_refl) toy_sign_binding (fun _ => true) tt 0 Examples.cert_example);
    [reflexivity | reflexivity | vm_compute; reflexivity | vm_compute; reflexivity |
     vm_compute; discriminate].
Defined.

End ExtraWitnesses.
